(** * pm-cli: the AI-assisted pull-request review workflow

    A shallow embedding of the review command ([registerReviewCommand] and
    its helpers [loadGuidelines], [printFindings], [interactiveApproval],
    found in [src/commands/linear.ts] of the source tree), of the
    model-output normalizer ([reviewWithAI], in the library the command
    imports as [../lib/anthropic.js]) and of the delivery engine
    ([postReview], in the library imported as [../lib/github.js]), with the
    properties the design document states about them. *)

From Stdlib Require Import ZArith List String Ascii Bool Lia Permutation.
From Stdlib Require Import Decimal DecimalString DecimalN DecimalFacts.
From stdpp Require Import base gmap strings.
Import ListNotations.

Set Warnings "-register-all".

Local Open Scope string_scope.
Local Open Scope Z_scope.

(** ** Data model ([src/lib/types.ts]) *)

Module Types.

(** [severity: 'critical' | 'warning' | 'suggestion'] *)
Inductive Severity := critical | warning | suggestion.

Definition Severity_eqb (a b : Severity) : bool :=
  match a, b with
  | critical, critical | warning, warning | suggestion, suggestion => true
  | _, _ => false
  end.

(** The string a severity is at run time. *)
Definition severity_name (s : Severity) : string :=
  match s with
  | critical => "critical"
  | warning => "warning"
  | suggestion => "suggestion"
  end.

(** [interface ReviewFinding].  The [number] fields hold integers (an
    identifier, a score, a line number); [approved: boolean | null] is
    [None] for [null]; the optional [posted?: boolean] is [None] when
    absent. *)
Record ReviewFinding := mkFinding {
  id : Z;
  severity : Severity;
  confidence : Z;
  title : string;
  file : string;
  line : Z;
  why : string;
  body : string;
  approved : option bool;
  posted : option bool
}.

(** [interface ReviewFile] *)
Record ReviewFile := mkReviewFile {
  pr : Z;
  repo : string;
  baseBranch : string;
  headSha : string;
  reviewedAt : string;
  summary : string;
  findings : list ReviewFinding
}.

(** Assignments [f.approved = v] and [f.body = b]. *)
Definition set_approved (v : option bool) (f : ReviewFinding) : ReviewFinding :=
  mkFinding (id f) (severity f) (confidence f) (title f) (file f) (line f)
            (why f) (body f) v (posted f).

Definition set_body (b : string) (f : ReviewFinding) : ReviewFinding :=
  mkFinding (id f) (severity f) (confidence f) (title f) (file f) (line f)
            (why f) b (approved f) (posted f).

End Types.
Export Types.

(** ** Severity ordering and the sort ([SEVERITY_ORDER], [findings.sort]) *)

Module Sorting.

(** [const SEVERITY_ORDER: Record<string, number> =
      { critical: 0, warning: 1, suggestion: 2 }] *)
Definition SEVERITY_ORDER : gmap string Z :=
  {[ "critical" := 0; "warning" := 1; "suggestion" := 2 ]}.

(** [SEVERITY_ORDER[f.severity] ?? 99] *)
Definition rank (f : ReviewFinding) : Z :=
  default 99 (SEVERITY_ORDER !! severity_name (severity f)).

(** The comparator handed to [sort]:
    [(a, b) => (SEVERITY_ORDER[a.severity] ?? 99) - (SEVERITY_ORDER[b.severity] ?? 99)] *)
Definition bySeverity (a b : ReviewFinding) : Z := rank a - rank b.

(** [Array.prototype.sort(cmp)]: the engine's sort is stable (ECMAScript
    2019); it is modelled by a stable insertion sort, an element moving
    right only past elements the comparator puts strictly before it. *)
Section ArraySort.
Context {A : Type} (cmp : A -> A -> Z).

Fixpoint insert (x : A) (l : list A) : list A :=
  match l with
  | [] => [x]
  | y :: l' => if cmp x y <=? 0 then x :: y :: l' else y :: insert x l'
  end.

Fixpoint sort (l : list A) : list A :=
  match l with
  | [] => []
  | x :: l' => insert x (sort l')
  end.
End ArraySort.

(** [findings.sort(...)] in the command and [[...findings].sort(...)] in
    [printFindings]: the same comparator at both sites. *)
Definition sortFindings (fs : list ReviewFinding) : list ReviewFinding :=
  sort bySeverity fs.

Definition has_severity (s : Severity) (f : ReviewFinding) : bool :=
  Severity_eqb (severity f) s.

(** The fixed order of the design: critical, then warning, then
    suggestion. *)
Definition severity_before (a b : Severity) : bool :=
  match a, b with
  | critical, warning | critical, suggestion | warning, suggestion => true
  | _, _ => false
  end.

End Sorting.

(** ** JSON values, [JSON.stringify] and [JSON.parse]

    The platform's JSON support, which the normalizer and the record writer
    call.  Text is a sequence of 8-bit code units.  A number is kept as the
    decimal [m * 10^e] its lexeme denotes; an object keeps its properties in
    insertion order. *)

Module Json.

Inductive json :=
| JNull
| JBool (b : bool)
| JNum (m e : Z)
| JStr (s : string)
| JArr (vs : list json)
| JObj (kvs : list (string * json)).

Definition LF : ascii := "010"%char.
Definition CR : ascii := "013"%char.
Definition TAB : ascii := "009"%char.
Definition BS : ascii := "008"%char.
Definition FF : ascii := "012"%char.
Definition QUOTE : ascii := "034"%char.
Definition BACKSLASH : ascii := "092"%char.

(** *** Objects: property read and write *)

Fixpoint obj_get (k : string) (kvs : list (string * json)) : option json :=
  match kvs with
  | [] => None
  | (k', v) :: r => if String.eqb k' k then Some v else obj_get k r
  end.

(** Defining or assigning property [k]: an existing property keeps its
    place, a new one goes last. *)
Fixpoint obj_set (k : string) (v : json) (kvs : list (string * json))
  : list (string * json) :=
  match kvs with
  | [] => [(k, v)]
  | (k', v') :: r =>
      if String.eqb k' k then (k, v) :: r else (k', v') :: obj_set k v r
  end.

Definition obj_of_members (ms : list (string * json)) : list (string * json) :=
  fold_left (fun o kv => obj_set (fst kv) (snd kv) o) ms [].

(** *** Printing *)

Definition hex_digit (n : N) : ascii :=
  match n with
  | 0 => "0" | 1 => "1" | 2 => "2" | 3 => "3" | 4 => "4" | 5 => "5"
  | 6 => "6" | 7 => "7" | 8 => "8" | 9 => "9" | 10 => "a" | 11 => "b"
  | 12 => "c" | 13 => "d" | 14 => "e" | _ => "f"
  end%N%char.

(** QuoteJSONString, one code unit. *)
Definition escape_char (c : ascii) : string :=
  if Ascii.eqb c QUOTE then String BACKSLASH (String QUOTE "")
  else if Ascii.eqb c BACKSLASH then String BACKSLASH (String BACKSLASH "")
  else if Ascii.eqb c BS then String BACKSLASH "b"
  else if Ascii.eqb c FF then String BACKSLASH "f"
  else if Ascii.eqb c LF then String BACKSLASH "n"
  else if Ascii.eqb c CR then String BACKSLASH "r"
  else if Ascii.eqb c TAB then String BACKSLASH "t"
  else if (N_of_ascii c <? 32)%N then
    String BACKSLASH
      (String "u" (String "0" (String "0"
         (String (hex_digit (N_of_ascii c / 16))
            (String (hex_digit (N_of_ascii c mod 16)) "")))))
  else String c "".

Fixpoint escape (s : string) : string :=
  match s with
  | EmptyString => ""
  | String c r => escape_char c ++ escape r
  end.

Definition quote (s : string) : string :=
  String QUOTE (escape s ++ String QUOTE "").

(** Decimal digits of a natural number, and of an integer. *)
Definition N_to_string (n : N) : string :=
  DecimalString.NilEmpty.string_of_uint (N.to_uint n).

Definition Z_to_string (z : Z) : string :=
  if z <? 0 then String "-" (N_to_string (Z.abs_N z))
  else N_to_string (Z.abs_N z).

(** An integer prints as its digits.  (A number with [e <> 0] is not an
    integer; the properties below are stated on integers only.) *)
Definition number_to_string (m e : Z) : string :=
  if e =? 0 then Z_to_string m
  else Z_to_string m ++ String "e" (Z_to_string e).

Fixpoint spaces (n : nat) : string :=
  match n with O => "" | S n' => String " " (spaces n') end.

(** The line break and indentation before an item at nesting depth [d];
    nothing when [indent = 0]. *)
Definition newline (indent d : nat) : string :=
  match indent with
  | O => ""
  | _ => String LF (spaces (indent * d))
  end.

Definition colon (indent : nat) : string :=
  match indent with O => ":" | _ => ": " end.

(** Concatenation of the parts of a text. *)
Definition flat (parts : list string) : string :=
  fold_right String.append "" parts.

(** SerializeJSONProperty / Array / Object at nesting depth [d]. *)
Fixpoint stringify_at (indent d : nat) (v : json) {struct v} : string :=
  match v with
  | JNull => "null"
  | JBool true => "true"
  | JBool false => "false"
  | JNum m e => number_to_string m e
  | JStr s => quote s
  | JArr [] => "[]"
  | JArr (x :: xs) =>
      "[" ++ newline indent (S d) ++ stringify_at indent (S d) x
      ++ flat (map (fun y => "," ++ newline indent (S d)
                                 ++ stringify_at indent (S d) y) xs)
      ++ newline indent d ++ "]"
  | JObj [] => "{}"
  | JObj (kx :: ms) =>
      "{" ++ newline indent (S d) ++ quote (fst kx) ++ colon indent
      ++ stringify_at indent (S d) (snd kx)
      ++ flat (map (fun ky => "," ++ newline indent (S d) ++ quote (fst ky)
                                  ++ colon indent
                                  ++ stringify_at indent (S d) (snd ky)) ms)
      ++ newline indent d ++ "}"
  end.

(** [JSON.stringify(v)] and [JSON.stringify(v, null, indent)]; the engine
    clamps the indentation to ten spaces. *)
Definition JSON_stringify (v : json) : string := stringify_at 0 0 v.

Definition JSON_stringify_indent (indent : nat) (v : json) : string :=
  stringify_at (Nat.min indent 10) 0 v.

(** *** Parsing *)

Definition is_ws (c : ascii) : bool :=
  Ascii.eqb c " " || Ascii.eqb c TAB || Ascii.eqb c LF || Ascii.eqb c CR.

Fixpoint skip_ws (s : string) : string :=
  match s with
  | String c r => if is_ws c then skip_ws r else s
  | EmptyString => ""
  end.

Fixpoint strip_prefix (p s : string) : option string :=
  match p, s with
  | EmptyString, _ => Some s
  | String a p', String b s' =>
      if Ascii.eqb a b then strip_prefix p' s' else None
  | String _ _, EmptyString => None
  end.

Definition digit (c : ascii) : option (Decimal.uint -> Decimal.uint) :=
  if Ascii.eqb c "0" then Some Decimal.D0
  else if Ascii.eqb c "1" then Some Decimal.D1
  else if Ascii.eqb c "2" then Some Decimal.D2
  else if Ascii.eqb c "3" then Some Decimal.D3
  else if Ascii.eqb c "4" then Some Decimal.D4
  else if Ascii.eqb c "5" then Some Decimal.D5
  else if Ascii.eqb c "6" then Some Decimal.D6
  else if Ascii.eqb c "7" then Some Decimal.D7
  else if Ascii.eqb c "8" then Some Decimal.D8
  else if Ascii.eqb c "9" then Some Decimal.D9
  else None.

(** The longest run of decimal digits at the head of the text. *)
Fixpoint read_digits (s : string) : Decimal.uint * string :=
  match s with
  | EmptyString => (Decimal.Nil, "")
  | String c r =>
      match digit c with
      | Some d => let (u, r') := read_digits r in (d u, r')
      | None => (Decimal.Nil, s)
      end
  end.

(** [int]: a single [0], or digits that do not start with [0]. *)
Definition int_part_ok (u : Decimal.uint) : bool :=
  match u with
  | Decimal.Nil => false
  | Decimal.D0 Decimal.Nil => true
  | Decimal.D0 _ => false
  | _ => true
  end.

Definition read_frac (s : string) : option (Decimal.uint * string) :=
  match s with
  | String c r =>
      if Ascii.eqb c "." then
        let (u, r') := read_digits r in
        match u with Decimal.Nil => None | _ => Some (u, r') end
      else Some (Decimal.Nil, s)
  | EmptyString => Some (Decimal.Nil, s)
  end.

Definition read_exp (s : string) : option (Z * string) :=
  match s with
  | String c r =>
      if Ascii.eqb c "e" || Ascii.eqb c "E" then
        let '(neg, r1) :=
          match r with
          | String sg r0 =>
              if Ascii.eqb sg "-" then (true, r0)
              else if Ascii.eqb sg "+" then (false, r0)
              else (false, r)
          | EmptyString => (false, r)
          end in
        let (u, r2) := read_digits r1 in
        match u with
        | Decimal.Nil => None
        | _ =>
            let n := Z.of_N (N.of_uint u) in
            Some (if neg then - n else n, r2)
        end
      else Some (0, s)
  | EmptyString => Some (0, s)
  end.

(** [int frac? exp?], read as [m * 10^e], negated after a minus sign. *)
Definition read_unsigned (neg : bool) (s : string) : option (json * string) :=
  let (ip, s2) := read_digits s in
  if int_part_ok ip then
    match read_frac s2 with
    | Some (fp, s3) =>
        match read_exp s3 with
        | Some (ex, s4) =>
            let k := Z.of_nat (Decimal.nb_digits fp) in
            let n := Z.of_N (N.of_uint ip) * 10 ^ k + Z.of_N (N.of_uint fp) in
            Some (JNum (if neg then - n else n) (ex - k), s4)
        | None => None
        end
    | None => None
    end
  else None.

(** [number]: [-? int frac? exp?]. *)
Definition read_number (s : string) : option (json * string) :=
  match s with
  | String c r => if Ascii.eqb c "-" then read_unsigned true r
                  else read_unsigned false s
  | EmptyString => None
  end.

Definition hex_value (c : ascii) : option N :=
  let n := N_of_ascii c in
  if (48 <=? n)%N && (n <=? 57)%N then Some (n - 48)%N
  else if (97 <=? n)%N && (n <=? 102)%N then Some (n - 87)%N
  else if (65 <=? n)%N && (n <=? 70)%N then Some (n - 55)%N
  else None.

Definition simple_escape (c : ascii) : option ascii :=
  if Ascii.eqb c QUOTE then Some QUOTE
  else if Ascii.eqb c BACKSLASH then Some BACKSLASH
  else if Ascii.eqb c "/" then Some "/"%char
  else if Ascii.eqb c "b" then Some BS
  else if Ascii.eqb c "f" then Some FF
  else if Ascii.eqb c "n" then Some LF
  else if Ascii.eqb c "r" then Some CR
  else if Ascii.eqb c "t" then Some TAB
  else None.

Definition cons_char (c : ascii) (r : option (string * string))
  : option (string * string) :=
  match r with
  | Some (s, rest) => Some (String c s, rest)
  | None => None
  end.

(** The characters of a string literal after its opening quote, up to
    and including the closing quote.  An escape [\uXXXX] above [00FF]
    names a code unit outside the 8-bit alphabet of this model and is
    not read. *)
Fixpoint read_string (s : string) : option (string * string) :=
  match s with
  | EmptyString => None
  | String c r =>
      if Ascii.eqb c QUOTE then Some ("", r)
      else if Ascii.eqb c BACKSLASH then
        match r with
        | String e r1 =>
            match simple_escape e with
            | Some ch => cons_char ch (read_string r1)
            | None =>
                if Ascii.eqb e "u" then
                  match r1 with
                  | String h1 (String h2 (String h3 (String h4 r2))) =>
                      match hex_value h1, hex_value h2,
                            hex_value h3, hex_value h4 with
                      | Some a, Some b, Some x, Some y =>
                          if ((a =? 0) && (b =? 0))%N
                          then cons_char (ascii_of_N (16 * x + y))
                                         (read_string r2)
                          else None
                      | _, _, _, _ => None
                      end
                  | _ => None
                  end
                else None
            end
        | EmptyString => None
        end
      else if (N_of_ascii c <? 32)%N then None
      else cons_char c (read_string r)
  end.

(** Recursive descent; [fuel] bounds the nesting of calls, and a text of
    length [n] never needs more than [n + 1]. *)
Fixpoint parse_value (fuel : nat) (s : string) {struct fuel}
  : option (json * string) :=
  match fuel with
  | O => None
  | S fuel' =>
      match skip_ws s with
      | EmptyString => None
      | String c r =>
          if Ascii.eqb c "[" then
            match skip_ws r with
            | String c' r' =>
                if Ascii.eqb c' "]" then Some (JArr [], r')
                else
                  match parse_value fuel' r with
                  | Some (v, r1) =>
                      match parse_elements fuel' r1 with
                      | Some (vs, r2) => Some (JArr (v :: vs), r2)
                      | None => None
                      end
                  | None => None
                  end
            | EmptyString => None
            end
          else if Ascii.eqb c "{" then
            match skip_ws r with
            | String c' r' =>
                if Ascii.eqb c' "}" then Some (JObj [], r')
                else
                  match parse_member fuel' r with
                  | Some (kv, r1) =>
                      match parse_members fuel' r1 with
                      | Some (ms, r2) =>
                          Some (JObj (obj_of_members (kv :: ms)), r2)
                      | None => None
                      end
                  | None => None
                  end
            | EmptyString => None
            end
          else if Ascii.eqb c QUOTE then
            match read_string r with
            | Some (str, r1) => Some (JStr str, r1)
            | None => None
            end
          else if Ascii.eqb c "t" then
            option_map (pair (JBool true)) (strip_prefix "rue" r)
          else if Ascii.eqb c "f" then
            option_map (pair (JBool false)) (strip_prefix "alse" r)
          else if Ascii.eqb c "n" then
            option_map (pair JNull) (strip_prefix "ull" r)
          else read_number (String c r)
      end
  end

(** After an array element: [,] and another element, or [\]]. *)
with parse_elements (fuel : nat) (s : string) {struct fuel}
  : option (list json * string) :=
  match fuel with
  | O => None
  | S fuel' =>
      match skip_ws s with
      | EmptyString => None
      | String c r =>
          if Ascii.eqb c "]" then Some ([], r)
          else if Ascii.eqb c "," then
            match parse_value fuel' r with
            | Some (v, r1) =>
                match parse_elements fuel' r1 with
                | Some (vs, r2) => Some (v :: vs, r2)
                | None => None
                end
            | None => None
            end
          else None
      end
  end

(** One [string : value] member. *)
with parse_member (fuel : nat) (s : string) {struct fuel}
  : option ((string * json) * string) :=
  match fuel with
  | O => None
  | S fuel' =>
      match skip_ws s with
      | EmptyString => None
      | String c r =>
          if Ascii.eqb c QUOTE then
            match read_string r with
            | Some (k, r1) =>
                match skip_ws r1 with
                | String c' r2 =>
                    if Ascii.eqb c' ":" then
                      match parse_value fuel' r2 with
                      | Some (v, r3) => Some ((k, v), r3)
                      | None => None
                      end
                    else None
                | EmptyString => None
                end
            | None => None
            end
          else None
      end
  end

(** After an object member: [,] and another member, or [}]. *)
with parse_members (fuel : nat) (s : string) {struct fuel}
  : option (list (string * json) * string) :=
  match fuel with
  | O => None
  | S fuel' =>
      match skip_ws s with
      | EmptyString => None
      | String c r =>
          if Ascii.eqb c "}" then Some ([], r)
          else if Ascii.eqb c "," then
            match parse_member fuel' r with
            | Some (kv, r1) =>
                match parse_members fuel' r1 with
                | Some (ms, r2) => Some (kv :: ms, r2)
                | None => None
                end
            | None => None
            end
          else None
      end
  end.

(** A text that does not continue a number: it is empty, or starts with
    something other than a digit, a point or an exponent mark. *)
Definition number_stop (s : string) : bool :=
  match s with
  | EmptyString => true
  | String c _ =>
      match digit c with
      | Some _ => false
      | None => negb (Ascii.eqb c "." || Ascii.eqb c "e" || Ascii.eqb c "E")
      end
  end.

(** The nesting of calls the parser makes on the text of a value. *)
Fixpoint size (v : json) : nat :=
  match v with
  | JArr vs => list_sum (map (fun x => S (size x)) vs)
  | JObj kvs => list_sum (map (fun kv => S (S (size (snd kv)))) kvs)
  | _ => O
  end.

(** The text of [v], at any indentation and followed by anything that does
    not continue a number, is read back as [v], given fuel for its
    nesting. *)
Definition reads_back (v : json) : Prop :=
  forall (indent d fuel : nat) (rest : string),
    (size v < fuel)%nat ->
    number_stop rest = true ->
    parse_value fuel (stringify_at indent d v ++ rest) = Some (v, rest).

(** [JSON.parse(text)]: one value, then nothing but white space; [None]
    is the [SyntaxError]. *)
Definition JSON_parse (text : string) : option json :=
  match parse_value (S (String.length text)) text with
  | Some (v, rest) =>
      match skip_ws rest with
      | EmptyString => Some v
      | String _ _ => None
      end
  | None => None
  end.

(** *** Well-formed values

    The values [JSON.stringify] is exact on in this model: integers in
    the safe range, objects without duplicate or index-like property
    names (an engine enumerates index-like names first, whatever their
    insertion order). *)

Definition safe_integer (m : Z) : bool :=
  (- 9007199254740991 <=? m) && (m <=? 9007199254740991).

Fixpoint all_digits (s : string) : bool :=
  match s with
  | EmptyString => true
  | String c r =>
      match digit c with Some _ => all_digits r | None => false end
  end.

Definition index_like (k : string) : bool :=
  match k with EmptyString => false | _ => all_digits k end.

Fixpoint distinct (ks : list string) : bool :=
  match ks with
  | [] => true
  | k :: r => negb (existsb (String.eqb k) r) && distinct r
  end.

Fixpoint json_wf (v : json) : bool :=
  match v with
  | JNull | JBool _ | JStr _ => true
  | JNum m e => (e =? 0) && safe_integer m
  | JArr vs => forallb json_wf vs
  | JObj kvs =>
      distinct (map fst kvs)
      && forallb (fun k => negb (index_like k)) (map fst kvs)
      && forallb (fun kv => json_wf (snd kv)) kvs
  end.

End Json.

(** ** The model-output normalizer ([reviewWithAI]) *)

Module Anthropic.
Import Json.

(** A rejected promise or a thrown [Error], with its message. *)
Inductive result (A : Type) :=
| Ok (a : A)
| Err (msg : string).
Arguments Ok {A} a.
Arguments Err {A} msg.

(** A block of [response.content]. *)
Inductive ContentBlock :=
| TextBlock (text : string)
| OtherBlock (type : string).

(** [response.content.find((b) => b.type === 'text')] *)
Fixpoint find_text (bs : list ContentBlock) : option string :=
  match bs with
  | [] => None
  | TextBlock t :: _ => Some t
  | OtherBlock _ :: r => find_text r
  end.

(** White space of [String.prototype.trim] within the 8-bit alphabet:
    TAB, LF, VT, FF, CR, space and the no-break space. *)
Definition is_js_space (c : ascii) : bool :=
  let n := N_of_ascii c in
  ((9 <=? n) && (n <=? 13) || (n =? 32) || (n =? 160))%N.

Fixpoint trimStart (s : string) : string :=
  match s with
  | String c r => if is_js_space c then trimStart r else s
  | EmptyString => ""
  end.

Fixpoint trimEnd (s : string) : string :=
  match s with
  | EmptyString => ""
  | String c r =>
      match trimEnd r with
      | EmptyString => if is_js_space c then "" else String c ""
      | r' => String c r'
      end
  end.

Definition trim (s : string) : string := trimEnd (trimStart s).

Definition FENCE : string := "```".

(** [s.startsWith('```')] *)
Definition startsWith (p s : string) : bool := String.prefix p s.

(** [s.replace(/^```(?:json)?\n?/, '')]: the pattern is anchored at the
    start, so it matches there or nowhere. *)
Definition replace_opening_fence (s : string) : string :=
  match strip_prefix FENCE s with
  | None => s
  | Some r =>
      let r1 := match strip_prefix "json" r with Some x => x | None => r end in
      match r1 with
      | String c x => if Ascii.eqb c LF then x else r1
      | EmptyString => r1
      end
  end.

(** [/\n?```$/] matches at the head of [s] exactly when [s] is the fence,
    or a line feed and the fence, and nothing more. *)
Definition closing_fence_here (s : string) : bool :=
  String.eqb s (String LF FENCE) || String.eqb s FENCE.

(** [s.replace(/\n?```$/, '')]: the leftmost position where the pattern
    matches is cut off, the text before it is kept. *)
Fixpoint replace_closing_fence (s : string) : string :=
  if closing_fence_here s then ""
  else
    match s with
    | String c r => String c (replace_closing_fence r)
    | EmptyString => ""
    end.

(** [if (jsonStr.startsWith('```')) { jsonStr = jsonStr.replace(..).replace(..) }] *)
Definition strip_fence (rawText : string) : string :=
  if startsWith FENCE rawText
  then replace_closing_fence (replace_opening_fence rawText)
  else rawText.

(** Own enumerable properties copied by the spread [{ ...f }]: those of an
    object, the indexed elements of an array or of a string, and none for
    a number, a boolean or [null]. *)
Fixpoint indexed (i : N) (vs : list json) : list (string * json) :=
  match vs with
  | [] => []
  | v :: r => (N_to_string i, v) :: indexed (i + 1) r
  end.

Fixpoint chars (s : string) : list json :=
  match s with
  | EmptyString => []
  | String c r => JStr (String c "") :: chars r
  end.

Definition spread (f : json) : list (string * json) :=
  match f with
  | JObj kvs => kvs
  | JArr vs => indexed 0 vs
  | JStr s => indexed 0 (chars s)
  | _ => []
  end.

(** [(f) => ({ ...f, approved: null })] *)
Definition with_approved_null (f : json) : json :=
  JObj (obj_set "approved" JNull (spread f)).

Definition parse_error (rawText : string) : string :=
  "Failed to parse AI response as JSON:" ++ String LF (substring 0 500 rawText).

(** The body of [reviewWithAI] from the text block on: trim, strip the
    fence, parse, require an array, force [approved: null]. *)
Definition normalize (text : string) : result (list json) :=
  let rawText := trim text in
  let jsonStr := strip_fence rawText in
  match JSON_parse jsonStr with
  | None => Err (parse_error rawText)
  | Some (JArr findings) => Ok (map with_approved_null findings)
  | Some _ => Err "AI response is not an array of findings"
  end.

(** [reviewWithAI], given what [client.messages.create] resolved to. *)
Definition reviewWithAI (response : result (list ContentBlock))
  : result (list json) :=
  match response with
  | Err msg => Err msg
  | Ok content =>
      match find_text content with
      | None => Err "No text response from Anthropic API"
      | Some text => normalize text
      end
  end.

(** *** Findings as JSON objects *)

Definition json_of_approved (a : option bool) : json :=
  match a with Some b => JBool b | None => JNull end.

(** A [ReviewFinding] as the object it is at run time, properties in the
    order of the interface; [posted] only when present. *)
Definition finding_to_json (f : ReviewFinding) : json :=
  JObj ([ ("id", JNum (id f) 0);
          ("severity", JStr (severity_name (severity f)));
          ("confidence", JNum (confidence f) 0);
          ("title", JStr (title f));
          ("file", JStr (file f));
          ("line", JNum (line f) 0);
          ("why", JStr (why f));
          ("body", JStr (body f));
          ("approved", json_of_approved (approved f)) ]
        ++ match posted f with
           | Some b => [("posted", JBool b)]
           | None => []
           end).

(** The numbers of a finding, and of a review file, are safe integers. *)
Definition finding_safe (f : ReviewFinding) : bool :=
  safe_integer (id f) && safe_integer (confidence f) && safe_integer (line f).

Definition reviewFile_safe (r : ReviewFile) : bool :=
  safe_integer (pr r) && forallb finding_safe (findings r).

Definition reviewFile_to_json (r : ReviewFile) : json :=
  JObj [ ("pr", JNum (pr r) 0);
         ("repo", JStr (repo r));
         ("baseBranch", JStr (baseBranch r));
         ("headSha", JStr (headSha r));
         ("reviewedAt", JStr (reviewedAt r));
         ("summary", JStr (summary r));
         ("findings", JArr (map finding_to_json (findings r))) ].

Definition is_integer (v : option json) : bool :=
  match v with Some (JNum m 0) => safe_integer m | _ => false end.

Definition is_string (v : option json) : bool :=
  match v with Some (JStr _) => true | _ => false end.

Definition is_severity (v : option json) : bool :=
  match v with
  | Some (JStr s) =>
      String.eqb s "critical" || String.eqb s "warning"
      || String.eqb s "suggestion"
  | _ => false
  end.

(** A valid Finding-shaped object: a well-formed object carrying the
    eight required fields with values of their declared types; [approved]
    may be absent or hold any value. *)
Definition finding_shaped (v : json) : bool :=
  match v with
  | JObj kvs =>
      json_wf v
      && is_integer (obj_get "id" kvs)
      && is_severity (obj_get "severity" kvs)
      && is_integer (obj_get "confidence" kvs)
      && is_string (obj_get "title" kvs)
      && is_string (obj_get "file" kvs)
      && is_integer (obj_get "line" kvs)
      && is_string (obj_get "why" kvs)
      && is_string (obj_get "body" kvs)
  | _ => false
  end.


Definition field (k : string) (v : json) : option json :=
  match v with JObj kvs => obj_get k kvs | _ => None end.


(** Code-fence wrappings of a payload: none, a bare fence, a [json] fence. *)
Inductive Fence := NoFence | BareFence | JsonFence.

Definition wrap (w : Fence) (payload : string) : string :=
  match w with
  | NoFence => payload
  | BareFence => FENCE ++ String LF payload ++ String LF FENCE
  | JsonFence => FENCE ++ "json" ++ String LF payload ++ String LF FENCE
  end.

End Anthropic.

(** ** Effects: the world the command acts on

    External interactions are recorded in the order they happen; the disk
    is a map from paths to file contents. *)

Module Effects.

Inductive Event :=
| EvQuery (what : string)
    (** a read-only host or git query: PR resolution, diff, file summary *)
| EvAnalyze (diff guidelines changedFiles : string)
    (** the call of [reviewWithAI], that is, of the generation capability *)
| EvSelect (message : string)
    (** the approve / skip / edit prompt for a finding *)
| EvInput (message default : string)
    (** the replacement-body prompt for a finding *)
| EvConfirm (message : string)
    (** the final confirmation prompt *)
| EvWriteFile (path content : string)
    (** [writeFileSync(path, content)] that returned *)
| EvExec (command : string) (input : option string)
    (** a host-mutating [execSync] of [postReview], attempted *)
| EvConsole (text : string).
    (** a line printed on the console (colours left out) *)

(** How the command ends: the action returns (exit code 0), the process
    exits with status 1 after printing a cause, or an exception escapes
    the action. *)
Inductive Terminal :=
| NothingToReview | NoIssues | Reported | NothingApproved | Cancelled | Posted.

Inductive Outcome :=
| Done (t : Terminal)
| Fatal (cause : string)
| Uncaught (what : string).

Definition exit_code (o : Outcome) : Z :=
  match o with Done _ => 0 | Fatal _ | Uncaught _ => 1 end.

Record World := mkWorld {
  trace : list Event;
  disk : gmap string string
}.

Definition initial (d : gmap string string) : World := mkWorld [] d.

(** Computations that read and extend the world and may end the run. *)
Definition M (A : Type) : Type := World -> (A + Outcome) * World.

Definition ret {A} (a : A) : M A := fun w => (inl a, w).

Definition bind {A B} (m : M A) (k : A -> M B) : M B :=
  fun w =>
    match m w with
    | (inl a, w') => k a w'
    | (inr o, w') => (inr o, w')
    end.

Definition stop {A} (o : Outcome) : M A := fun w => (inr o, w).

Definition emit (e : Event) : M unit :=
  fun w => (inl tt, mkWorld (trace w ++ [e]) (disk w)).

Definition write (path content : string) : M unit :=
  fun w =>
    (inl tt,
     mkWorld (trace w ++ [EvWriteFile path content])
             (<[path := content]> (disk w))).

Definition log (text : string) : M unit := emit (EvConsole text).

(** [console.error(cause); process.exit(1)] *)
Definition die {A} (cause : string) : M A :=
  bind (log cause) (fun _ => stop (Fatal cause)).

Definition read_disk : M (gmap string string) := fun w => (inl (disk w), w).

(** A query whose failure is an exception nobody catches. *)
Definition query {A} (what : string) (r : option A) : M A :=
  bind (emit (EvQuery what))
       (fun _ => match r with
                 | Some a => ret a
                 | None => stop (Uncaught what)
                 end).

Definition is_host_mutation (e : Event) : bool :=
  match e with EvExec _ _ => true | _ => false end.

Definition is_record_write (path : string) (e : Event) : bool :=
  match e with EvWriteFile p _ => String.eqb p path | _ => false end.

Definition is_analysis (e : Event) : bool :=
  match e with EvAnalyze _ _ _ => true | _ => false end.

Definition is_confirmation (e : Event) : bool :=
  match e with EvConfirm _ => true | _ => false end.

(** An event that changes neither the disk nor the host. *)
Definition is_quiet (e : Event) : bool :=
  match e with EvWriteFile _ _ | EvExec _ _ => false | _ => true end.

(** The events a computation adds when started on an empty trace. *)
Definition events_of {A} (m : M A) (d : gmap string string) : list Event :=
  trace (snd (m (initial d))).

Definition result_of {A} (m : M A) (d : gmap string string) : A + Outcome :=
  fst (m (initial d)).

Definition disk_of {A} (m : M A) (d : gmap string string) : gmap string string :=
  disk (snd (m (initial d))).

(** A computation that never looks at the trace it is given and only adds
    to it. *)
Definition append_only {A} (m : M A) : Prop :=
  forall w,
    m w = (fst (m (initial (disk w))),
           mkWorld (trace w ++ trace (snd (m (initial (disk w)))))
                   (disk (snd (m (initial (disk w)))))).

(** A trace of events that change neither the disk nor the host. *)
Definition quiet (t : list Event) : Prop := Forall (fun e => is_quiet e = true) t.

(** A trace without a call of the generation capability. *)
Definition silent (t : list Event) : Prop :=
  Forall (fun e => is_analysis e = false) t.


End Effects.

Create HintDb effects.

Declare Scope effect_scope.
Delimit Scope effect_scope with effect.
Notation "x <- m ;; k" := (Effects.bind m (fun x => k))
  (at level 100, m at next level, right associativity) : effect_scope.
Notation "m ;;; k" := (Effects.bind m (fun _ => k))
  (at level 100, right associativity) : effect_scope.

(** ** The delivery engine ([formatCommentBody], [formatSummaryBody], [postReview]) *)

Module Github.
Import Json Effects.
Local Open Scope effect_scope.

(** [SEVERITY_LABELS[finding.severity] || finding.severity] *)
Definition SEVERITY_LABELS : gmap string string :=
  {[ "critical" := "🔴 **[Critical]**";
     "warning" := "🟡 **[Warning]**";
     "suggestion" := "🔵 **[Suggestion]**" ]}.

Definition label (s : Severity) : string :=
  default (severity_name s) (SEVERITY_LABELS !! severity_name s).

(** [s.charAt(0).toUpperCase() + s.slice(1)], on ASCII letters. *)
Definition toUpperCase (c : ascii) : ascii :=
  let n := N_of_ascii c in
  if ((97 <=? n) && (n <=? 122))%N then ascii_of_N (n - 32) else c.

Definition capitalize (s : string) : string :=
  match s with
  | EmptyString => ""
  | String c r => String (toUpperCase c) r
  end.

Definition BACKTICK : string := "`".

(** [formatCommentBody] *)
Definition formatCommentBody (finding : ReviewFinding) : string :=
  label (severity finding) ++ " " ++ title finding
  ++ " (Confidence: " ++ Z_to_string (confidence finding) ++ "/100)"
  ++ String LF (String LF (body finding)).

(** [lines.join('\n')] *)
Fixpoint join_lines (lines : list string) : string :=
  match lines with
  | [] => ""
  | [l] => l
  | l :: r => l ++ String LF (join_lines r)
  end.

Definition summary_row (f : ReviewFinding) : string :=
  "| " ++ Z_to_string (id f) ++ " | " ++ capitalize (severity_name (severity f))
  ++ " | " ++ BACKTICK ++ file f ++ ":" ++ Z_to_string (line f) ++ BACKTICK
  ++ " | " ++ title f ++ " | " ++ Z_to_string (confidence f) ++ "/100 |".

(** [formatSummaryBody] *)
Definition formatSummaryBody (review : ReviewFile)
           (approved : list ReviewFinding) : string :=
  let lines := ["## Code Review Summary"; ""; summary review; ""] in
  match approved with
  | [] => join_lines (lines ++ ["No issues to report. Looks good!"])
  | _ =>
      join_lines
        (lines
         ++ ["| # | Severity | File | Issue | Confidence |";
             "|---|----------|------|-------|------------|"]
         ++ map summary_row approved
         ++ [""; "See inline comments for details."])
  end.

(** [s.split('/')] *)
Fixpoint split_slash (s : string) : list string :=
  match s with
  | EmptyString => [""]
  | String c r =>
      if Ascii.eqb c "/" then "" :: split_slash r
      else
        match split_slash r with
        | [] => [String c ""]
        | h :: t => String c h :: t
        end
  end.

(** [const [owner, repo] = review.repo.split('/')]; a missing element
    prints as [undefined] in a template. *)
Definition owner_of (review : ReviewFile) : string :=
  nth 0 (split_slash (repo review)) "undefined".

Definition repo_of (review : ReviewFile) : string :=
  nth 1 (split_slash (repo review)) "undefined".

Definition inline_comment (f : ReviewFinding) : json :=
  JObj [ ("path", JStr (file f));
         ("line", JNum (line f) 0);
         ("side", JStr "RIGHT");
         ("body", JStr (formatCommentBody f)) ].

Definition payload (review : ReviewFile) (approved : list ReviewFinding) : json :=
  JObj [ ("event", JStr "COMMENT");
         ("body", JStr (formatSummaryBody review approved));
         ("comments", JArr (map inline_comment approved)) ].

(** The structured submission, primary strategy. *)
Definition review_call (review : ReviewFile) (approved : list ReviewFinding)
  : Event :=
  EvExec ("gh api repos/" ++ owner_of review ++ "/" ++ repo_of review
          ++ "/pulls/" ++ Z_to_string (pr review)
          ++ "/reviews --method POST --input -")
         (Some (JSON_stringify (payload review approved))).

(** A flat top-level comment. *)
Definition comment_call (review : ReviewFile) (text : string) : Event :=
  EvExec ("gh pr comment " ++ Z_to_string (pr review) ++ " --repo "
          ++ owner_of review ++ "/" ++ repo_of review
          ++ " --body " ++ JSON_stringify (JStr text))
         None.

Definition flat_body (f : ReviewFinding) : string :=
  formatCommentBody f
  ++ String LF (String LF ("> File: " ++ BACKTICK ++ file f ++ ":"
                           ++ Z_to_string (line f) ++ BACKTICK)).

(** [msg.includes(needle)] *)
Fixpoint includes (needle s : string) : bool :=
  String.prefix needle s
  || match s with
     | EmptyString => false
     | String _ r => includes needle r
     end.

(** The anchor-validation signature of a failed submission. *)
Definition anchor_failure (msg : string) : bool :=
  includes "pull_request_review_thread" msg || includes "Validation Failed" msg.

(** What the host answers to the successive calls of one delivery: [None]
    when the call succeeds, the error message when [execSync] throws.
    Call 0 is the structured submission, call 1 the summary comment, call
    [2 + i] the comment of the [i]-th approved finding. *)
Definition Host := nat -> option string.

(** [try { execSync(...) } catch { ... }] around one flat comment: the
    failure is reported on the console and goes no further. *)
Definition try_comment (answer : option string) (review : ReviewFile)
           (text posted failed : string) : M unit :=
  emit (comment_call review text) ;;;
  match answer with
  | None => log posted
  | Some _ => log failed
  end.

(** [for (const f of approvedFindings) { try { ... } catch { ... } }],
    the [i]-th host call being the next one. *)
Fixpoint comment_each (host : Host) (i : nat) (review : ReviewFile)
         (fs : list ReviewFinding) : M unit :=
  match fs with
  | [] => ret tt
  | f :: r =>
      try_comment (host i) review (flat_body f)
        ("  Posted comment #" ++ Z_to_string (id f) ++ ": " ++ title f)
        ("  Failed to post comment #" ++ Z_to_string (id f)) ;;;
      comment_each host (S i) review r
  end.

(** [postReview] *)
Definition postReview (host : Host) (review : ReviewFile)
           (approvedFindings : list ReviewFinding) : M unit :=
  emit (review_call review approvedFindings) ;;;
  match host 0%nat with
  | None =>
      log ("Posted review with "
           ++ Z_to_string (Z.of_nat (length approvedFindings))
           ++ " inline comment(s) on PR #" ++ Z_to_string (pr review) ++ ".")
  | Some msg =>
      if anchor_failure msg then
        log "Inline comments failed (lines may not be in diff). Falling back to PR comments..." ;;;
        try_comment (host 1%nat) review
          (formatSummaryBody review approvedFindings)
          "Posted summary comment." "Failed to post summary comment." ;;;
        comment_each host 2 review approvedFindings
      else die ("Error posting review: " ++ msg)
  end.



Definition call_failed (host : Host) (i : nat) : bool :=
  match host i with Some _ => true | None => false end.


(** The host calls of the fallback, in order. *)
Definition fallback_calls (review : ReviewFile) (approved : list ReviewFinding)
  : list Event :=
  comment_call review (formatSummaryBody review approved)
  :: map (fun f => comment_call review (flat_body f)) approved.

End Github.

(** ** The review command ([registerReviewCommand]) *)

Module Review.
Import Json Anthropic Effects Github Sorting.
Local Open Scope effect_scope.

(** What [resolvePR] returns. *)
Record PullRequest := mkPR {
  number : Z;
  pr_baseBranch : string;
  pr_headSha : string;
  pr_repo : string
}.

(** The operator's answer to the per-finding prompt; [edit] carries the
    text typed at the replacement prompt. *)
Inductive Action := approve | skip | edit (typed : string).

(** Everything outside the command that one invocation depends on. *)
Record Env := mkEnv {
  anthropicApiKey : option string;       (** [config.anthropicApiKey] *)
  githubRepo : option string;            (** [config.githubRepo] *)
  guidelinesPath : option string;        (** [config.guidelinesPath] *)
  opt_post : bool;                       (** [opts.post] *)
  cwd : string;                          (** [process.cwd()] *)
  now : string;                          (** [new Date().toISOString()] *)
  files : gmap string string;            (** the disk at start *)
  writable : bool;                       (** [mkdirSync] / [writeFileSync] succeed *)
  resolvePR : PullRequest + Outcome;     (** the result of [resolvePR(prArg)] *)
  getPRDiff : option string;             (** [None]: [execSync] throws *)
  getChangedFiles : option string;
  analysis : string -> string -> string -> result (list ReviewFinding);
                                         (** what [reviewWithAI] resolves to *)
  answers : nat -> Action;               (** the answer at the [i]-th finding *)
  shouldPost : bool;                     (** the answer to the confirmation *)
  detectRepoFromGit : option string;
  host : Host
}.

(** JavaScript truthiness of an optional string, and [a || b]. *)
Definition truthy (o : option string) : option string :=
  match o with
  | Some EmptyString | None => None
  | Some s => Some s
  end.

Definition or_else (a b : option string) : option string :=
  match truthy a with Some s => Some s | None => b end.

(** [resolve(process.cwd(), p)], for paths without [.] or [..] segments. *)
Definition resolve (cwd p : string) : string :=
  if String.prefix "/" p then p else cwd ++ "/" ++ p.

Fixpoint first_existing (d : gmap string string) (cwd : string)
         (paths : list string) : option string :=
  match paths with
  | [] => None
  | p :: r =>
      match d !! resolve cwd p with
      | Some content => Some content
      | None => first_existing d cwd r
      end
  end.

(** [[config.guidelinesPath, 'CLAUDE.md', '.claude/CLAUDE.md',
      'CODING_GUIDELINES.md'].filter(Boolean)] *)
Definition candidate_paths (env : Env) : list string :=
  (match truthy (guidelinesPath env) with Some p => [p] | None => [] end
   ++ ["CLAUDE.md"; ".claude/CLAUDE.md"; "CODING_GUIDELINES.md"])%list.

Definition NO_GUIDELINES : string :=
  "No project-specific guidelines provided. Use general TypeScript/React best practices.".

(** [loadGuidelines] *)
Definition loadGuidelines (env : Env) : M string :=
  d <- read_disk ;;
  match first_existing d (cwd env) (candidate_paths env) with
  | Some content => ret content
  | None =>
      log "No coding guidelines file found. Review will use general best practices." ;;;
      ret NO_GUIDELINES
  end.

Definition nat_to_string (n : nat) : string := Z_to_string (Z.of_nat n).

Definition tag (f : ReviewFinding) : string :=
  "[" ++ capitalize (severity_name (severity f)) ++ "]".

Fixpoint print_each (fs : list ReviewFinding) : M unit :=
  match fs with
  | [] => ret tt
  | f :: r =>
      let status :=
        match approved f with
        | Some true => " ✓"
        | Some false => " ✗"
        | None => ""
        end in
      log ("  #" ++ Z_to_string (id f) ++ " " ++ tag f ++ " " ++ title f
           ++ " (" ++ Z_to_string (confidence f) ++ "/100)" ++ status) ;;;
      log ("     " ++ file f ++ ":" ++ Z_to_string (line f)) ;;;
      log ("     Why: " ++ why f) ;;;
      log "" ;;;
      print_each r
  end.

(** [printFindings]: renders a sorted copy, the argument is not changed. *)
Definition printFindings (fs : list ReviewFinding) : M unit :=
  log "" ;;; print_each (sortFindings fs).

(** [input({ message, default })]: the default stands for an empty answer. *)
Definition input_answer (typed default : string) : string :=
  match typed with EmptyString => default | _ => typed end.

(** [interactiveApproval]: one prompt per finding, in order; the decision
    is written into the finding. *)
Fixpoint interactiveApproval (answer : nat -> Action) (i : nat)
         (fs : list ReviewFinding) : M (list ReviewFinding) :=
  match fs with
  | [] => ret []
  | f :: r =>
      emit (EvSelect (tag f ++ " #" ++ Z_to_string (id f) ++ ": " ++ title f
                      ++ "  (" ++ file f ++ ":" ++ Z_to_string (line f) ++ ")")) ;;;
      f' <- match answer i with
            | approve => ret (set_approved (Some true) f)
            | skip => ret (set_approved (Some false) f)
            | edit typed =>
                emit (EvInput "Enter updated comment (press Enter to keep current):"
                              (body f)) ;;;
                ret (set_approved (Some true)
                       (set_body (input_answer typed (body f)) f))
            end ;;
      r' <- interactiveApproval answer (S i) r ;;
      ret (f' :: r')
  end.

(** What one answer does to a finding, and what a whole session does to
    the findings, the [i]-th answer going to the [i]-th finding. *)
Definition decision (a : Action) (f : ReviewFinding) : ReviewFinding :=
  match a with
  | approve => set_approved (Some true) f
  | skip => set_approved (Some false) f
  | edit typed =>
      set_approved (Some true) (set_body (input_answer typed (body f)) f)
  end.

Fixpoint decisions (answer : nat -> Action) (i : nat)
         (fs : list ReviewFinding) : list ReviewFinding :=
  match fs with
  | [] => []
  | f :: r => decision (answer i) f :: decisions answer (S i) r
  end.

Definition is_approved (f : ReviewFinding) : bool :=
  match approved f with Some true => true | _ => false end.

Definition count_severity (s : Severity) (fs : list ReviewFinding) : nat :=
  length (List.filter (has_severity s) fs).

(** [`Found ${n} issues (${criticals} critical, ${warnings} warning, ${suggestions} suggestion)`] *)
Definition found_line (n criticals warnings suggestions : nat) : string :=
  "Found " ++ nat_to_string n ++ " issues ("
  ++ nat_to_string criticals ++ " critical, "
  ++ nat_to_string warnings ++ " warning, "
  ++ nat_to_string suggestions ++ " suggestion)".

Definition maxDiffChars : Z := 100000.

Definition truncate (diff : string) : string :=
  if maxDiffChars <? Z.of_nat (String.length diff)
  then substring 0 (Z.to_nat maxDiffChars) diff
       ++ String LF (String LF "... (diff truncated due to size)")
  else diff.

(** [diff.split('\n').length] *)
Fixpoint line_count (s : string) : nat :=
  match s with
  | EmptyString => 1
  | String c r => if Ascii.eqb c LF then S (line_count r) else line_count r
  end.

Definition reviewsDir (env : Env) : string := cwd env ++ "/.coder/reviews".

Definition reviewPath (env : Env) (p : PullRequest) : string :=
  reviewsDir env ++ "/pr-" ++ Z_to_string (number p) ++ "-review.json".

Definition record_content (r : ReviewFile) : string :=
  JSON_stringify_indent 2 (reviewFile_to_json r) ++ String LF "".

(** [mkdirSync(reviewsDir, { recursive: true }); writeFileSync(path, content)] *)
Definition saveReview (env : Env) (path content : string) : M unit :=
  if writable env then write path content
  else stop (Uncaught "writeFileSync").

(** [pr.repo || config.githubRepo || detectRepoFromGit() || ''] *)
Definition determined_repo (env : Env) (p : PullRequest) : option string :=
  or_else (Some (pr_repo p))
          (or_else (githubRepo env) (truthy (detectRepoFromGit env))).

(** The action of the [review] command. *)
Definition review (env : Env) : M Terminal :=
  match truthy (anthropicApiKey env) with
  | None =>
      log "ANTHROPIC_API_KEY is not set." ;;;
      log "Add it to your .env file or set it in your shell." ;;;
      stop (Fatal "ANTHROPIC_API_KEY is not set.")
  | Some apiKey =>
  log "Phase 0: Resolving PR..." ;;;
  emit (EvQuery "resolvePR") ;;;
  match resolvePR env with
  | inr o => stop o
  | inl p =>
  log ("Reviewing PR #" ++ Z_to_string (number p)) ;;;
  log "" ;;;
  log "Phase 1: Gathering context..." ;;;
  guidelines <- loadGuidelines env ;;
  diff <- query "getPRDiff" (getPRDiff env) ;;
  changedFiles <- query "getChangedFiles" (getChangedFiles env) ;;
  match trim diff with
  | EmptyString =>
      log "No changes found in PR diff." ;;; stop (Done NothingToReview)
  | _ =>
  log ("  Diff: " ++ nat_to_string (line_count diff) ++ " lines") ;;;
  log ("  Guidelines: " ++ nat_to_string (String.length guidelines) ++ " chars") ;;;
  log "" ;;;
  let truncatedDiff := truncate diff in
  log "Phase 2: Analyzing with AI..." ;;;
  emit (EvAnalyze truncatedDiff guidelines changedFiles) ;;;
  match analysis env truncatedDiff guidelines changedFiles with
  | Err msg => die ("AI review failed: " ++ msg)
  | Ok found =>
  match found with
  | [] => log (String LF "No issues found. Looks good!") ;;; stop (Done NoIssues)
  | _ =>
  let findings := sortFindings found in
  let criticals := count_severity critical findings in
  let warnings := count_severity warning findings in
  let suggestions := count_severity suggestion findings in
  log (String LF (found_line (length findings) criticals warnings suggestions
                  ++ ":")) ;;;
  printFindings findings ;;;
  if negb (opt_post env) then
    log "Add --post to review and post comments to GitHub." ;;;
    stop (Done Reported)
  else
  log ("Phase 3: Approve findings..." ++ String LF "") ;;;
  findings <- interactiveApproval (answers env) 0 findings ;;
  let approved := List.filter is_approved findings in
  match approved with
  | [] =>
      log (String LF "No findings approved. Nothing to post.") ;;;
      stop (Done NothingApproved)
  | _ =>
  log (String LF (nat_to_string (length approved) ++ " comment(s) approved:")) ;;;
  printFindings approved ;;;
  emit (EvConfirm ("Post " ++ nat_to_string (length approved)
                   ++ " comment(s) to PR #" ++ Z_to_string (number p) ++ "?")) ;;;
  if negb (shouldPost env) then log "Cancelled." ;;; stop (Done Cancelled)
  else
  match determined_repo env p with
  | None => die "Cannot determine GitHub repo. Set GITHUB_REPO in your .env."
  | Some repo =>
  let reviewFile :=
    mkReviewFile (number p) repo (pr_baseBranch p) (pr_headSha p) (now env)
                 (found_line (length findings) criticals warnings suggestions)
                 findings in
  saveReview env (reviewPath env p) (record_content reviewFile) ;;;
  log (String LF ("Review saved to " ++ reviewPath env p)) ;;;
  log (String LF "Posting to GitHub...") ;;;
  postReview (host env) reviewFile approved ;;;
  log (String LF "Done.") ;;;
  ret Posted
  end end end end end end end.

(** One invocation, from the disk of the environment. *)
Definition run (env : Env) : Outcome * World :=
  match review env (initial (files env)) with
  | (inl t, w) => (Done t, w)
  | (inr o, w) => (o, w)
  end.

Definition outcome (env : Env) : Outcome := fst (run env).
Definition events (env : Env) : list Event := trace (snd (run env)).
Definition final_disk (env : Env) : gmap string string := disk (snd (run env)).

(** *** Where an invocation gets to

    The conditions under which the command reaches its later phases, read
    off the environment. *)

(** The text [loadGuidelines] returns on a disk, and the warning it prints
    when no candidate exists. *)
Definition guidelines_on (d : gmap string string) (env : Env) : string :=
  match first_existing d (cwd env) (candidate_paths env) with
  | Some content => content
  | None => NO_GUIDELINES
  end.

Definition guidelines_warning (d : gmap string string) (env : Env) : list Event :=
  match first_existing d (cwd env) (candidate_paths env) with
  | Some _ => []
  | None =>
      [EvConsole "No coding guidelines file found. Review will use general best practices."]
  end.

Definition guidelines_text (env : Env) : string := guidelines_on (files env) env.

(** Context gathering returned this pull request, diff and file summary. *)
Definition gathered (env : Env) : option (PullRequest * string * string) :=
  match truthy (anthropicApiKey env), resolvePR env,
        getPRDiff env, getChangedFiles env with
  | Some _, inl p, Some diff, Some changedFiles => Some (p, diff, changedFiles)
  | _, _, _, _ => None
  end.

(** Analysis ran and returned at least one finding: the pull request and
    the findings as reported, that is, sorted. *)
Definition reported (env : Env) : option (PullRequest * list ReviewFinding) :=
  match gathered env with
  | Some (p, diff, changedFiles) =>
      match trim diff with
      | EmptyString => None
      | _ =>
          match analysis env (truncate diff) (guidelines_text env) changedFiles with
          | Ok (f :: fs) => Some (p, sortFindings (f :: fs))
          | Ok [] | Err _ => None
          end
      end
  | None => None
  end.

(** The Approval Session ran: the findings it leaves. *)
Definition session (env : Env) : option (PullRequest * list ReviewFinding) :=
  match reported env with
  | Some (p, sorted) =>
      if opt_post env then Some (p, decisions (answers env) 0 sorted) else None
  | None => None
  end.

(** The command proceeds to posting: at least one finding is approved, the
    operator confirmed, the repository is known.  The review file built
    then, and the findings handed to delivery. *)
Definition posting (env : Env)
  : option (PullRequest * ReviewFile * list ReviewFinding) :=
  match reported env with
  | Some (p, sorted) =>
      if opt_post env then
        let decided := decisions (answers env) 0 sorted in
        match List.filter is_approved decided with
        | [] => None
        | approved =>
            if shouldPost env then
              match determined_repo env p with
              | Some r =>
                  Some (p,
                        mkReviewFile (number p) r (pr_baseBranch p)
                          (pr_headSha p) (now env)
                          (found_line (length decided)
                             (count_severity critical sorted)
                             (count_severity warning sorted)
                             (count_severity suggestion sorted))
                          decided,
                        approved)
              | None => None
              end
            else None
        end
      else None
  | None => None
  end.

End Review.

(** ** Sample data: the scenarios of the design document *)

Module Samples.
Import Json Anthropic Effects Github Review.

(** [{id:1, severity:"critical", confidence:95, title:"X", file:"a.ts",
     line:3, why:"Y", body:"Z"}], as the normalizer hands it on. *)
Definition finding1 : ReviewFinding :=
  mkFinding 1 critical 95 "X" "a.ts" 3 "Y" "Z" None None.

Definition finding2 : ReviewFinding :=
  mkFinding 2 warning 85 "Unchecked result" "b.ts" 7 "May throw" "Check it" None None.

Definition finding3 : ReviewFinding :=
  mkFinding 3 critical 90 "Leak" "c.ts" 11 "Handle stays open" "Close it" None None.

Definition review42 : ReviewFile :=
  mkReviewFile 42 "octo/demo" "main" "abc123" "2026-01-01T00:00:00.000Z"
    "Found 1 issues (1 critical, 0 warning, 0 suggestion)"
    [set_approved (Some true) finding1].



(** A model answer that claims approval for its one finding. *)
Definition self_approved : json :=
  finding_to_json (set_approved (Some true) finding1).

(** A host on which every call fails with an anchor-validation error. *)
Definition host_all_fail : Host :=
  fun _ => Some "Command failed: gh api: Validation Failed (HTTP 422)".

(** A host that rejects the anchors and then the comment of the first
    finding only. *)
Definition host_first_comment_fails : Host :=
  fun i =>
    match i with
    | 0%nat => Some "Command failed: gh api: Validation Failed (HTTP 422)"
    | 2%nat => Some "Command failed: gh pr comment: HTTP 502"
    | _ => None
    end.

(** An invocation [review 42], with or without [--post], on a diff of one
    changed line, given what analysis resolves to. *)
Definition env_scenario (post : bool) (answer : result (list ReviewFinding))
           (h : Host) : Env :=
  mkEnv (Some "sk-test") None None post "/work" "2026-01-01T00:00:00.000Z"
        ∅ true (inl (mkPR 42 "main" "abc123" "octo/demo"))
        (Some "+const x = 1") (Some " a.ts | 1 +")
        (fun _ _ _ => answer)
        (fun _ => approve) true None h.

Definition host_ok : Host := fun _ => None.

Definition host_anchor_failure : Host :=
  fun i =>
    match i with
    | 0%nat => Some "Command failed: gh api: Validation Failed (HTTP 422)"
    | _ => None
    end.

(** An invocation [review 42 --post] in which the one finding is approved
    and the operator confirms. *)
Definition env_post (h : Host) : Env :=
  mkEnv (Some "sk-test") None None true "/work" "2026-01-01T00:00:00.000Z"
        ∅ true (inl (mkPR 42 "main" "abc123" "octo/demo"))
        (Some "+const x = 1") (Some " a.ts | 1 +")
        (fun _ _ _ => Ok [finding1])
        (fun _ => approve) true None h.

(** The same, with three findings: the first is skipped, the second
    edited, the third approved. *)
Definition env_mixed (h : Host) : Env :=
  mkEnv (Some "sk-test") None None true "/work" "2026-01-01T00:00:00.000Z"
        ∅ true (inl (mkPR 42 "main" "abc123" "octo/demo"))
        (Some "+const x = 1") (Some " a.ts | 1 +")
        (fun _ _ _ => Ok [finding2; finding1; finding3])
        (fun i => match i with
                  | 0%nat => skip
                  | 1%nat => edit "Close the handle in a finally block"
                  | _ => approve
                  end)
        true None h.

(** The operator skips every finding. *)
Definition env_skip_all : Env :=
  mkEnv (Some "sk-test") None None true "/work" "2026-01-01T00:00:00.000Z"
        ∅ true (inl (mkPR 42 "main" "abc123" "octo/demo"))
        (Some "+const x = 1") (Some " a.ts | 1 +")
        (fun _ _ _ => Ok [finding1; finding2])
        (fun _ => skip) true None host_all_fail.

(** The operator approves, then declines the confirmation. *)
Definition env_declined : Env :=
  mkEnv (Some "sk-test") None None true "/work" "2026-01-01T00:00:00.000Z"
        ∅ true (inl (mkPR 42 "main" "abc123" "octo/demo"))
        (Some "+const x = 1") (Some " a.ts | 1 +")
        (fun _ _ _ => Ok [finding1])
        (fun _ => approve) false None host_all_fail.

(** The pull request has no changes: the diff is white space only. *)
Definition env_empty_diff : Env :=
  mkEnv (Some "sk-test") None None true "/work" "2026-01-01T00:00:00.000Z"
        ∅ true (inl (mkPR 42 "main" "abc123" "octo/demo"))
        (Some (String LF " ")) (Some "")
        (fun _ _ _ => Ok [finding1])
        (fun _ => approve) true None host_all_fail.

End Samples.

(** ** What the operator sees of a run *)

Module Interaction.
Import Effects.

(** A prompt of the Approval Session, or the posting confirmation. *)
Definition is_prompt (e : Event) : bool :=
  match e with
  | EvSelect _ | EvInput _ _ | EvConfirm _ => true
  | _ => false
  end.



Definition is_console (e : Event) : bool :=
  match e with EvConsole _ => true | _ => false end.



(** A trace in which the operator is asked nothing. *)
Definition unprompted (t : list Event) : Prop :=
  Forall (fun e => is_prompt e = false) t.

(** Reporting order: no finding is followed by one of a lower rank. *)
Fixpoint in_order (fs : list ReviewFinding) : Prop :=
  match fs with
  | [] => True
  | f :: r => Forall (fun g => Sorting.rank f <= Sorting.rank g) r /\ in_order r
  end.

End Interaction.

(** ** Values and exceptions of the platform *)

Module Js.
Import Json.

(** What a call throws: an [Error] with its message, or the engine's
    [TypeError] with the engine's message. *)
Inductive Thrown :=
| Error (msg : string)
| TypeError (msg : string).

Inductive attempt (A : Type) :=
| Returned (a : A)
| Threw (e : Thrown).
Arguments Returned {A} a.
Arguments Threw {A} e.

(** [error instanceof Error ? error.message : String(error)] *)
Definition message (e : Thrown) : string :=
  match e with
  | Error msg => msg
  | TypeError msg => msg
  end.

(** Truthiness of what a property read gives; [None] is [undefined].  A
    number is zero when its mantissa is. *)
Definition truthy_value (v : option json) : bool :=
  match v with
  | None => false
  | Some JNull => false
  | Some (JBool b) => b
  | Some (JNum m _) => negb (m =? 0)
  | Some (JStr s) => negb (String.eqb s "")
  | Some (JArr _) | Some (JObj _) => true
  end.

End Js.

(** ** Ticket content from the model ([generateTicketWithAI],
       [editTicketWithAI]) *)

Module Tickets.
Import Json Anthropic Js.

(** [ticket.title] and [ticket.description] on a parsed value other than
    [null]: an own property of an object; on an array, a string, a number
    or a boolean these names are not defined. *)
Definition property (k : string) (ticket : json) : option json :=
  match ticket with
  | JObj kvs => obj_get k kvs
  | _ => None
  end.

(** The message of V8 for [ticket.title] on [null]. *)
Definition NULL_TITLE : string :=
  "Cannot read properties of null (reading 'title')".

Definition MISSING_FIELDS : string :=
  "AI response missing required fields (title, description)".

(** [if (!ticket.title || !ticket.description) throw ...; return ticket] *)
Definition checked (ticket : json) : attempt json :=
  match ticket with
  | JNull => Threw (TypeError NULL_TITLE)
  | _ =>
      if negb (truthy_value (property "title" ticket))
         || negb (truthy_value (property "description" ticket))
      then Threw (Error MISSING_FIELDS)
      else Returned ticket
  end.

(** The body shared by [generateTicketWithAI] and [editTicketWithAI] from
    the text block on: trim, strip the fence, parse, check the two
    fields. *)
Definition ticket_of_text (text : string) : attempt json :=
  let rawText := trim text in
  let jsonStr := strip_fence rawText in
  match JSON_parse jsonStr with
  | None => Threw (Error (parse_error rawText))
  | Some ticket => checked ticket
  end.

(** Either function, given what [client.messages.create] resolved to. *)
Definition ticketWithAI (response : result (list ContentBlock)) : attempt json :=
  match response with
  | Err msg => Threw (Error msg)
  | Ok content =>
      match find_text content with
      | None => Threw (Error "No text response from Anthropic API")
      | Some text => ticket_of_text text
      end
  end.

(** A ticket as the model is asked to give it, with whatever else it
    adds. *)
Definition ticket_object (title description : string)
           (others : list (string * json)) : json :=
  JObj (("title", JStr title) :: ("description", JStr description) :: others).

End Tickets.

(** ** Text operations of the platform *)

Module Text.

(** [s.endsWith(suffix)] *)
Fixpoint endsWith (suffix s : string) : bool :=
  String.eqb s suffix
  || match s with
     | EmptyString => false
     | String _ r => endsWith suffix r
     end.

(** [s.replace(pattern, replacement)] with a string pattern: the first
    occurrence only. *)
Fixpoint replace (pattern replacement s : string) : string :=
  match Json.strip_prefix pattern s with
  | Some rest => replacement ++ rest
  | None =>
      match s with
      | EmptyString => ""
      | String c r => String c (replace pattern replacement r)
      end
  end.

(** [s.split(sep)] for a one-character separator. *)
Fixpoint split (sep : ascii) (s : string) : list string :=
  match s with
  | EmptyString => [""]
  | String c r =>
      if Ascii.eqb c sep then "" :: split sep r
      else
        match split sep r with
        | [] => [String c ""]
        | h :: t => String c h :: t
        end
  end.

(** [parts.join(sep)] *)
Fixpoint join (sep : string) (parts : list string) : string :=
  match parts with
  | [] => ""
  | [p] => p
  | p :: r => p ++ sep ++ join sep r
  end.

(** [toLowerCase] and [toUpperCase], on ASCII letters. *)
Definition lower (c : ascii) : ascii :=
  let n := N_of_ascii c in
  if ((65 <=? n) && (n <=? 90))%N then ascii_of_N (n + 32) else c.

Fixpoint toLowerCase (s : string) : string :=
  match s with
  | EmptyString => ""
  | String c r => String (lower c) (toLowerCase r)
  end.

Fixpoint toUpperCase (s : string) : string :=
  match s with
  | EmptyString => ""
  | String c r => String (Github.toUpperCase c) (toUpperCase r)
  end.

(** A text in which a character does not occur. *)
Fixpoint without (x : ascii) (s : string) : bool :=
  match s with
  | EmptyString => true
  | String c r => negb (Ascii.eqb c x) && without x r
  end.

End Text.

(** ** Resolving the pull request and the repository ([checkGhCli],
       [detectRepoFromGit], [resolvePR]) *)

(** [interface PRInfo], the fields [gh] is asked for. *)
Module PRInfo.
Record t := mk {
  number : Z;
  title : string;
  state : string;
  headRefName : string;
  baseRefName : string;
  headRefOid : string;
  url : string
}.
End PRInfo.

Module GithubCli.
Import Json Anthropic Effects Github Review.
Local Open Scope effect_scope.

(** *** The patterns *)

(** A character the pattern [.] does not match. *)
Definition is_line_terminator (c : ascii) : bool :=
  Ascii.eqb c LF || Ascii.eqb c CR.

Fixpoint no_line_terminator (s : string) : bool :=
  match s with
  | EmptyString => true
  | String c r => negb (is_line_terminator c) && no_line_terminator r
  end.

(** [(.+?)(?:\.git)?$] on a non-empty text without line terminators: the
    capture grows one character at a time and stops as soon as what is
    left is [.git] or nothing. *)
Fixpoint lazy_capture (s : string) : string :=
  match s with
  | EmptyString => ""
  | String c r =>
      if String.eqb r ".git" then String c "" else String c (lazy_capture r)
  end.

(** [github\.com[:/](.+?)(?:\.git)?$] tried at the head of [s]. *)
Definition match_here (s : string) : option string :=
  match strip_prefix "github.com" s with
  | Some (String sep tail) =>
      if (Ascii.eqb sep ":" || Ascii.eqb sep "/")
         && negb (String.eqb tail "") && no_line_terminator tail
      then Some (lazy_capture tail)
      else None
  | _ => None
  end.

(** [remote.match(/github\.com[:/](.+?)(?:\.git)?$/)], the first group of
    the leftmost match. *)
Fixpoint match_remote (s : string) : option string :=
  match match_here s with
  | Some repo => Some repo
  | None =>
      match s with
      | EmptyString => None
      | String _ r => match_remote r
      end
  end.

(** [detectRepoFromGit], given what [git remote get-url origin] printed,
    or that it failed. *)
Definition detectRepoFromGit (origin : result string) : option string :=
  match origin with
  | Ok out => match_remote (trim out)
  | Err _ => None
  end.

(** [prArg.match(/(\d+)/)]: the leftmost digit and the digits that follow
    it. *)
Fixpoint match_digits (s : string) : option Decimal.uint :=
  match s with
  | EmptyString => None
  | String c r =>
      match digit c with
      | Some _ => Some (fst (read_digits s))
      | None => match_digits r
      end
  end.

(** [parseInt(digits, 10)], for digits that denote a safe integer; a larger
    number is rounded by the platform and is not modelled. *)
Definition parseInt (u : Decimal.uint) : Z := Z.of_N (N.of_uint u).

(** *** The environment of [resolvePR] *)

Record Cli := mkCli {
  ghAuthenticated : bool;            (** [gh auth status] succeeds *)
  prOfBranch : option PRInfo.t;      (** [gh pr view --json ...], parsed;
                                         [None]: the command or the parse throws *)
  openPRs : option (list PRInfo.t);  (** [gh pr list ...], parsed *)
  prView : Z -> option PRInfo.t;     (** [gh pr view <n> --json ...], parsed *)
  origin : result string;            (** [git remote get-url origin] *)
  useDetected : bool;                (** the answer to "Review this one?" *)
  selected : list Z -> Z             (** the value chosen among the open PRs *)
}.

Definition PR_FIELDS : string :=
  "number,title,state,headRefName,baseRefName,headRefOid,url".

(** [checkGhCli] *)
Definition checkGhCli (cli : Cli) : M unit :=
  emit (EvQuery "gh auth status") ;;;
  if ghAuthenticated cli then ret tt
  else
    log "Error: GitHub CLI (gh) is not installed or not authenticated." ;;;
    log "Install:  sudo apt install gh  (Linux) or brew install gh (macOS)" ;;;
    log "Auth:     gh auth login" ;;;
    stop (Fatal "Error: GitHub CLI (gh) is not installed or not authenticated.").

(** [detectPR]: a failure is caught and gives [null]. *)
Definition detectPR (cli : Cli) : M (option PRInfo.t) :=
  emit (EvQuery ("gh pr view --json " ++ PR_FIELDS)) ;;;
  ret (prOfBranch cli).

(** [listOpenPRs(15)]: a failure is caught and gives the empty list. *)
Definition listOpenPRs (cli : Cli) : M (list PRInfo.t) :=
  emit (EvQuery "gh pr list --state open --limit 15 --json number,title,headRefName,url") ;;;
  ret (default [] (openPRs cli)).

(** [getPRInfo]: a failure is an exception. *)
Definition getPRInfo (cli : Cli) (prNumber : Z) : M PRInfo.t :=
  query ("gh pr view " ++ Z_to_string prNumber ++ " --json " ++ PR_FIELDS)
        (prView cli prNumber).

(** [detectRepoFromGit() || ''] *)
Definition repoFromGit (cli : Cli) : M string :=
  emit (EvQuery "git remote get-url origin") ;;;
  ret (default "" (detectRepoFromGit (origin cli))).

Definition choice (pr : PRInfo.t) : string :=
  "#" ++ Z_to_string (PRInfo.number pr) ++ "  " ++ PRInfo.title pr ++ "  "
  ++ PRInfo.headRefName pr.

(** The rest of [resolvePR] once no pull request was given or accepted:
    the selection among the open ones. *)
Definition selectPR (cli : Cli) : M PullRequest :=
  prs <- listOpenPRs cli ;;
  match prs with
  | [] => die "No open PRs found."
  | _ =>
      emit (EvSelect "Select a PR to review:") ;;;
      let chosen := selected cli (map PRInfo.number prs) in
      info <- getPRInfo cli chosen ;;
      repo <- repoFromGit cli ;;
      ret (mkPR chosen (PRInfo.baseRefName info) (PRInfo.headRefOid info) repo)
  end.

(** [resolvePR] *)
Definition resolvePR (cli : Cli) (prArg : option string) : M PullRequest :=
  checkGhCli cli ;;;
  match truthy prArg with
  | Some arg =>
      match match_digits arg with
      | None => die ("Cannot parse PR number from: " ++ arg)
      | Some digits =>
          let prNumber := parseInt digits in
          info <- getPRInfo cli prNumber ;;
          repo <- repoFromGit cli ;;
          ret (mkPR prNumber (PRInfo.baseRefName info) (PRInfo.headRefOid info) repo)
      end
  | None =>
      detected <- detectPR cli ;;
      match detected with
      | Some pr =>
          emit (EvConfirm ("Found PR #" ++ Z_to_string (PRInfo.number pr) ++ ": "
                           ++ PRInfo.title pr ++ ". Review this one?")) ;;;
          if useDetected cli then
            repo <- repoFromGit cli ;;
            ret (mkPR (PRInfo.number pr) (PRInfo.baseRefName pr)
                      (PRInfo.headRefOid pr) repo)
          else selectPR cli
      | None => selectPR cli
      end
  end.

(** What [resolvePR] hands to the review command. *)
Definition resolved (cli : Cli) (prArg : option string) : PullRequest + Outcome :=
  result_of (resolvePR cli prArg) ∅.

(** A text without white space. *)
Fixpoint no_space (s : string) : bool :=
  match s with
  | EmptyString => true
  | String c r => negb (is_js_space c) && no_space r
  end.

Definition starts_with_digit (s : string) : bool :=
  match s with
  | EmptyString => false
  | String c _ => match digit c with Some _ => true | None => false end
  end.

Fixpoint no_digit (s : string) : bool :=
  match s with
  | EmptyString => true
  | String c r =>
      match digit c with Some _ => false | None => no_digit r end
  end.

End GithubCli.

(** ** Configuration ([loadConfig], [listProfiles], the [config] command) *)

Module Config.
Import Json Effects Github Text.
Local Open Scope effect_scope.

(** [join(homedir(), '.config', 'pm-cli', 'profiles')] *)
Definition PROFILES_DIR (home : string) : string :=
  home ++ "/.config/pm-cli/profiles".

Definition getProfilesDir (home : string) : string := PROFILES_DIR home.

(** [join(dir, `${name}.env`)], for a name that is a single path
    segment. *)
Definition profilePath (home name : string) : string :=
  PROFILES_DIR home ++ "/" ++ name ++ ".env".

(** [listProfiles], given what [readdirSync(PROFILES_DIR)] lists; [None]
    when the directory does not exist. *)
Definition listProfiles (entries : option (list string)) : list string :=
  match entries with
  | None => []
  | Some files =>
      map (replace ".env" "") (List.filter (endsWith ".env") files)
  end.

(** [interface PmConfig] *)
Record PmConfig := mkConfig {
  anthropicApiKey : option string;
  linearApiKey : option string;
  linearTeamId : option string;
  linearProjectId : option string;
  githubRepo : option string;
  guidelinesPath : option string
}.

Definition config_of (env : gmap string string) : PmConfig :=
  mkConfig (env !! "ANTHROPIC_API_KEY") (env !! "LINEAR_API_KEY")
           (env !! "LINEAR_TEAM_ID") (env !! "LINEAR_PROJECT_ID")
           (env !! "GITHUB_REPO") (env !! "GUIDELINES_PATH").

(** [dotenvConfig({ path, override })] on [process.env], given the
    assignments the file holds: a variable that is already set keeps its
    value unless [override] is set. *)
Definition dotenvConfig (override : bool) (parsed env : gmap string string)
  : gmap string string :=
  if override then parsed ∪ env else env ∪ parsed.

Definition not_found (home profileName : string) : string :=
  "Profile " ++ String QUOTE (profileName ++ String QUOTE
    (" not found at: " ++ profilePath home profileName)).

Definition RUN_INIT : string :=
  "Run " ++ String QUOTE ("pm config init" ++ String QUOTE
    " to create the profiles directory.").

Section Loading.
(** The assignments [dotenv] reads in the text of a file. *)
Variable parse : string -> gmap string string.

(** [process.env] after the two steps of [loadConfig]. *)
Definition loadEnv (home cwd : string) (shell : gmap string string)
           (profileName : option string) : M (gmap string string) :=
  d <- read_disk ;;
  let projectEnv := cwd ++ "/.env" in
  let env :=
    match d !! projectEnv with
    | Some content => dotenvConfig false (parse content) shell
    | None => shell
    end in
  match Review.truthy profileName with
  | None => ret env
  | Some name =>
      match d !! profilePath home name with
      | None =>
          log (not_found home name) ;;;
          log RUN_INIT ;;;
          stop (Fatal (not_found home name))
      | Some content => ret (dotenvConfig true (parse content) env)
      end
  end.

(** [loadConfig] *)
Definition loadConfig (home cwd : string) (shell : gmap string string)
           (profileName : option string) : M PmConfig :=
  env <- loadEnv home cwd shell profileName ;;
  ret (config_of env).

End Loading.

(** *** The [config] command *)

Definition SAMPLE_PROFILE : string :=
  join (String LF "")
    [ "# Profile: default";
      "# Copy this file and customize per project/environment.";
      "";
      "# Anthropic API key (required for code review)";
      "ANTHROPIC_API_KEY=";
      "";
      "# Linear API key (required for linear commands)";
      "LINEAR_API_KEY=";
      "";
      "# Linear team ID (required for creating/updating issues)";
      "LINEAR_TEAM_ID=";
      "";
      "# GitHub repo in owner/name format (auto-detected from git remote if not set)";
      "GITHUB_REPO=";
      "";
      "# Path to coding guidelines file relative to project root";
      "GUIDELINES_PATH=";
      "" ].

(** [config init]; [mkdirSync(dir, { recursive: true })] leaves the files
    of the disk as they are. *)
Definition config_init (home : string) : M unit :=
  let dir := getProfilesDir home in
  let samplePath := dir ++ "/default.env" in
  d <- read_disk ;;
  match d !! samplePath with
  | None =>
      write samplePath SAMPLE_PROFILE ;;;
      log ("Created sample profile: " ++ samplePath)
  | Some _ => log ("Profile already exists: " ++ samplePath)
  end ;;;
  log (String LF ("Profiles directory: " ++ dir)) ;;;
  log "Create new profiles by adding .env files to this directory." ;;;
  log "Example: cp default.env betanet.env && edit betanet.env" ;;;
  log (String LF "Then use: pm review --env betanet").

(** [content.includes(`${key}=`) && !content.includes(`${key}=\n`)
      && !content.includes(`${key}=$`)] *)
Definition has_key (key content : string) : bool :=
  includes (key ++ "=") content
  && negb (includes (key ++ "=" ++ String LF "") content)
  && negb (includes (key ++ "=$") content).

Definition tags (content : string) : list string :=
  ((if has_key "ANTHROPIC_API_KEY" content then ["review"] else [])
   ++ (if has_key "LINEAR_API_KEY" content then ["linear"] else []))%list.

Definition profile_line (p : string) (content : string) : string :=
  "  " ++ p ++ "  "
  ++ match tags content with
     | [] => "[unconfigured]"
     | ts => "[" ++ join ", " ts ++ "]"
     end.

(** The loop of [config list]: a profile whose file cannot be read ends
    the command with the exception of [readFileSync]. *)
Fixpoint list_each (home : string) (profiles : list string) : M unit :=
  match profiles with
  | [] => ret tt
  | p :: r =>
      d <- read_disk ;;
      match d !! profilePath home p with
      | None => stop (Uncaught "readFileSync")
      | Some content => log (profile_line p content) ;;; list_each home r
      end
  end.

(** [config list], given the listing of the profiles directory. *)
Definition config_list (home : string) (entries : option (list string)) : M unit :=
  match listProfiles entries with
  | [] =>
      log "No profiles found." ;;;
      log RUN_INIT
  | profiles =>
      log ("Available profiles:" ++ String LF "") ;;;
      list_each home profiles ;;;
      log (String LF ("Profiles directory: " ++ getProfilesDir home))
  end.

End Config.

(** ** The Linear client ([linearQuery], [readIssue], [listIssues],
       [createIssue], [updateIssue], [linkPR], [formatIssue]) *)

(** [interface LinearIssue] *)
Module Issue.
Record State := mkState { state_name : string; state_type : string }.
Record Person := mkPerson { person_name : string; email : string }.
Record Team := mkTeam { team_name : string; key : string }.
Record t := mk {
  id : string;
  identifier : string;
  title : string;
  description : option string;
  state : State;
  priority : Z;
  assignee : option Person;
  team : Team;
  labels : option (list string);      (** the names of [labels.nodes] *)
  url : string
}.
End Issue.

Module Linear.
Import Json Js Text.

Definition lines (ls : list string) : string := join (String LF "") ls.

(** *** The documents sent *)

Definition ISSUE_FIELDS : string :=
  lines
    [ "";
      "  id";
      "  identifier";
      "  title";
      "  description";
      "  state { name type }";
      "  priority";
      "  assignee { name email }";
      "  team { name key }";
      "  labels { nodes { name } }";
      "  url";
      "" ].

Definition ISSUE_BY_NUMBER : string :=
  lines
    [ "";
      "      query($teamKey: String!, $issueNumber: Float!) {";
      "        issues(filter: { team: { key: { eq: $teamKey } }, number: { eq: $issueNumber } }, first: 1) {";
      "          nodes { " ]
  ++ ISSUE_FIELDS ++
  lines
    [ " }";
      "        }";
      "      }";
      "    " ].

Definition ISSUE_BY_ID : string :=
  lines
    [ "";
      "      query($id: String!) {";
      "        issue(id: $id) { " ]
  ++ ISSUE_FIELDS ++
  lines
    [ " }";
      "      }";
      "    " ].

Definition LIST_ISSUES : string :=
  lines
    [ "";
      "    query($filter: IssueFilter) {";
      "      issues(filter: $filter, first: 50, orderBy: updatedAt) {";
      "        nodes { " ]
  ++ ISSUE_FIELDS ++
  lines
    [ " }";
      "      }";
      "    }";
      "  " ].

Definition ACTIVE_ISSUES : string :=
  lines
    [ "";
      "    query($filter: IssueFilter) {";
      "      issues(filter: $filter, first: 100, orderBy: updatedAt) {";
      "        nodes { " ]
  ++ ISSUE_FIELDS ++
  lines
    [ " }";
      "      }";
      "    }";
      "  " ].

Definition ISSUE_CREATE : string :=
  lines
    [ "";
      "    mutation($input: IssueCreateInput!) {";
      "      issueCreate(input: $input) {";
      "        issue { " ]
  ++ ISSUE_FIELDS ++
  lines
    [ " }";
      "      }";
      "    }";
      "  " ].

Definition WORKFLOW_STATES : string :=
  lines
    [ "";
      "      query($name: String!, $teamId: String!) {";
      "        workflowStates(filter: { name: { eq: $name }, team: { id: { eq: $teamId } } }) {";
      "          nodes { id name }";
      "        }";
      "      }";
      "    " ].

Definition UPDATE_STATE : string :=
  lines
    [ "mutation($issueId: String!, $stateId: String!) {";
      "        issueUpdate(id: $issueId, input: { stateId: $stateId }) { success }";
      "      }" ].

Definition UPDATE_FIELDS : string :=
  lines
    [ "mutation($issueId: String!, $input: IssueUpdateInput!) {";
      "        issueUpdate(id: $issueId, input: $input) { success }";
      "      }" ].

Definition COMMENT_CREATE : string :=
  lines
    [ "mutation($issueId: String!, $body: String!) {";
      "        commentCreate(input: { issueId: $issueId, body: $body }) { success }";
      "      }" ].

Definition LIST_TEAMS : string :=
  lines
    [ "";
      "    query {";
      "      teams {";
      "        nodes {";
      "          id";
      "          name";
      "          key";
      "        }";
      "      }";
      "    }";
      "  " ].


(** The mark in front of the comment of [linkPR], as the source file
    has it. *)
Definition LINK_MARK : string := "ðŸ”—".

(** *** One exchange with the API *)

(** What [fetch] gives: a rejection, or a response with its status and
    what [response.json()] makes of its body: the parsed value, or the
    rejection for a body that is not JSON. *)
Inductive Response :=
| Rejected (msg : string)
| Http (ok : bool) (status : Z) (statusText : string)
       (body : Anthropic.result json).

(** [result.errors] and [result.data] on the parsed body. *)
Definition member (k : string) (result : json) : option json :=
  match result with
  | JObj kvs => obj_get k kvs
  | _ => None
  end.

(** [String(v)] on a parsed value; inside [join], [null] is the empty
    text. *)
Fixpoint to_string (v : json) : string :=
  match v with
  | JNull => "null"
  | JBool true => "true"
  | JBool false => "false"
  | JNum m e => number_to_string m e
  | JStr s => s
  | JArr vs =>
      join "," (map (fun x => match x with JNull => "" | _ => to_string x end) vs)
  | JObj _ => "[object Object]"
  end.

Definition joined (v : option json) : string :=
  match v with
  | None | Some JNull => ""
  | Some x => to_string x
  end.

(** [result.errors.map((e) => e.message)] *)
Fixpoint messages (errors : list json) : attempt (list (option json)) :=
  match errors with
  | [] => Returned []
  | JNull :: _ =>
      Threw (TypeError "Cannot read properties of null (reading 'message')")
  | e :: r =>
      match messages r with
      | Returned ms => Returned (member "message" e :: ms)
      | Threw t => Threw t
      end
  end.

(** The body of [linearQuery] from the response on. *)
Definition linearQuery_response (response : Response) : attempt json :=
  match response with
  | Rejected msg => Threw (Error msg)
  | Http false status statusText _ =>
      Threw (Error ("Linear API HTTP error: " ++ Z_to_string status ++ " "
                    ++ statusText))
  | Http true _ _ (Anthropic.Err msg) => Threw (Error msg)
  | Http true _ _ (Anthropic.Ok JNull) =>
      Threw (TypeError "Cannot read properties of null (reading 'errors')")
  | Http true _ _ (Anthropic.Ok result) =>
      if truthy_value (member "errors" result) then
        match member "errors" result with
        | Some (JArr errors) =>
            match messages errors with
            | Returned ms =>
                Threw (Error ("Linear API error: " ++ join ", " (map joined ms)))
            | Threw t => Threw t
            end
        | _ => Threw (TypeError "result.errors.map is not a function")
        end
      else
        match member "data" result with
        | Some data =>
            if truthy_value (Some data) then Returned data
            else Threw (Error "No data returned from Linear API")
        | None => Threw (Error "No data returned from Linear API")
        end
  end.

(** *** The calls of the client

    A request is what [fetch] is given; the log is the requests made so
    far.  The server answers a request in view of the requests before it;
    its answer is what [linearQuery<T>] resolves to, at the type [T] of the
    call. *)

Record Request := mkRequest {
  apiKey : string;
  query : string;
  variables : option json
}.

Record WorkflowState := mkWorkflowState { ws_id : string; ws_name : string }.

Record LinearTeam := mkLinearTeam { lt_id : string; lt_name : string; lt_key : string }.

Record Server := mkServer {
  issues : list Request -> Request -> attempt (list Issue.t);
      (** [{ issues: { nodes } }] *)
  issue : list Request -> Request -> attempt Issue.t;
      (** [{ issue }] *)
  issueCreate : list Request -> Request -> attempt Issue.t;
      (** [{ issueCreate: { issue } }] *)
  workflowStates : list Request -> Request -> attempt (list WorkflowState);
      (** [{ workflowStates: { nodes } }] *)
  performed : list Request -> Request -> attempt unit;
      (** a mutation whose result is not read *)
  teams : list Request -> Request -> attempt (list LinearTeam)
      (** [{ teams: { nodes } }] *)
}.

(** Computations that call the API and may throw. *)
Definition L (A : Type) : Type := list Request -> attempt A * list Request.

Definition pure {A} (a : A) : L A := fun log => (Returned a, log).

Definition throw {A} (e : Thrown) : L A := fun log => (Threw e, log).

Definition and_then {A B} (m : L A) (k : A -> L B) : L B :=
  fun log =>
    match m log with
    | (Returned a, log') => k a log'
    | (Threw e, log') => (Threw e, log')
    end.

(** [await linearQuery<T>(apiKey, query, variables)], read at [T]. *)
Definition linearQuery {T} (answer : list Request -> Request -> attempt T)
           (key q : string) (vars : option json) : L T :=
  fun log =>
    let r := mkRequest key q vars in
    (answer log r, (log ++ [r])%list).

(** [/^[A-Za-z]+-\d+$/.test(input)] *)
Definition is_letter (c : ascii) : bool :=
  let n := N_of_ascii c in
  ((65 <=? n) && (n <=? 90) || (97 <=? n) && (n <=? 122))%N.

Fixpoint letters_then (s : string) : option string :=
  match s with
  | EmptyString => None
  | String c r =>
      if is_letter c then
        match r with
        | String d r' =>
            if Ascii.eqb d "-" then Some r' else letters_then r
        | EmptyString => None
        end
      else None
  end.

Definition isIdentifier (input : string) : bool :=
  match letters_then input with
  | Some digits => negb (String.eqb digits "") && all_digits digits
  | None => false
  end.

(** An object literal handed to [JSON.stringify]: a property whose value
    is [undefined] is left out. *)
Definition object (members : list (string * option json)) : json :=
  JObj (omap (fun kv => match snd kv with
                        | Some v => Some (fst kv, v)
                        | None => None
                        end) members).

(** [`${kind} "${name}" not found.`] *)
Definition not_found (kind name : string) : string :=
  kind ++ " " ++ String QUOTE (name ++ String QUOTE " not found.").

(** [readIssue] *)
Definition readIssue (server : Server) (key issueId : string) : L Issue.t :=
  if isIdentifier issueId then
    match split "-" issueId with
    | teamKey :: numberStr :: _ =>
        let issueNumber := GithubCli.parseInt (fst (read_digits numberStr)) in
        and_then
          (linearQuery (issues server) key ISSUE_BY_NUMBER
             (Some (object [ ("teamKey", Some (JStr (toUpperCase teamKey)));
                             ("issueNumber", Some (JNum issueNumber 0)) ])))
          (fun nodes =>
             match nodes with
             | [] => throw (Error (not_found "Issue" issueId))
             | first :: _ => pure first
             end)
    | _ => throw (TypeError "Cannot read properties of undefined (reading 'toUpperCase')")
    end
  else
    linearQuery (issue server) key ISSUE_BY_ID
      (Some (object [ ("id", Some (JStr issueId)) ])).

Definition eq_filter (field value : string) : json :=
  JObj [ (field, JObj [ ("eq", JStr value) ]) ].

(** [listIssues] *)
Definition listIssues (server : Server) (key : string)
           (status teamId : option string) : L (list Issue.t) :=
  let filter :=
    (match Review.truthy teamId with
     | Some t => [ ("team", eq_filter "id" t) ]
     | None => []
     end
     ++ match Review.truthy status with
        | Some s => [ ("state", eq_filter "name" s) ]
        | None => []
        end)%list in
  let vars :=
    match filter with
    | [] => JObj []
    | _ => JObj [ ("filter", JObj filter) ]
    end in
  linearQuery (issues server) key LIST_ISSUES (Some vars).

(** [getActiveIssues] *)
Definition getActiveIssues (server : Server) (key : string)
           (teamId : option string) : L (list Issue.t) :=
  let filter :=
    (match Review.truthy teamId with
     | Some t => [ ("team", eq_filter "id" t) ]
     | None => []
     end
     ++ [ ("state",
           JObj [ ("type",
                   JObj [ ("nin", JArr [ JStr "completed"; JStr "canceled" ]) ]) ]) ])%list in
  linearQuery (issues server) key ACTIVE_ISSUES
    (Some (JObj [ ("filter", JObj filter) ])).

(** [createIssue].  The title and the description are the values the
    caller hands over: the command passes the fields of the reply it parsed,
    which are JSON values of any kind. *)
Definition createIssue (server : Server) (key teamId : string) (title : json)
           (description : option json) : L Issue.t :=
  linearQuery (issueCreate server) key ISSUE_CREATE
    (Some (object [ ("input",
                     Some (object [ ("title", Some title);
                                    ("description", description);
                                    ("teamId", Some (JStr teamId)) ])) ])).

(** The [updates] argument of [updateIssue]; a field that is absent is
    [undefined].  Title and description are values, as for [createIssue]. *)
Record Updates := mkUpdates {
  u_status : option string;
  u_comment : option string;
  u_title : option json;
  u_description : option json
}.

Definition when {A} (b : bool) (m : L A) : L unit :=
  if b then and_then m (fun _ => pure tt) else pure tt.

Definition is_some {A} (o : option A) : bool :=
  match o with Some _ => true | None => false end.

(** [if (updates.title) input.title = updates.title] *)
Definition title_given (updates : Updates) : option json :=
  if truthy_value (u_title updates) then u_title updates else None.

(** [updateIssue] *)
Definition updateIssue (server : Server) (key teamId issueId : string)
           (updates : Updates) : L Issue.t :=
  and_then
    (if isIdentifier issueId
     then and_then (readIssue server key issueId) (fun found => pure (Issue.id found))
     else pure issueId)
    (fun resolvedId =>
  and_then
    (match Review.truthy (u_status updates) with
     | Some status =>
         and_then
           (linearQuery (workflowStates server) key WORKFLOW_STATES
              (Some (object [ ("name", Some (JStr status));
                              ("teamId", Some (JStr teamId)) ])))
           (fun nodes =>
              match nodes with
              | [] => throw (Error (not_found "Workflow state" status))
              | first :: _ =>
                  linearQuery (performed server) key UPDATE_STATE
                    (Some (object [ ("issueId", Some (JStr resolvedId));
                                    ("stateId", Some (JStr (ws_id first))) ]))
              end)
     | None => pure tt
     end)
    (fun _ =>
  and_then
    (when (truthy_value (u_title updates) || is_some (u_description updates))
       (linearQuery (performed server) key UPDATE_FIELDS
          (Some (object
                   [ ("issueId", Some (JStr resolvedId));
                     ("input",
                      Some (object [ ("title", title_given updates);
                                     ("description", u_description updates) ])) ]))))
    (fun _ =>
  and_then
    (match Review.truthy (u_comment updates) with
     | Some comment =>
         linearQuery (performed server) key COMMENT_CREATE
           (Some (object [ ("issueId", Some (JStr resolvedId));
                           ("body", Some (JStr comment)) ]))
     | None => pure tt
     end)
    (fun _ => readIssue server key resolvedId)))).

(** [linkPR] *)
Definition linkPR (server : Server) (key teamId issueId prUrl : string) : L unit :=
  and_then
    (updateIssue server key teamId issueId
       (mkUpdates None (Some (LINK_MARK ++ " Linked PR: " ++ prUrl)) None None))
    (fun _ => pure tt).

(** [listTeams] *)
Definition listTeams (server : Server) (key : string) : L (list LinearTeam) :=
  linearQuery (teams server) key LIST_TEAMS None.

(** [formatIssue] *)
Definition formatIssue (i : Issue.t) : string :=
  let labels :=
    match Review.truthy (option_map (join ", ") (Issue.labels i)) with
    | Some names => names
    | None => "None"
    end in
  let assignee :=
    match Issue.assignee i with
    | Some p => Issue.person_name p ++ " (" ++ Issue.email p ++ ")"
    | None => "Unassigned"
    end in
  lines
    (List.app
     [ "Issue: " ++ Issue.identifier i ++ " - " ++ Issue.title i;
       "URL: " ++ Issue.url i;
       "Status: " ++ Issue.state_name (Issue.state i);
       "Priority: " ++ Z_to_string (Issue.priority i);
       "Assignee: " ++ assignee;
       "Team: " ++ Issue.team_name (Issue.team i) ++ " (" ++ Issue.key (Issue.team i) ++ ")";
       "Labels: " ++ labels ]
     match Review.truthy (Issue.description i) with
     | Some d => [ ""; "Description:"; d ]
     | None => []
     end).

(** A request that changes something at the server. *)
Definition is_mutation (r : Request) : bool :=
  String.prefix "mutation" (Anthropic.trim (query r)).

Definition mutations (log : list Request) : list Request :=
  List.filter is_mutation log.

Fixpoint all_letters (s : string) : bool :=
  match s with
  | EmptyString => true
  | String c r => is_letter c && all_letters r
  end.

End Linear.

(** Values the examples run on. *)
Module LinearSamples.
Import Js Linear.

Definition login_issue : Issue.t :=
  Issue.mk "0b1f" "ENG-7" "Fix login" None (Issue.mkState "Todo" "unstarted") 0
           None (Issue.mkTeam "Engineering" "ENG") None
           "https://linear.app/acme/issue/ENG-7".

(** A server that holds one issue and one workflow state and accepts every
    mutation. *)
Definition willing : Server :=
  mkServer (fun _ _ => Returned [login_issue]) (fun _ _ => Returned login_issue)
           (fun _ _ => Returned login_issue)
           (fun _ _ => Returned [mkWorkflowState "st-done" "Done"])
           (fun _ _ => Returned tt) (fun _ _ => Returned []).

(** A server that knows no workflow state. *)
Definition stateless : Server :=
  mkServer (fun _ _ => Returned [login_issue]) (fun _ _ => Returned login_issue)
           (fun _ _ => Returned login_issue) (fun _ _ => Returned [])
           (fun _ _ => Returned tt) (fun _ _ => Returned []).

End LinearSamples.

(** ** The [linear] command ([create], [update], [link]) *)

Module LinearCommand.
Import Json Anthropic Js Text Tickets Config Linear.

(** How an action ends when it does not return: [process.exit(code)], or a
    rejection that nothing catches. *)
Inductive End :=
| Exit (code : Z)
| Rejected (e : Thrown).

(** What an action has done so far: the lines on the console (colours left
    out) and the requests sent to Linear. *)
Record Run := mkRun {
  console : list string;
  requests : list Request
}.

Definition C (A : Type) : Type := Run -> (A + End) * Run.

Definition ret {A} (a : A) : C A := fun r => (inl a, r).

Definition bind {A B} (m : C A) (k : A -> C B) : C B :=
  fun r =>
    match m r with
    | (inl a, r') => k a r'
    | (inr e, r') => (inr e, r')
    end.

Definition print (line : string) : C unit :=
  fun r => (inl tt, mkRun (console r ++ [line]) (requests r)).

Definition exit {A} (code : Z) : C A := fun r => (inr (Exit code), r).

(** [await] on a call of the Linear client. *)
Definition await {A} (m : L A) : C A :=
  fun r =>
    match m (requests r) with
    | (Returned a, log) => (inl a, mkRun (console r) log)
    | (Threw e, log) => (inr (Rejected e), mkRun (console r) log)
    end.

Definition then_ {A B} (m : C A) (k : C B) : C B := bind m (fun _ => k).

(** What [client.messages.create] resolves to, by the arguments of the
    function that calls it. *)
Record Assistant := mkAssistant {
  generated : string -> string -> string -> option string
              -> result (list ContentBlock);
      (** in [generateTicketWithAI(apiKey, userInput, style, context)] *)
  edited : string -> string -> string -> string -> string
           -> result (list ContentBlock)
      (** in [editTicketWithAI(apiKey, currentTitle, currentDescription,
          userRequest, style)] *)
}.

(** [requireLinearKey] *)
Definition requireLinearKey (apiKey : option string) : C string :=
  match Review.truthy apiKey with
  | Some key => ret key
  | None =>
      then_ (print "LINEAR_API_KEY is not set.")
     (then_ (print "Add it to your .env file or set it in your shell.")
            (exit 1))
  end.

Definition validStyles : list string := [ "tldr"; "descriptive"; "detailed" ].

(** [(opts.style?.toLowerCase() as TicketStyle) || 'descriptive'].
    [toLowerCase] is the one of ASCII letters: no other character lowers to
    a letter of the three style names. *)
Definition ticketStyle (style : option string) : string :=
  match Review.truthy (option_map toLowerCase style) with
  | Some s => s
  | None => "descriptive"
  end.

Definition includes (xs : list string) (s : string) : bool :=
  existsb (String.eqb s) xs.

(** [`${opts.style}`] *)
Definition shown (o : option string) : string :=
  match o with
  | Some s => s
  | None => "undefined"
  end.

Definition invalid_style (style : option string) : string :=
  "Invalid style " ++ String QUOTE (shown style ++ String QUOTE
    (". Must be one of: " ++ join ", " validStyles)).

Definition styleLabel (style : string) : string :=
  if String.eqb style "tldr" then "TLDR"
  else if String.eqb style "detailed" then "Detailed"
  else "Descriptive".

Definition ADD_KEY : string := "Add it to your .env file or set it in your shell.".

(** *** [linear create [title]] *)

Record CreateOptions := mkCreateOptions {
  c_description : option string;
  c_ai : option string;
  c_style : option string
}.

(** The action of [create], from the configuration [loadConfig] returned. *)
Definition create (server : Server) (assistant : Assistant) (config : PmConfig)
           (title : option string) (opts : CreateOptions) : C unit :=
  bind (requireLinearKey (linearApiKey config)) (fun apiKey =>
  match Review.truthy (linearTeamId config) with
  | None =>
      then_ (print "LINEAR_TEAM_ID is not set. Required for creating issues.")
            (exit 1)
  | Some teamId =>
      let style := ticketStyle (c_style opts) in
      if negb (includes validStyles style)
      then then_ (print (invalid_style (c_style opts))) (exit 1)
      else
        bind
          (match Review.truthy (c_ai opts) with
           | None => ret (option_map JStr title, option_map JStr (c_description opts))
           | Some prompt =>
               match Review.truthy (anthropicApiKey config) with
               | None =>
                   then_ (print "ANTHROPIC_API_KEY is not set. Required for AI ticket generation.")
                  (then_ (print ADD_KEY) (exit 1))
               | Some aiKey =>
                   then_ (print ("Generating ticket with AI (" ++ styleLabel style
                                 ++ " style)..."))
                     (match ticketWithAI (generated assistant aiKey prompt style title) with
                      | Returned ticket =>
                          then_ (print "✓ AI-generated ticket content")
                                (ret (property "title" ticket,
                                      property "description" ticket))
                      | Threw e =>
                          then_ (print ("Failed to generate ticket with AI: "
                                        ++ message e))
                                (exit 1)
                      end)
               end
           end)
          (fun final =>
             match fst final with
             | Some finalTitle =>
                 if truthy_value (Some finalTitle)
                 then
                   bind (await (createIssue server apiKey teamId finalTitle (snd final)))
                        (fun issue =>
                           then_ (print (String LF ("Created issue: "
                                                    ++ Issue.identifier issue)))
                                 (print (formatIssue issue)))
                 else
                   then_ (print "Title is required. Provide a title or use --ai <prompt>")
                         (exit 1)
             | None =>
                 then_ (print "Title is required. Provide a title or use --ai <prompt>")
                       (exit 1)
             end)
  end).

(** *** [linear update <issueId>] *)

Record UpdateOptions := mkUpdateOptions {
  o_status : option string;
  o_comment : option string;
  o_ai : option string;
  o_style : option string
}.

(** [currentIssue.description || ''] *)
Definition or_empty (o : option string) : string :=
  match Review.truthy o with
  | Some s => s
  | None => ""
  end.

(** The action of [update], from the configuration [loadConfig] returned. *)
Definition update (server : Server) (assistant : Assistant) (config : PmConfig)
           (issueId : string) (opts : UpdateOptions) : C unit :=
  bind (requireLinearKey (linearApiKey config)) (fun apiKey =>
  if negb (is_some (Review.truthy (o_status opts)))
     && negb (is_some (Review.truthy (o_comment opts)))
     && negb (is_some (Review.truthy (o_ai opts)))
  then then_ (print "At least one of --status, --comment, or --ai required.") (exit 1)
  else
  match Review.truthy (linearTeamId config) with
  | None =>
      then_ (print "LINEAR_TEAM_ID is not set. Required for updating issues.")
            (exit 1)
  | Some teamId =>
      let style := ticketStyle (o_style opts) in
      if is_some (Review.truthy (o_style opts)) && negb (includes validStyles style)
      then then_ (print (invalid_style (o_style opts))) (exit 1)
      else
        bind
          (match Review.truthy (o_ai opts) with
           | None => ret (None, None)
           | Some prompt =>
               match Review.truthy (anthropicApiKey config) with
               | None =>
                   then_ (print "ANTHROPIC_API_KEY is not set. Required for AI ticket editing.")
                  (then_ (print ADD_KEY) (exit 1))
               | Some aiKey =>
                   then_ (print "Fetching current ticket...")
                  (bind (await (readIssue server apiKey issueId)) (fun currentIssue =>
                   then_ (print ("Improving ticket with AI (" ++ styleLabel style
                                 ++ " style)..."))
                     (match ticketWithAI
                              (edited assistant aiKey (Issue.title currentIssue)
                                      (or_empty (Issue.description currentIssue))
                                      prompt style) with
                      | Returned improved =>
                          then_ (print "✓ AI-improved ticket content")
                                (ret (property "title" improved,
                                      property "description" improved))
                      | Threw e =>
                          then_ (print ("Failed to improve ticket with AI: "
                                        ++ message e))
                                (exit 1)
                      end)))
               end
           end)
          (fun change =>
             bind (await (updateIssue server apiKey teamId issueId
                            (mkUpdates (o_status opts) (o_comment opts)
                                       (fst change) (snd change))))
                  (fun issue =>
                     then_ (print (String LF ("Updated issue: "
                                              ++ Issue.identifier issue)))
                           (print (formatIssue issue))))
  end).

(** *** [linear link <issueId> <prUrl>] *)

Definition link (server : Server) (config : PmConfig) (issueId prUrl : string)
  : C unit :=
  bind (requireLinearKey (linearApiKey config)) (fun apiKey =>
  match Review.truthy (linearTeamId config) with
  | None => then_ (print "LINEAR_TEAM_ID is not set.") (exit 1)
  | Some teamId =>
      then_ (await (linkPR server apiKey teamId issueId prUrl))
            (print (String LF ("Linked PR to issue " ++ issueId ++ ": " ++ prUrl)))
  end).

Definition start : Run := mkRun [] [].

End LinearCommand.

(** Values the examples run on. *)
Module CommandSamples.
Import Json Anthropic Tickets Config LinearCommand.

Definition safari_ticket : json :=
  ticket_object "Login fails on Safari" "Steps to reproduce: open the login page." [].

(** An assistant that answers every request with the same ticket. *)
Definition helpful : Assistant :=
  mkAssistant (fun _ _ _ _ => Ok [TextBlock (JSON_stringify safari_ticket)])
              (fun _ _ _ _ _ => Ok [TextBlock (JSON_stringify safari_ticket)]).

(** An assistant that cannot be reached. *)
Definition unreachable : Assistant :=
  mkAssistant (fun _ _ _ _ => Err "Connection error.")
              (fun _ _ _ _ _ => Err "Connection error.").

Definition configured : PmConfig :=
  mkConfig (Some "sk-ant") (Some "lin_key") (Some "team") None None None.

End CommandSamples.

(** ** The MCP tool [linear_update_issue] *)

Module Mcp.
Import Json Js Text Config Linear.

(** What a tool hands back: the text of its one content block and the
    [isError] flag ([false] when the property is absent). *)
Record ToolResult := mkToolResult {
  text : string;
  isError : bool
}.

Definition KEY_MISSING : string :=
  "LINEAR_API_KEY is not configured. Set it in your .env file, a named profile, or as an environment variable.".

(** [requireLinearKey] of the server *)
Definition requireLinearKey (config : PmConfig) : attempt string :=
  match Review.truthy (linearApiKey config) with
  | Some key => Returned key
  | None => Threw (Error KEY_MISSING)
  end.

(** The [catch] clause of the tool. *)
Definition failed (e : Thrown) : ToolResult :=
  mkToolResult ("Failed to update issue: " ++ message e) true.


End Mcp.

(** * Properties *)

Module SortingFacts.
Import Sorting.

Lemma rank_cases f :
  rank f = match severity f with critical => 0 | warning => 1 | suggestion => 2 end.
Proof. unfold rank. destruct (severity f); vm_compute; reflexivity. Qed.

Lemma severity_before_rank a b :
  severity_before (severity a) (severity b) = true <-> rank a < rank b.
Proof.
  rewrite !rank_cases. destruct (severity a), (severity b); simpl; split;
    intros; try lia; try discriminate; reflexivity.
Qed.

Section InsertionSort.
Context {A : Type} (cmp : A -> A -> Z).

(** An element passes every element the comparator puts strictly before
    it. *)
Lemma insert_app (x : A) (l1 l2 : list A) :
  Forall (fun y => 0 < cmp x y) l1 ->
  insert cmp x (l1 ++ l2) = (l1 ++ insert cmp x l2)%list.
Proof.
  induction 1 as [|y l1 Hy _ IH]; simpl; [reflexivity|].
  destruct (Z.leb_spec (cmp x y) 0); [lia|]. now rewrite IH.
Qed.

(** ... and stops in front of the first one that is not. *)
Lemma insert_head (x : A) (l : list A) :
  Forall (fun y => cmp x y <= 0) l -> insert cmp x l = x :: l.
Proof.
  intros H. destruct H as [|y l Hy _]; simpl; [reflexivity|].
  destruct (Z.leb_spec (cmp x y) 0); [reflexivity|lia].
Qed.

Lemma insert_Permutation (x : A) (l : list A) :
  Permutation (x :: l) (insert cmp x l).
Proof.
  induction l as [|y l IH]; simpl; [reflexivity|].
  destruct (cmp x y <=? 0); [reflexivity|].
  rewrite perm_swap. now constructor.
Qed.

Lemma sort_Permutation (l : list A) : Permutation l (sort cmp l).
Proof.
  induction l as [|x l IH]; simpl; [constructor|].
  rewrite <- insert_Permutation. now constructor.
Qed.
End InsertionSort.

Lemma Forall_filter_rank s (fs : list ReviewFinding) :
  Forall (fun y => severity y = s) (List.filter (has_severity s) fs).
Proof.
  apply List.Forall_forall. intros y Hy. apply List.filter_In in Hy.
  destruct Hy as [_ Hy]. unfold has_severity in Hy.
  destruct (severity y), s; simpl in Hy; congruence.
Qed.

Lemma Forall_app_intro {A} (P : A -> Prop) (l1 l2 : list A) :
  Forall P l1 -> Forall P l2 -> Forall P (l1 ++ l2).
Proof. intros H1 H2. apply List.Forall_app. now split. Qed.

(** The sorted list is the criticals, then the warnings, then the
    suggestions, each group in its original order. *)
Lemma sortFindings_groups (fs : list ReviewFinding) :
  sortFindings fs =
    (List.filter (has_severity critical) fs
     ++ List.filter (has_severity warning) fs
     ++ List.filter (has_severity suggestion) fs)%list.
Proof.
  unfold sortFindings.
  induction fs as [|x fs IH]; [reflexivity|].
  cbn [sort]. rewrite IH. clear IH.
  pose proof (Forall_filter_rank critical fs) as HC.
  pose proof (Forall_filter_rank warning fs) as HW.
  pose proof (Forall_filter_rank suggestion fs) as HS.
  assert (Hmono : forall s (P : ReviewFinding -> Prop) l,
             (forall y, severity y = s -> P y) ->
             Forall (fun y => severity y = s) l -> Forall P l).
  { intros s P l HP Hl. eapply List.Forall_impl; [|exact Hl]. exact HP. }
  assert (Hf : forall s,
             List.filter (has_severity s) (x :: fs)
             = if Severity_eqb (severity x) s
               then x :: List.filter (has_severity s) fs
               else List.filter (has_severity s) fs) by reflexivity.
  rewrite !Hf.
  destruct (severity x) eqn:Hx; cbn [Severity_eqb].
  - rewrite insert_head; [reflexivity|].
    apply List.Forall_forall. intros y _. unfold bySeverity.
    rewrite !rank_cases, Hx. destruct (severity y); lia.
  - rewrite insert_app.
    + rewrite insert_head; [reflexivity|].
      apply Forall_app_intro.
      * eapply Hmono; [|exact HW]. intros y Hy. unfold bySeverity.
        rewrite !rank_cases, Hx, Hy. lia.
      * eapply Hmono; [|exact HS]. intros y Hy. unfold bySeverity.
        rewrite !rank_cases, Hx, Hy. lia.
    + eapply Hmono; [|exact HC]. intros y Hy. unfold bySeverity.
      rewrite !rank_cases, Hx, Hy. lia.
  - rewrite List.app_assoc, insert_app.
    + rewrite insert_head, <- List.app_assoc; [reflexivity|].
      eapply Hmono; [|exact HS]. intros y Hy. unfold bySeverity.
      rewrite !rank_cases, Hx, Hy. lia.
    + apply Forall_app_intro.
      * eapply Hmono; [|exact HC]. intros y Hy. unfold bySeverity.
        rewrite !rank_cases, Hx, Hy. lia.
      * eapply Hmono; [|exact HW]. intros y Hy. unfold bySeverity.
        rewrite !rank_cases, Hx, Hy. lia.
Qed.

Lemma filter_filter_severity s t (fs : list ReviewFinding) :
  List.filter (has_severity s) (List.filter (has_severity t) fs) =
    if Severity_eqb s t then List.filter (has_severity s) fs else [].
Proof.
  induction fs as [|x fs IH]; simpl; [now destruct (Severity_eqb s t)|].
  unfold has_severity in *.
  destruct (severity x) eqn:Hx, t, s; simpl in *; rewrite ?Hx; simpl;
    rewrite ?IH; reflexivity.
Qed.

Lemma sortFindings_stable s (fs : list ReviewFinding) :
  List.filter (has_severity s) (sortFindings fs) = List.filter (has_severity s) fs.
Proof.
  rewrite sortFindings_groups, !List.filter_app, !filter_filter_severity.
  destruct s; simpl; rewrite ?List.app_nil_r; reflexivity.
Qed.

(** In a list laid out in groups, positions follow ranks. *)
Lemma groups_ordered (fs : list ReviewFinding) (i j : nat) (a b : ReviewFinding) :
  sortFindings fs !! i = Some a ->
  sortFindings fs !! j = Some b ->
  rank a < rank b -> (i < j)%nat.
Proof.
  rewrite sortFindings_groups.
  set (C := List.filter (has_severity critical) fs).
  set (W := List.filter (has_severity warning) fs).
  set (S := List.filter (has_severity suggestion) fs).
  pose proof (Forall_filter_rank critical fs) as HC.
  pose proof (Forall_filter_rank warning fs) as HW.
  pose proof (Forall_filter_rank suggestion fs) as HS.
  fold C in HC. fold W in HW. fold S in HS.
  rewrite List.Forall_forall in HC, HW, HS.
  intros Ha Hb Hlt. rewrite !rank_cases in Hlt.
  assert (Hin : forall (l : list ReviewFinding) k x, l !! k = Some x -> In x l).
  { intros l k x H. apply list_elem_of_In. eapply list_elem_of_lookup_2; eauto. }
  destruct (decide (i < length C)%nat) as [HiC|HiC].
  - rewrite lookup_app_l in Ha by exact HiC.
    apply Hin, HC in Ha. rewrite Ha in Hlt.
    destruct (decide (j < length C)%nat) as [HjC|HjC]; [|lia].
    rewrite lookup_app_l in Hb by exact HjC.
    apply Hin, HC in Hb. rewrite Hb in Hlt. lia.
  - rewrite lookup_app_r in Ha by lia.
    destruct (decide (j < length C)%nat) as [HjC|HjC].
    { rewrite lookup_app_l in Hb by exact HjC.
      apply Hin, HC in Hb. rewrite Hb in Hlt. destruct (severity a); lia. }
    rewrite lookup_app_r in Hb by lia.
    destruct (decide (i - length C < length W)%nat) as [HiW|HiW].
    + rewrite lookup_app_l in Ha by exact HiW.
      apply Hin, HW in Ha. rewrite Ha in Hlt.
      destruct (decide (j - length C < length W)%nat) as [HjW|HjW]; [|lia].
      rewrite lookup_app_l in Hb by exact HjW.
      apply Hin, HW in Hb. rewrite Hb in Hlt. lia.
    + rewrite lookup_app_r in Ha by lia.
      apply Hin, HS in Ha. rewrite Ha in Hlt. destruct (severity b); lia.
Qed.

(** C5: for every sequence of findings, the sort used before reporting
    and approval is total and stable for the order critical, warning,
    suggestion: the output is a rearrangement of the input; every finding
    of an earlier severity stands before every finding of a later one;
    and the findings of any one severity keep their original relative
    order. *)
Theorem sort_by_severity_stable_total (fs : list ReviewFinding) :
  Permutation fs (sortFindings fs)
  /\ (forall (i j : nat) (a b : ReviewFinding),
         sortFindings fs !! i = Some a ->
         sortFindings fs !! j = Some b ->
         severity_before (severity a) (severity b) = true ->
         (i < j)%nat)
  /\ (forall s : Severity,
         List.filter (has_severity s) (sortFindings fs)
         = List.filter (has_severity s) fs).
Proof.
  split; [apply sort_Permutation|]. split.
  - intros i j a b Ha Hb Hlt. apply severity_before_rank in Hlt.
    eapply groups_ordered; eauto.
  - intros s. apply sortFindings_stable.
Qed.

End SortingFacts.


Module EffectsFacts.
Import Effects.

(** A computation is append-only when it never looks at the trace it is
    given and only adds to it: started on any world, it behaves as on the
    same disk with an empty trace, its events coming after those already
    there. *)
Lemma append_only_ret {A} (a : A) : append_only (ret a).
Proof. intros [t d]. cbn. now rewrite List.app_nil_r. Qed.

Lemma append_only_stop {A} (o : Outcome) : append_only (@stop A o).
Proof. intros [t d]. cbn. now rewrite List.app_nil_r. Qed.

Lemma append_only_emit e : append_only (emit e).
Proof. intros [t d]. reflexivity. Qed.

Lemma append_only_write p c : append_only (write p c).
Proof. intros [t d]. reflexivity. Qed.

Lemma append_only_read_disk : append_only read_disk.
Proof. intros [t d]. cbn. now rewrite List.app_nil_r. Qed.

Lemma append_only_bind {A B} (m : M A) (k : A -> M B) :
  append_only m -> (forall a, append_only (k a)) -> append_only (bind m k).
Proof.
  intros Hm Hk w. unfold bind. rewrite (Hm w).
  destruct (m (initial (disk w))) as [[a|o] w1]; cbn [fst snd]; [|reflexivity].
  rewrite (Hk a). rewrite (Hk a w1). cbn [disk trace fst snd].
  now rewrite List.app_assoc.
Qed.

Lemma append_only_log s : append_only (log s).
Proof. apply append_only_emit. Qed.

Lemma append_only_die {A} s : append_only (@die A s).
Proof.
  apply append_only_bind; [apply append_only_log|].
  intros _. apply append_only_stop.
Qed.

Lemma append_only_query {A} what (r : option A) : append_only (query what r).
Proof.
  apply append_only_bind; [apply append_only_emit|].
  intros _. destruct r; [apply append_only_ret|apply append_only_stop].
Qed.

(** The events and the result of a sequence. *)
Lemma events_of_bind {A B} (m : M A) (k : A -> M B) d :
  (forall a, append_only (k a)) ->
  events_of (bind m k) d =
    (events_of m d
     ++ match result_of m d with
        | inl a => events_of (k a) (disk_of m d)
        | inr _ => []
        end)%list.
Proof.
  intros Hk. unfold events_of, result_of, disk_of, bind.
  destruct (m (initial d)) as [[a|o] w1]; cbn [fst snd].
  - rewrite (Hk a w1). reflexivity.
  - now rewrite List.app_nil_r.
Qed.

Lemma result_of_bind {A B} (m : M A) (k : A -> M B) d :
  (forall a, append_only (k a)) ->
  result_of (bind m k) d =
    match result_of m d with
    | inl a => result_of (k a) (disk_of m d)
    | inr o => inr o
    end.
Proof.
  intros Hk. unfold result_of, disk_of, bind.
  destruct (m (initial d)) as [[a|o] w1]; cbn [fst snd]; [|reflexivity].
  now rewrite (Hk a w1).
Qed.

Lemma disk_of_bind {A B} (m : M A) (k : A -> M B) d :
  (forall a, append_only (k a)) ->
  disk_of (bind m k) d =
    match result_of m d with
    | inl a => disk_of (k a) (disk_of m d)
    | inr o => disk_of m d
    end.
Proof.
  intros Hk. unfold result_of, disk_of, bind.
  destruct (m (initial d)) as [[a|o] w1]; cbn [fst snd]; [|reflexivity].
  now rewrite (Hk a w1).
Qed.

End EffectsFacts.

#[global] Hint Resolve EffectsFacts.append_only_ret EffectsFacts.append_only_stop
  EffectsFacts.append_only_emit EffectsFacts.append_only_write
  EffectsFacts.append_only_read_disk EffectsFacts.append_only_log
  EffectsFacts.append_only_die EffectsFacts.append_only_query : effects.

(** Walks a computation built from the primitives, sequencing and case
    distinctions. *)
Ltac append_only_step :=
  lazymatch goal with
  | |- Effects.append_only (Effects.bind _ _) =>
      apply EffectsFacts.append_only_bind; [|intros ?]
  | |- Effects.append_only (match ?x with _ => _ end) => destruct x
  | |- Effects.append_only (if ?x then _ else _) => destruct x
  | |- Effects.append_only _ => solve [eauto with effects]
  end.

Ltac append_only := repeat append_only_step.

Module GithubFacts.
Import Json Effects Github EffectsFacts.
Local Open Scope effect_scope.

Lemma append_only_try_comment answer review text posted failed :
  append_only (try_comment answer review text posted failed).
Proof. unfold try_comment. append_only. Qed.

Lemma append_only_comment_each host review fs :
  forall i, append_only (comment_each host i review fs).
Proof.
  induction fs as [|f fs IH]; intros i; cbn [comment_each].
  - append_only.
  - apply append_only_bind; [apply append_only_try_comment|]. intros _. apply IH.
Qed.

#[local] Hint Resolve append_only_try_comment append_only_comment_each : effects.

Lemma append_only_postReview host review approved :
  append_only (postReview host review approved).
Proof. unfold postReview. append_only. Qed.

Lemma result_of_try_comment answer review text posted failed d :
  result_of (try_comment answer review text posted failed) d = inl tt.
Proof. now destruct answer. Qed.

Lemma disk_of_try_comment answer review text posted failed d :
  disk_of (try_comment answer review text posted failed) d = d.
Proof. now destruct answer. Qed.

Lemma calls_of_try_comment answer review text posted failed d :
  List.filter is_host_mutation
    (events_of (try_comment answer review text posted failed) d)
  = [comment_call review text].
Proof. now destruct answer. Qed.

(** The loop over the approved findings never ends the run, leaves the
    disk alone, and calls the host once per finding, whatever the host
    answers. *)
Lemma comment_each_calls host review fs d :
  forall i,
    result_of (comment_each host i review fs) d = inl tt
    /\ disk_of (comment_each host i review fs) d = d
    /\ List.filter is_host_mutation (events_of (comment_each host i review fs) d)
       = map (fun f => comment_call review (flat_body f)) fs.
Proof.
  induction fs as [|f fs IH]; intros i; cbn [comment_each].
  - repeat split.
  - destruct (IH (S i)) as (Hr & Hd & Hc).
    rewrite result_of_bind, disk_of_bind, events_of_bind
      by (intros; apply append_only_comment_each).
    rewrite result_of_try_comment, disk_of_try_comment.
    rewrite List.filter_app, calls_of_try_comment, Hc. auto.
Qed.



Lemma postReview_fallback host review approved d msg :
  host 0%nat = Some msg -> anchor_failure msg = true ->
  result_of (postReview host review approved) d = inl tt
  /\ disk_of (postReview host review approved) d = d
  /\ List.filter is_host_mutation (events_of (postReview host review approved) d)
     = review_call review approved :: fallback_calls review approved.
Proof.
  intros H0 Ha. unfold postReview.
  rewrite result_of_bind, disk_of_bind, events_of_bind by (intros; append_only).
  cbn [result_of disk_of events_of emit initial fst snd trace disk]. rewrite H0, Ha.
  rewrite result_of_bind, disk_of_bind, events_of_bind by (intros; append_only).
  cbn [result_of disk_of events_of log emit initial fst snd trace disk].
  rewrite result_of_bind, disk_of_bind, events_of_bind by (intros; append_only).
  rewrite result_of_try_comment, disk_of_try_comment.
  destruct (comment_each_calls host review approved d 2) as (Hr & Hd & Hc).
  rewrite Hr, Hd. repeat split.
  rewrite !List.filter_app, calls_of_try_comment, Hc. reflexivity.
Qed.

(** C3: when the structured submission fails with a message that carries
    the anchor-validation signature, delivery falls back to flat comments:
    the summary, then one comment per approved finding.  Whatever the host
    answers to those calls, [postReview] returns normally and the host
    calls made are exactly the submission, the summary comment and the
    comment of every approved finding in order; in particular the comment
    of each finding is attempted, whether or not earlier ones failed. *)
Theorem fallback_is_best_effort
        (host : Host) (review : ReviewFile) (approved : list ReviewFinding)
        (d : gmap string string) (msg : string) :
  host 0%nat = Some msg ->
  anchor_failure msg = true ->
  result_of (postReview host review approved) d = inl tt
  /\ List.filter is_host_mutation (events_of (postReview host review approved) d)
     = review_call review approved
       :: comment_call review (formatSummaryBody review approved)
       :: map (fun f => comment_call review (flat_body f)) approved
  /\ (forall (j : nat) (f : ReviewFinding),
         approved !! j = Some f ->
         In (comment_call review (flat_body f))
            (events_of (postReview host review approved) d)).
Proof.
  intros H0 Ha.
  destruct (postReview_fallback host review approved d msg H0 Ha) as (Hr & _ & Hc).
  split; [exact Hr|]. split; [exact Hc|].
  intros j f Hj.
  assert (Hin : In (comment_call review (flat_body f))
                   (List.filter is_host_mutation
                      (events_of (postReview host review approved) d))).
  { rewrite Hc. right. right.
    apply (List.in_map (fun f => comment_call review (flat_body f))).
    apply list_elem_of_In. eapply list_elem_of_lookup_2. exact Hj. }
  apply List.filter_In in Hin. tauto.
Qed.

Lemma fallback_is_best_effort_witness :
  Samples.host_first_comment_fails 0%nat
  = Some "Command failed: gh api: Validation Failed (HTTP 422)"
  /\ call_failed Samples.host_first_comment_fails 2 = true
  /\ In (comment_call Samples.review42 (flat_body Samples.finding2))
        (events_of (postReview Samples.host_first_comment_fails Samples.review42
                               [Samples.finding1; Samples.finding2])
                   ∅).
Proof.
  split; [reflexivity|]. split; [reflexivity|].
  apply (fallback_is_best_effort Samples.host_first_comment_fails Samples.review42
           [Samples.finding1; Samples.finding2] ∅
           "Command failed: gh api: Validation Failed (HTTP 422)"
           eq_refl eq_refl) with (j := 1%nat).
  reflexivity.
Defined.



End GithubFacts.

Module ReviewFacts.
Import Json Anthropic Effects Github Sorting Review EffectsFacts GithubFacts.
Local Open Scope effect_scope.

(** Started on any world, an append-only computation adds its own events. *)
Lemma append_only_eq {A} (m : M A) w :
  append_only m ->
  m w = (result_of m (disk w),
         mkWorld (trace w ++ events_of m (disk w)) (disk_of m (disk w))).
Proof. intros H. exact (H w). Qed.

Lemma append_only_print_each fs : append_only (print_each fs).
Proof. induction fs as [|f fs IH]; cbn [print_each]; append_only. Qed.

#[local] Hint Resolve append_only_print_each : effects.

Lemma append_only_printFindings fs : append_only (printFindings fs).
Proof. unfold printFindings. append_only. Qed.

Lemma append_only_interactiveApproval answer fs :
  forall i, append_only (interactiveApproval answer i fs).
Proof.
  induction fs as [|f fs IH]; intros i; cbn [interactiveApproval]; append_only.
Qed.

Lemma append_only_loadGuidelines env : append_only (loadGuidelines env).
Proof. unfold loadGuidelines. append_only. Qed.

Lemma append_only_saveReview env path content :
  append_only (saveReview env path content).
Proof. unfold saveReview. append_only. Qed.

#[local] Hint Resolve append_only_printFindings append_only_interactiveApproval
  append_only_loadGuidelines append_only_saveReview
  append_only_postReview : effects.

Lemma append_only_review env : append_only (review env).
Proof. unfold review. append_only. Qed.



Lemma print_each_facts fs d :
  result_of (print_each fs) d = inl tt
  /\ disk_of (print_each fs) d = d
  /\ quiet (events_of (print_each fs) d).
Proof.
  induction fs as [|f fs (Hr & Hd & He)]; cbn [print_each].
  - repeat split. constructor.
  - rewrite !result_of_bind, !disk_of_bind, !events_of_bind by (intros; append_only).
    cbn [result_of disk_of events_of log emit initial fst snd trace disk].
    rewrite Hr, Hd. repeat split.
    unfold quiet in *. rewrite !List.Forall_app. repeat split; try assumption;
      repeat constructor.
Qed.

Lemma interactiveApproval_facts answer fs d :
  forall i,
    result_of (interactiveApproval answer i fs) d = inl (decisions answer i fs)
    /\ disk_of (interactiveApproval answer i fs) d = d
    /\ quiet (events_of (interactiveApproval answer i fs) d).
Proof.
  induction fs as [|f fs IH]; intros i; cbn [interactiveApproval decisions].
  - repeat split. constructor.
  - destruct (IH (S i)) as (Hr & Hd & He).
    rewrite !result_of_bind, !disk_of_bind, !events_of_bind by (intros; append_only).
    cbn [result_of disk_of events_of log emit initial fst snd trace disk].
    destruct (answer i); cbn [decision];
      rewrite ?result_of_bind, ?disk_of_bind, ?events_of_bind by (intros; append_only);
      cbn [result_of disk_of events_of log emit ret initial fst snd trace disk];
      rewrite ?result_of_bind, ?disk_of_bind, ?events_of_bind by (intros; append_only);
      rewrite Hr, Hd; cbn [result_of disk_of events_of log emit ret initial fst snd trace disk];
      (repeat split);
      unfold quiet in *; rewrite ?List.Forall_app; repeat split; try assumption;
      repeat constructor.
Qed.


Lemma printFindings_facts fs d :
  result_of (printFindings fs) d = inl tt
  /\ disk_of (printFindings fs) d = d
  /\ quiet (events_of (printFindings fs) d).
Proof.
  unfold printFindings.
  destruct (print_each_facts (sortFindings fs) d) as (Hr & Hd & He).
  rewrite !result_of_bind, !disk_of_bind, !events_of_bind by (intros; append_only).
  cbn [result_of disk_of events_of log emit initial fst snd trace disk].
  rewrite Hr, Hd. repeat split.
  unfold quiet in *. rewrite !List.Forall_app. repeat split; try assumption;
    repeat constructor.
Qed.

(** *** Stepping through a run *)

Lemma step_log {A} s (k : unit -> M A) w :
  bind (log s) k w = k tt (mkWorld (trace w ++ [EvConsole s]) (disk w)).
Proof. reflexivity. Qed.

Lemma step_emit {A} e (k : unit -> M A) w :
  bind (emit e) k w = k tt (mkWorld (trace w ++ [e]) (disk w)).
Proof. reflexivity. Qed.

Lemma step_query {A B} what (a : A) (k : A -> M B) w :
  bind (query what (Some a)) k w = k a (mkWorld (trace w ++ [EvQuery what]) (disk w)).
Proof. reflexivity. Qed.

Lemma step_query_fails {A B} what (k : A -> M B) w :
  bind (query what None) k w
  = (inr (Uncaught what), mkWorld (trace w ++ [EvQuery what]) (disk w)).
Proof. reflexivity. Qed.

Lemma step_loadGuidelines {A} env (k : string -> M A) w :
  bind (loadGuidelines env) k w =
    k (guidelines_on (disk w) env)
      (mkWorld (trace w ++ guidelines_warning (disk w) env) (disk w)).
Proof.
  unfold loadGuidelines, bind, read_disk, guidelines_on, guidelines_warning.
  destruct (first_existing (disk w) (cwd env) (candidate_paths env)); cbn.
  - rewrite List.app_nil_r. now destruct w.
  - reflexivity.
Qed.

Lemma step_printFindings {A} fs (k : unit -> M A) w :
  bind (printFindings fs) k w
  = k tt (mkWorld (trace w ++ events_of (printFindings fs) (disk w)) (disk w)).
Proof.
  unfold bind at 1. rewrite (append_only_eq (printFindings fs) w)
    by apply append_only_printFindings.
  destruct (printFindings_facts fs (disk w)) as (-> & -> & _). reflexivity.
Qed.

Lemma step_interactiveApproval {A} answer i fs (k : list ReviewFinding -> M A) w :
  bind (interactiveApproval answer i fs) k w
  = k (decisions answer i fs)
      (mkWorld (trace w ++ events_of (interactiveApproval answer i fs) (disk w))
               (disk w)).
Proof.
  unfold bind at 1. rewrite (append_only_eq (interactiveApproval answer i fs) w)
    by apply append_only_interactiveApproval.
  destruct (interactiveApproval_facts answer fs (disk w) i) as (-> & -> & _).
  reflexivity.
Qed.

Lemma step_saveReview {A} env path content (k : unit -> M A) w :
  bind (saveReview env path content) k w =
    if writable env
    then k tt (mkWorld (trace w ++ [EvWriteFile path content])
                       (<[path := content]> (disk w)))
    else (inr (Uncaught "writeFileSync"), w).
Proof. unfold saveReview, bind. destruct (writable env); reflexivity. Qed.

Lemma disk_of_postReview host review approved d :
  disk_of (postReview host review approved) d = d.
Proof.
  destruct (host 0%nat) as [msg|] eqn:H0.
  - destruct (anchor_failure msg) eqn:Ha.
    + now destruct (postReview_fallback host review approved d msg H0 Ha) as (_ & ? & _).
    + unfold disk_of, postReview. rewrite H0. unfold bind, emit, die, log, stop.
      cbn. rewrite Ha. reflexivity.
  - unfold disk_of, postReview. rewrite H0. reflexivity.
Qed.

Lemma step_postReview {A} host review approved (k : unit -> M A) w :
  bind (postReview host review approved) k w =
    let w' := mkWorld (trace w ++ events_of (postReview host review approved) (disk w))
                      (disk w) in
    match result_of (postReview host review approved) (disk w) with
    | inl a => k a w'
    | inr o => (inr o, w')
    end.
Proof.
  unfold bind at 1. rewrite (append_only_eq (postReview host review approved) w)
    by apply append_only_postReview.
  rewrite disk_of_postReview.
  destruct (result_of (postReview host review approved) (disk w)); reflexivity.
Qed.

Ltac step :=
  first
    [ rewrite step_log | rewrite step_emit | rewrite step_query
    | rewrite step_query_fails | rewrite step_loadGuidelines
    | rewrite step_printFindings | rewrite step_interactiveApproval
    | rewrite step_saveReview | rewrite step_postReview ];
  cbn [trace disk initial].

Lemma quiet_guidelines_warning d env : quiet (guidelines_warning d env).
Proof.
  unfold guidelines_warning, quiet.
  destruct (first_existing d (cwd env) (candidate_paths env)); repeat constructor.
Qed.

Ltac quiet_tac :=
  unfold quiet;
  repeat first
    [ apply List.Forall_nil
    | apply List.Forall_cons; [reflexivity|]
    | apply SortingFacts.Forall_app_intro
    | apply quiet_guidelines_warning
    | apply printFindings_facts
    | apply interactiveApproval_facts ].

Lemma run_quiet env :
  posting env = None \/ writable env = false ->
  quiet (events env) /\ final_disk env = files env.
Proof.
  intros H. unfold events, final_disk, run, review.
  unfold posting, reported, gathered, guidelines_text in H.
  destruct (truthy (anthropicApiKey env)).
  2:{ repeat step. cbn. split; [quiet_tac|reflexivity]. }
  repeat step.
  destruct (resolvePR env) as [p0|].
  2:{ cbn. split; [quiet_tac|reflexivity]. }
  repeat step.
  destruct (getPRDiff env) as [diff|].
  2:{ repeat step. cbn. split; [quiet_tac|reflexivity]. }
  repeat step.
  destruct (getChangedFiles env) as [changed|].
  2:{ repeat step. cbn. split; [quiet_tac|reflexivity]. }
  repeat step.
  destruct (trim diff).
  { repeat step. cbn. split; [quiet_tac|reflexivity]. }
  repeat step.
  destruct (analysis env _ _ _) as [found|msg].
  2:{ cbn. split; [quiet_tac|reflexivity]. }
  destruct found as [|f fs].
  { repeat step. cbn. split; [quiet_tac|reflexivity]. }
  repeat step.
  destruct (opt_post env); cbn [negb].
  2:{ repeat step. cbn. split; [quiet_tac|reflexivity]. }
  repeat step.
  destruct (List.filter is_approved _) as [|ap0 aps] eqn:Hap.
  { repeat step. cbn. split; [quiet_tac|reflexivity]. }
  repeat step.
  destruct (shouldPost env); cbn [negb].
  2:{ repeat step. cbn. split; [quiet_tac|reflexivity]. }
  destruct (determined_repo env p0).
  2:{ cbn. split; [quiet_tac|reflexivity]. }
  destruct H as [H|H]; [discriminate|].
  repeat step. rewrite H. cbn. split; [quiet_tac|reflexivity].
Qed.

Ltac step_in H :=
  first
    [ rewrite step_log in H | rewrite step_emit in H | rewrite step_query in H
    | rewrite step_query_fails in H | rewrite step_loadGuidelines in H
    | rewrite step_printFindings in H | rewrite step_interactiveApproval in H ];
  cbn [trace disk initial] in H.

Lemma run_posting env p rf approved :
  posting env = Some (p, rf, approved) ->
  writable env = true ->
  exists pre,
    quiet pre
    /\ existsb is_confirmation pre = true
    /\ run env =
         (let d' := <[reviewPath env p := record_content rf]> (files env) in
          let delivery := postReview (host env) rf approved in
          (match result_of delivery d' with inl _ => Done Posted | inr o => o end,
           mkWorld
             (pre
              ++ [EvWriteFile (reviewPath env p) (record_content rf);
                  EvConsole (String LF ("Review saved to " ++ reviewPath env p));
                  EvConsole (String LF "Posting to GitHub...")]
              ++ events_of delivery d'
              ++ match result_of delivery d' with
                 | inl _ => [EvConsole (String LF "Done.")]
                 | inr _ => []
                 end)
             d')).
Proof.
  intros H Hw. remember (run env) as r eqn:Hr. unfold run, review in Hr.
  unfold posting, reported, gathered, guidelines_text in H.
  destruct (truthy (anthropicApiKey env)); [|discriminate].
  destruct (resolvePR env) as [p0|]; [|discriminate].
  destruct (getPRDiff env) as [diff|]; [|discriminate].
  destruct (getChangedFiles env) as [changed|]; [|discriminate].
  repeat step_in Hr.
  destruct (trim diff); [discriminate|].
  repeat step_in Hr.
  destruct (analysis env _ _ _) as [found|msg]; [|discriminate].
  destruct found as [|f fs]; [discriminate|].
  repeat step_in Hr.
  destruct (opt_post env); [|discriminate]. cbn [negb] in Hr.
  repeat step_in Hr.
  destruct (List.filter is_approved _) as [|ap0 aps] eqn:Hap; [discriminate|].
  repeat step_in Hr.
  destruct (shouldPost env); [|discriminate]. cbn [negb] in Hr.
  destruct (determined_repo env p0) as [r0|]; [|discriminate].
  injection H as <- <- <-.
  match type of Hr with
  | context [bind (saveReview _ _ _) _ (mkWorld ?T _)] => set (pre := T) in *
  end.
  rewrite step_saveReview, Hw in Hr. cbn [trace disk] in Hr.
  rewrite !step_log in Hr. cbn [trace disk] in Hr.
  rewrite step_postReview in Hr. cbn [trace disk] in Hr.
  exists pre. split; [subst pre; quiet_tac|].
  split.
  { subst pre. rewrite List.existsb_app. cbn. apply orb_true_r. }
  clearbody pre. subst r. cbv zeta.
  destruct (result_of (postReview _ _ _) _) as [[]|o];
    cbn [fst snd bind log emit ret stop trace disk];
    rewrite <- !List.app_assoc, ?List.app_nil_r; reflexivity.
Qed.
Lemma quiet_not_host t e : quiet t -> In e t -> is_host_mutation e = false.
Proof.
  unfold quiet. rewrite List.Forall_forall. intros H Hin.
  specialize (H e Hin). now destruct e.
Qed.

(** A noisy event of a trace that starts with a quiet part stands after
    that part, and after a quiet event that follows it. *)
Lemma after_quiet_prefix (q : list Event) (x : Event) (rest pre post : list Event)
      (e : Event) :
  quiet q -> is_quiet e = false -> e <> x ->
  (pre ++ e :: post = q ++ x :: rest)%list ->
  exists mid, (pre = q ++ x :: mid)%list.
Proof.
  intros Hq He Hx. revert pre.
  induction q as [|a q IH]; intros pre Heq.
  - destruct pre as [|b pre]; cbn in Heq.
    + injection Heq as -> _. now contradiction Hx.
    + injection Heq as -> _. now exists pre.
  - apply List.Forall_cons_iff in Hq. destruct Hq as [Ha Hq].
    destruct pre as [|b pre]; cbn in Heq.
    + injection Heq as -> _. congruence.
    + injection Heq as -> Heq. destruct (IH Hq pre Heq) as [mid ->].
      now exists mid.
Qed.

(** C1: in every execution, each host-mutating call of delivery comes
    after the write of the review record: the command is then posting (the
    operator confirmed with at least one approved finding), the record was
    written to [.coder/reviews/pr-<n>-review.json] at an earlier point of
    the trace, and the file is on disk when the run ends, whatever the host
    answered to delivery. *)
Theorem record_written_before_delivery
        (env : Env) (pre post : list Event) (e : Event) :
  events env = (pre ++ e :: post)%list ->
  is_host_mutation e = true ->
  exists (p : PullRequest) (rf : ReviewFile) (approved : list ReviewFinding),
    posting env = Some (p, rf, approved)
    /\ In (EvWriteFile (reviewPath env p) (record_content rf)) pre
    /\ final_disk env !! reviewPath env p = Some (record_content rf).
Proof.
  intros Hev He.
  assert (Hnoisy : ~ quiet (events env)).
  { intros Hq. rewrite (quiet_not_host (events env) e Hq) in He; [discriminate|].
    rewrite Hev. apply List.in_elt. }
  destruct (posting env) as [[[p rf] approved]|] eqn:Hp.
  2:{ exfalso. apply Hnoisy. now apply run_quiet; left. }
  destruct (writable env) eqn:Hw.
  2:{ exfalso. apply Hnoisy. now apply run_quiet; right. }
  destruct (run_posting env p rf approved Hp Hw) as (q & Hq & _ & Hrun).
  exists p, rf, approved. split; [reflexivity|].
  unfold events, final_disk in *. rewrite Hrun in *. cbn [snd trace disk] in *.
  split; [|apply lookup_insert_eq].
  cbn [app] in Hev. symmetry in Hev.
  assert (Hnq : is_quiet e = false) by now destruct e.
  assert (Hne : e <> EvWriteFile (reviewPath env p) (record_content rf))
    by (intros ->; discriminate).
  destruct (after_quiet_prefix q _ _ pre post e Hq Hnq Hne Hev) as [mid ->].
  apply List.in_elt.
Qed.


Lemma record_written_before_delivery_witness :
  let env := Samples.env_post Samples.host_all_fail in
  exists e : Event,
    events env !! 35%nat = Some e
    /\ is_host_mutation e = true
    /\ exists p rf approved,
         posting env = Some (p, rf, approved)
         /\ In (EvWriteFile (reviewPath env p) (record_content rf))
               (take 35 (events env))
         /\ final_disk env !! reviewPath env p = Some (record_content rf).
Proof.
  cbv zeta.
  exists (comment_call Samples.review42 (flat_body (set_approved (Some true) Samples.finding1))).
  split; [vm_compute; reflexivity|]. split; [reflexivity|].
  apply (record_written_before_delivery
           (Samples.env_post Samples.host_all_fail)
           (take 35 (events (Samples.env_post Samples.host_all_fail)))
           (drop 36 (events (Samples.env_post Samples.host_all_fail)))
           (comment_call Samples.review42
              (flat_body (set_approved (Some true) Samples.finding1)))).
  - vm_compute. reflexivity.
  - reflexivity.
Defined.

Lemma silent_guidelines_warning d env : silent (guidelines_warning d env).
Proof.
  unfold guidelines_warning, silent.
  destruct (first_existing d (cwd env) (candidate_paths env)); repeat constructor.
Qed.

Ltac silent_tac :=
  unfold silent;
  repeat first
    [ apply List.Forall_nil
    | apply List.Forall_cons; [reflexivity|]
    | apply SortingFacts.Forall_app_intro
    | apply silent_guidelines_warning ].

(** C7: when the diff that was fetched is empty or white space only, the
    generation capability is never invoked; and with context gathering
    complete (pull request resolved, diff and file summary fetched) the
    command ends in the nothing-to-review state, a success with exit
    code 0. *)
Theorem empty_diff_skips_analysis (env : Env) (diff : string) :
  getPRDiff env = Some diff ->
  trim diff = "" ->
  Forall (fun e => is_analysis e = false) (events env)
  /\ (forall (p : PullRequest) (changedFiles : string),
         gathered env = Some (p, diff, changedFiles) ->
         outcome env = Done NothingToReview
         /\ exit_code (outcome env) = 0
         /\ quiet (events env)).
Proof.
  intros Hd Ht. unfold gathered, outcome, events, run, review. rewrite Hd.
  destruct (truthy (anthropicApiKey env)).
  2:{ repeat step. cbn. split; [silent_tac|]. intros ? ? [=]. }
  repeat step.
  destruct (resolvePR env) as [p0|].
  2:{ cbn. split; [silent_tac|]. intros ? ? [=]. }
  repeat step.
  destruct (getChangedFiles env) as [changed|].
  2:{ repeat step. cbn. split; [silent_tac|]. intros ? ? [=]. }
  repeat step. rewrite Ht. repeat step. cbn.
  split; [silent_tac|]. intros ? ? _. repeat split. quiet_tac.
Qed.

Lemma empty_diff_skips_analysis_witness :
  trim (String LF " ") = ""
  /\ outcome Samples.env_empty_diff = Done NothingToReview
  /\ Forall (fun e => is_analysis e = false) (events Samples.env_empty_diff).
Proof.
  split; [reflexivity|].
  destruct (empty_diff_skips_analysis Samples.env_empty_diff (String LF " ")
              eq_refl eq_refl) as [Hsilent Hdone].
  split; [|exact Hsilent].
  exact (proj1 (Hdone (mkPR 42 "main" "abc123" "octo/demo") "" eq_refl)).
Defined.

Lemma session_reported env p decided :
  session env = Some (p, decided) ->
  opt_post env = true
  /\ exists sorted,
       reported env = Some (p, sorted)
       /\ decided = decisions (answers env) 0 sorted.
Proof.
  unfold session. destruct (reported env) as [[p0 sorted]|]; [|discriminate].
  destruct (opt_post env); [|discriminate].
  intros [= <- <-]. split; [reflexivity|]. now exists sorted.
Qed.

(** C8: when the Approval Session ends with no finding approved, the
    command ends successfully in the nothing-approved state without a
    single host-mutating call, and without touching the disk. *)
Theorem nothing_approved_posts_nothing
        (env : Env) (p : PullRequest) (decided : list ReviewFinding) :
  session env = Some (p, decided) ->
  List.filter is_approved decided = [] ->
  outcome env = Done NothingApproved
  /\ exit_code (outcome env) = 0
  /\ Forall (fun e => is_host_mutation e = false) (events env)
  /\ final_disk env = files env.
Proof.
  intros Hs Hnone.
  destruct (session_reported env p decided Hs) as (Hpost & sorted & Hrep & ->).
  assert (Hp : posting env = None).
  { unfold posting. rewrite Hrep, Hpost. cbv zeta. now rewrite Hnone. }
  destruct (run_quiet env (or_introl Hp)) as [Hq Hd].
  assert (Ho : outcome env = Done NothingApproved).
  { clear Hq Hd Hp Hs. unfold outcome, run, review.
    unfold reported, gathered, guidelines_text in Hrep.
    destruct (truthy (anthropicApiKey env)); [|discriminate].
    destruct (resolvePR env) as [p0|]; [|discriminate].
    destruct (getPRDiff env) as [diff|]; [|discriminate].
    destruct (getChangedFiles env) as [changed|]; [|discriminate].
    repeat step.
    destruct (trim diff); [discriminate|].
    repeat step.
    destruct (analysis env _ _ _) as [found|msg]; [|discriminate].
    destruct found as [|f fs]; [discriminate|].
    assert (Heq : (p0, sortFindings (f :: fs)) = (p, sorted)) by congruence.
    apply pair_equal_spec in Heq. destruct Heq as [-> <-]. clear Hrep.
    repeat step. rewrite Hpost. cbn [negb]. repeat step.
    rewrite Hnone. repeat step. reflexivity. }
  rewrite Ho. repeat split; [|exact Hd].
  apply List.Forall_forall. intros e He. now apply (quiet_not_host (events env)).
Qed.

Lemma nothing_approved_posts_nothing_witness :
  outcome Samples.env_skip_all = Done NothingApproved
  /\ Forall (fun e => is_host_mutation e = false) (events Samples.env_skip_all).
Proof.
  destruct (nothing_approved_posts_nothing Samples.env_skip_all
              (mkPR 42 "main" "abc123" "octo/demo")
              [set_approved (Some false) Samples.finding1;
               set_approved (Some false) Samples.finding2]
              eq_refl eq_refl) as (Ho & _ & Hh & _).
  split; assumption.
Defined.

Lemma before_noise (q rest pre post : list Event) (e : Event) :
  quiet q -> is_quiet e = false ->
  (pre ++ e :: post = q ++ rest)%list ->
  exists mid, (pre = q ++ mid)%list.
Proof.
  intros Hq He. revert pre.
  induction q as [|a q IH]; intros pre Heq.
  - now exists pre.
  - apply List.Forall_cons_iff in Hq. destruct Hq as [Ha Hq].
    destruct pre as [|b pre]; cbn in Heq.
    + injection Heq as -> _. congruence.
    + injection Heq as -> Heq. destruct (IH Hq pre Heq) as [mid ->].
      now exists mid.
Qed.

(** C10: when the operator declines the final confirmation, the command
    ends successfully in the cancelled state; the prompt was shown, no
    record was written, no host-mutating call was made and the disk is as
    it was.  In any execution whatsoever, the write of the record and every
    delivery call come after a confirmation prompt. *)
Theorem declined_confirmation_changes_nothing
        (env : Env) (p : PullRequest) (decided : list ReviewFinding) :
  session env = Some (p, decided) ->
  List.filter is_approved decided <> [] ->
  shouldPost env = false ->
  (outcome env = Done Cancelled
   /\ exit_code (outcome env) = 0
   /\ existsb is_confirmation (events env) = true
   /\ quiet (events env)
   /\ final_disk env = files env)
  /\ (forall (env' : Env) (pre post : list Event) (e : Event),
         events env' = (pre ++ e :: post)%list ->
         is_quiet e = false ->
         existsb is_confirmation pre = true).
Proof.
  intros Hs Hsome Hno. split.
  - destruct (session_reported env p decided Hs) as (Hpost & sorted & Hrep & ->).
    assert (Hp : posting env = None).
    { unfold posting. rewrite Hrep, Hpost, Hno. cbv zeta.
      now destruct (List.filter is_approved _). }
    destruct (run_quiet env (or_introl Hp)) as [Hq Hd].
    assert (Ho : outcome env = Done Cancelled
                 /\ existsb is_confirmation (events env) = true).
    { clear Hq Hd Hp Hs. unfold outcome, events, run, review.
      unfold reported, gathered, guidelines_text in Hrep.
      destruct (truthy (anthropicApiKey env)); [|discriminate].
      destruct (resolvePR env) as [p0|]; [|discriminate].
      destruct (getPRDiff env) as [diff|]; [|discriminate].
      destruct (getChangedFiles env) as [changed|]; [|discriminate].
      repeat step.
      destruct (trim diff); [discriminate|].
      repeat step.
      destruct (analysis env _ _ _) as [found|msg]; [|discriminate].
      destruct found as [|f fs]; [discriminate|].
      assert (Heq : (p0, sortFindings (f :: fs)) = (p, sorted)) by congruence.
    apply pair_equal_spec in Heq. destruct Heq as [-> <-]. clear Hrep.
      repeat step. rewrite Hpost. cbn [negb]. repeat step.
      destruct (List.filter is_approved _) as [|ap0 aps]; [congruence|].
      repeat step. rewrite Hno. cbn [negb]. repeat step.
      cbn [fst snd stop trace]. split; [reflexivity|].
      rewrite !List.existsb_app. cbn. now rewrite !orb_true_r. }
    destruct Ho as [Ho Hc]. rewrite Ho. auto.
  - intros env' pre post e Hev He.
    assert (Hnoisy : ~ quiet (events env')).
    { intros Hq. unfold quiet in Hq. rewrite List.Forall_forall in Hq.
      rewrite (Hq e) in He; [discriminate|]. rewrite Hev. apply List.in_elt. }
    destruct (posting env') as [[[p' rf] approved]|] eqn:Hp.
    2:{ exfalso. apply Hnoisy. now apply run_quiet; left. }
    destruct (writable env') eqn:Hw.
    2:{ exfalso. apply Hnoisy. now apply run_quiet; right. }
    destruct (run_posting env' p' rf approved Hp Hw) as (q & Hq & Hc & Hrun).
    unfold events in Hev. rewrite Hrun in Hev. cbn [snd trace] in Hev.
    symmetry in Hev.
    destruct (before_noise q _ pre post e Hq He Hev) as [mid ->].
    rewrite List.existsb_app, Hc. reflexivity.
Qed.

Lemma declined_confirmation_changes_nothing_witness :
  outcome Samples.env_declined = Done Cancelled
  /\ final_disk Samples.env_declined = files Samples.env_declined.
Proof.
  assert (Hsome : List.filter is_approved [set_approved (Some true) Samples.finding1]
                  <> []) by discriminate.
  destruct (declined_confirmation_changes_nothing Samples.env_declined
              (mkPR 42 "main" "abc123" "octo/demo")
              [set_approved (Some true) Samples.finding1]
              eq_refl Hsome eq_refl) as ((Ho & _ & _ & _ & Hd) & _).
  split; assumption.
Defined.







End ReviewFacts.

Module JsonFacts.
Import Json.
#[local] Arguments String.append !s1 s2 : simpl nomatch.

(** *** Texts *)

Lemma append_assoc (a b c : string) : (a ++ b) ++ c = a ++ (b ++ c).
Proof. induction a as [|x a IH]; simpl; [reflexivity|]. now rewrite IH. Qed.

Lemma append_nil_r (a : string) : a ++ "" = a.
Proof. induction a as [|x a IH]; simpl; [reflexivity|]. now rewrite IH. Qed.

Lemma length_append (a b : string) :
  String.length (a ++ b) = (String.length a + String.length b)%nat.
Proof. induction a as [|x a IH]; simpl; [reflexivity|]. now rewrite IH. Qed.

Lemma skip_ws_spaces n s : skip_ws (spaces n ++ s) = skip_ws s.
Proof. induction n as [|n IH]; simpl; [reflexivity|exact IH]. Qed.

Lemma skip_ws_newline indent d s : skip_ws (newline indent d ++ s) = skip_ws s.
Proof.
  unfold newline. destruct indent; [reflexivity|].
  simpl. apply skip_ws_spaces.
Qed.

(** *** Numbers *)

Lemma number_stop_not_digit rest :
  number_stop rest = true ->
  match rest with EmptyString => True | String c _ => digit c = None end.
Proof.
  destruct rest as [|c r]; [trivial|]. cbn [number_stop].
  destruct (digit c); [discriminate|reflexivity].
Qed.

Lemma read_digits_string_of_uint (u : Decimal.uint) (rest : string) :
  number_stop rest = true ->
  read_digits (NilEmpty.string_of_uint u ++ rest) = (u, rest).
Proof.
  intros Hrest. apply number_stop_not_digit in Hrest.
  induction u; simpl; try (rewrite IHu; reflexivity).
  destruct rest as [|c r]; simpl in *; [reflexivity|]. now rewrite Hrest.
Qed.

Lemma int_part_ok_unorm (u : Decimal.uint) :
  Decimal.unorm u = u -> int_part_ok u = true.
Proof.
  destruct u as [|u| | | | | | | | |]; try reflexivity.
  - discriminate.
  - intros H. destruct u as [|u'|u'|u'|u'|u'|u'|u'|u'|u'|u']; try reflexivity.
    all: exfalso; rewrite DecimalFacts.unorm_D0 in H;
      match type of H with
      | Decimal.unorm ?x = _ =>
          assert (Hx : x <> Decimal.Nil) by discriminate;
          pose proof (DecimalFacts.nb_digits_unorm x Hx) as Hle
      end;
      rewrite H in Hle; simpl in Hle; lia.
Qed.

Lemma int_part_ok_to_uint (n : N) : int_part_ok (N.to_uint n) = true.
Proof.
  apply int_part_ok_unorm.
  rewrite <- (DecimalN.Unsigned.of_to n) at 2.
  symmetry. apply DecimalN.Unsigned.to_of.
Qed.

Lemma read_frac_none rest :
  number_stop rest = true -> read_frac rest = Some (Decimal.Nil, rest).
Proof.
  destruct rest as [|c r]; [reflexivity|]. cbn [number_stop read_frac].
  destruct (digit c); [discriminate|].
  destruct (Ascii.eqb c "."); [discriminate|reflexivity].
Qed.

Lemma read_exp_none rest :
  number_stop rest = true -> read_exp rest = Some (0, rest).
Proof.
  destruct rest as [|c r]; [reflexivity|]. cbn [number_stop read_exp].
  destruct (digit c); [discriminate|].
  destruct (Ascii.eqb c "."), (Ascii.eqb c "e"), (Ascii.eqb c "E");
    try discriminate; reflexivity.
Qed.

(** The digits of a natural number, read back. *)
Lemma read_natural (neg : bool) (n : N) (rest : string) :
  number_stop rest = true ->
  read_unsigned neg (N_to_string n ++ rest)
  = Some (JNum (if neg then - Z.of_N n else Z.of_N n) 0, rest).
Proof.
  intros Hrest. unfold N_to_string, read_unsigned.
  rewrite (read_digits_string_of_uint _ rest Hrest), int_part_ok_to_uint.
  rewrite (read_frac_none rest Hrest), (read_exp_none rest Hrest).
  rewrite DecimalN.Unsigned.of_to.
  cbn [Decimal.nb_digits N.of_uint Pos.of_uint Z.of_nat Z.of_N].
  change (Z.of_nat 0) with 0. now rewrite Z.pow_0_r, Z.mul_1_r, Z.add_0_r.
Qed.

Lemma N_to_string_head (n : N) (rest : string) :
  exists c s, N_to_string n ++ rest = String c s /\ digit c <> None.
Proof.
  unfold N_to_string. pose proof (int_part_ok_to_uint n) as Hok.
  destruct (N.to_uint n); [discriminate Hok|..];
    eexists; eexists; (split; [reflexivity|discriminate]).
Qed.

Lemma digit_not_minus c : digit c <> None -> Ascii.eqb c "-" = false.
Proof.
  intros H. destruct (Ascii.eqb_spec c "-") as [Heq|]; [|reflexivity].
  subst c. now contradiction H.
Qed.

(** An integer, printed and read back. *)
Lemma read_number_integer (m : Z) (rest : string) :
  number_stop rest = true ->
  read_number (Z_to_string m ++ rest) = Some (JNum m 0, rest).
Proof.
  intros Hrest. unfold Z_to_string.
  destruct (Z.ltb_spec m 0) as [Hneg|Hpos].
  - cbn [String.append read_number]. change (Ascii.eqb "-" "-") with true.
    cbv iota. rewrite (read_natural true _ rest Hrest).
    rewrite N2Z.inj_abs_N. do 2 f_equal. f_equal. lia.
  - destruct (N_to_string_head (Z.abs_N m) rest) as (c & s & Hs & Hc).
    unfold read_number. rewrite Hs, (digit_not_minus c Hc), <- Hs.
    rewrite (read_natural false _ rest Hrest), N2Z.inj_abs_N.
    do 2 f_equal. f_equal. lia.
Qed.

Lemma Z_to_string_head (m : Z) (rest : string) :
  exists c s,
    Z_to_string m ++ rest = String c s /\ (digit c <> None \/ c = "-"%char).
Proof.
  unfold Z_to_string. destruct (m <? 0).
  - eexists; eexists; split; [reflexivity|now right].
  - destruct (N_to_string_head (Z.abs_N m) rest) as (c & s & Hs & Hc).
    exists c, s. auto.
Qed.

(** What a digit or a minus sign is not. *)
Lemma number_head_cases c :
  digit c <> None \/ c = "-"%char ->
  In c ["0"; "1"; "2"; "3"; "4"; "5"; "6"; "7"; "8"; "9"; "-"]%char.
Proof.
  intros [H| ->]; [|cbn; tauto]. unfold digit in H.
  repeat match type of H with
         | context [Ascii.eqb c ?y] =>
             let Heq := fresh "Heq" in
             destruct (Ascii.eqb_spec c y) as [Heq|_]; [subst c; cbn; tauto|]
         end.
  now contradiction H.
Qed.

Lemma parse_value_number fuel c r :
  digit c <> None \/ c = "-"%char ->
  parse_value (S fuel) (String c r) = read_number (String c r).
Proof.
  intros H. apply number_head_cases in H. cbn [In] in H.
  repeat (destruct H as [<-|H]; [reflexivity|]). contradiction.
Qed.

(** *** Strings *)

Lemma read_string_escape_char (c : ascii) (rest : string) :
  read_string (escape_char c ++ rest) = cons_char c (read_string rest).
Proof. destruct c as [[] [] [] [] [] [] [] []]; reflexivity. Qed.

Lemma read_string_escape (s rest : string) :
  read_string (escape s ++ String QUOTE rest) = Some (s, rest).
Proof.
  induction s as [|c s IH]; [reflexivity|].
  cbn [escape]. now rewrite append_assoc, read_string_escape_char, IH.
Qed.

(** *** The parser, one step at a time *)

Lemma parse_value_ws fuel s1 s2 :
  skip_ws s1 = skip_ws s2 -> parse_value fuel s1 = parse_value fuel s2.
Proof. intros H. destruct fuel; [reflexivity|]. cbn [parse_value]. now rewrite H. Qed.

Lemma parse_elements_ws fuel s1 s2 :
  skip_ws s1 = skip_ws s2 -> parse_elements fuel s1 = parse_elements fuel s2.
Proof. intros H. destruct fuel; [reflexivity|]. cbn [parse_elements]. now rewrite H. Qed.

Lemma parse_member_ws fuel s1 s2 :
  skip_ws s1 = skip_ws s2 -> parse_member fuel s1 = parse_member fuel s2.
Proof. intros H. destruct fuel; [reflexivity|]. cbn [parse_member]. now rewrite H. Qed.

Lemma parse_members_ws fuel s1 s2 :
  skip_ws s1 = skip_ws s2 -> parse_members fuel s1 = parse_members fuel s2.
Proof. intros H. destruct fuel; [reflexivity|]. cbn [parse_members]. now rewrite H. Qed.

Lemma parse_array fuel r c s :
  skip_ws r = String c s -> Ascii.eqb c "]" = false ->
  parse_value (S fuel) (String "[" r) =
    match parse_value fuel r with
    | Some (v, r1) =>
        match parse_elements fuel r1 with
        | Some (vs, r2) => Some (JArr (v :: vs), r2)
        | None => None
        end
    | None => None
    end.
Proof.
  intros Hr Hc.
  change (parse_value (S fuel) (String "[" r))
    with (match skip_ws r with
          | String c' r' =>
              if Ascii.eqb c' "]" then Some (JArr [], r')
              else
                match parse_value fuel r with
                | Some (v, r1) =>
                    match parse_elements fuel r1 with
                    | Some (vs, r2) => Some (JArr (v :: vs), r2)
                    | None => None
                    end
                | None => None
                end
          | EmptyString => None
          end).
  now rewrite Hr, Hc.
Qed.

Lemma parse_elements_close fuel s rest :
  skip_ws s = String "]" rest -> parse_elements (S fuel) s = Some ([], rest).
Proof. intros H. cbn [parse_elements]. now rewrite H. Qed.

Lemma parse_elements_comma fuel r :
  parse_elements (S fuel) (String "," r) =
    match parse_value fuel r with
    | Some (v, r1) =>
        match parse_elements fuel r1 with
        | Some (vs, r2) => Some (v :: vs, r2)
        | None => None
        end
    | None => None
    end.
Proof. reflexivity. Qed.

Lemma parse_object fuel r s :
  skip_ws r = String QUOTE s ->
  parse_value (S fuel) (String "{" r) =
    match parse_member fuel r with
    | Some (kv, r1) =>
        match parse_members fuel r1 with
        | Some (ms, r2) => Some (JObj (obj_of_members (kv :: ms)), r2)
        | None => None
        end
    | None => None
    end.
Proof.
  intros Hr.
  change (parse_value (S fuel) (String "{" r))
    with (match skip_ws r with
          | String c' r' =>
              if Ascii.eqb c' "}" then Some (JObj [], r')
              else
                match parse_member fuel r with
                | Some (kv, r1) =>
                    match parse_members fuel r1 with
                    | Some (ms, r2) => Some (JObj (obj_of_members (kv :: ms)), r2)
                    | None => None
                    end
                | None => None
                end
          | EmptyString => None
          end).
  now rewrite Hr.
Qed.

Lemma parse_members_close fuel s rest :
  skip_ws s = String "}" rest -> parse_members (S fuel) s = Some ([], rest).
Proof. intros H. cbn [parse_members]. now rewrite H. Qed.

Lemma parse_members_comma fuel r :
  parse_members (S fuel) (String "," r) =
    match parse_member fuel r with
    | Some (kv, r1) =>
        match parse_members fuel r1 with
        | Some (ms, r2) => Some (kv :: ms, r2)
        | None => None
        end
    | None => None
    end.
Proof. reflexivity. Qed.

Lemma quote_append (k rest : string) :
  quote k ++ rest = String QUOTE (escape k ++ String QUOTE rest).
Proof. unfold quote. cbn [String.append]. now rewrite append_assoc. Qed.

Lemma skip_ws_colon indent s :
  exists pad, skip_ws (colon indent ++ s) = String ":" (pad ++ s) /\ skip_ws (pad ++ s) = skip_ws s.
Proof.
  destruct indent; [exists ""|exists " "]; split; reflexivity.
Qed.

(** A member [key: value], given that the value reads back. *)
Lemma parse_member_printed fuel indent d k v text rest :
  parse_value fuel (text ++ rest) = Some (v, rest) ->
  parse_member (S fuel)
    (newline indent d ++ quote k ++ colon indent ++ text ++ rest)
  = Some ((k, v), rest).
Proof.
  intros Hv. cbn [parse_member].
  rewrite skip_ws_newline, quote_append. cbn [skip_ws].
  change (is_ws QUOTE) with false. cbv iota.
  change (Ascii.eqb QUOTE QUOTE) with true. cbv iota.
  rewrite read_string_escape.
  destruct (skip_ws_colon indent (text ++ rest)) as (pad & -> & Hpad).
  change (Ascii.eqb ":" ":") with true. cbv iota.
  now rewrite (parse_value_ws fuel _ _ Hpad), Hv.
Qed.


(** *** Induction on values *)

Lemma json_nested_ind (P : json -> Prop) :
  P JNull ->
  (forall b, P (JBool b)) ->
  (forall m e, P (JNum m e)) ->
  (forall s, P (JStr s)) ->
  (forall vs, Forall P vs -> P (JArr vs)) ->
  (forall kvs, Forall (fun kv => P (snd kv)) kvs -> P (JObj kvs)) ->
  forall v, P v.
Proof.
  intros Hnull Hbool Hnum Hstr Harr Hobj.
  fix IH 1. intros [ |b|m e|s|vs|kvs].
  - exact Hnull.
  - apply Hbool.
  - apply Hnum.
  - apply Hstr.
  - apply Harr. induction vs as [|x vs IHvs]; constructor; [apply IH|exact IHvs].
  - apply Hobj. induction kvs as [|[k x] kvs IHkvs]; constructor;
      [apply IH|exact IHkvs].
Qed.

(** *** Objects *)

Lemma obj_set_fresh k v kvs :
  existsb (String.eqb k) (map fst kvs) = false ->
  obj_set k v kvs = (kvs ++ [(k, v)])%list.
Proof.
  induction kvs as [|[k' v'] kvs IH]; cbn; [reflexivity|].
  rewrite String.eqb_sym. destruct (String.eqb k' k); cbn; [discriminate|].
  intros H. now rewrite IH.
Qed.

Lemma existsb_app_false {A} (f : A -> bool) l1 l2 :
  existsb f l1 = false -> existsb f l2 = false -> existsb f (l1 ++ l2) = false.
Proof. intros H1 H2. now rewrite List.existsb_app, H1, H2. Qed.

Lemma fold_obj_set_distinct (ms acc : list (string * json)) :
  distinct (map fst ms) = true ->
  (forall k, In k (map fst ms) -> existsb (String.eqb k) (map fst acc) = false) ->
  fold_left (fun o kv => obj_set (fst kv) (snd kv) o) ms acc = (acc ++ ms)%list.
Proof.
  revert acc. induction ms as [|[k v] ms IH]; intros acc Hd Hacc; cbn.
  - now rewrite List.app_nil_r.
  - cbn in Hd. apply andb_true_iff in Hd. destruct Hd as [Hk Hd].
    apply negb_true_iff in Hk.
    rewrite obj_set_fresh by (apply Hacc; now left).
    rewrite IH; [now rewrite <- List.app_assoc|exact Hd|].
    intros k' Hk'. rewrite List.map_app. apply existsb_app_false.
    + apply Hacc. now right.
    + cbn. rewrite orb_false_r.
      destruct (String.eqb_spec k' k) as [->|]; [|reflexivity].
      exfalso. apply (proj1 (List.existsb_exists _ _)) in Hk || idtac.
      rewrite <- not_true_iff_false in Hk. apply Hk.
      apply List.existsb_exists. exists k. split; [exact Hk'|apply String.eqb_refl].
Qed.

Lemma obj_of_members_distinct (ms : list (string * json)) :
  distinct (map fst ms) = true -> obj_of_members ms = ms.
Proof.
  intros H. unfold obj_of_members. rewrite fold_obj_set_distinct; auto.
Qed.


(** *** Values read back *)

Lemma number_head_plain c :
  digit c <> None \/ c = "-"%char ->
  is_ws c = false /\ Ascii.eqb c "]" = false.
Proof.
  intros H. apply number_head_cases in H. cbn [In] in H.
  repeat (destruct H as [<-|H]; [split; reflexivity|]). contradiction.
Qed.

(** The text of a value starts with a character that is neither white
    space nor a closing bracket. *)
Lemma stringify_head indent d v rest :
  exists c s,
    stringify_at indent d v ++ rest = String c s
    /\ is_ws c = false /\ Ascii.eqb c "]" = false.
Proof.
  destruct v as [ |[]|m e|s|[|x xs]|[|kx ms]]; cbn [stringify_at];
    try (eexists; eexists; split; [reflexivity|split; reflexivity]).
  unfold number_to_string. destruct (e =? 0).
  - destruct (Z_to_string_head m rest) as (c & s & Hs & Hc).
    exists c, s. split; [exact Hs|]. now apply number_head_plain.
  - rewrite append_assoc.
    destruct (Z_to_string_head m (String "e" (Z_to_string e) ++ rest))
      as (c & s & Hs & Hc).
    exists c, s. split; [exact Hs|]. now apply number_head_plain.
Qed.

Lemma skip_ws_stringify indent d v rest :
  exists c s,
    skip_ws (stringify_at indent d v ++ rest) = String c s
    /\ Ascii.eqb c "]" = false.
Proof.
  destruct (stringify_head indent d v rest) as (c & s & Hs & Hws & Hc).
  exists c, s. rewrite Hs. cbn [skip_ws]. now rewrite Hws.
Qed.

Lemma number_stop_close indent d c rest :
  c = "]"%char \/ c = "}"%char ->
  number_stop (newline indent d ++ String c rest) = true.
Proof. intros [-> | ->]; destruct indent; reflexivity. Qed.

Lemma one_char_append (c : ascii) (t : string) : String c "" ++ t = String c t.
Proof. reflexivity. Qed.

Lemma flat_cons (a : string) (l : list string) : flat (a :: l) = a ++ flat l.
Proof. reflexivity. Qed.

Lemma flat_nil : flat [] = "".
Proof. reflexivity. Qed.

Lemma list_sum_cons (a : nat) (l : list nat) :
  list_sum (a :: l) = (a + list_sum l)%nat.
Proof. reflexivity. Qed.

Lemma parse_elements_printed indent d (xs : list json) :
  Forall reads_back xs ->
  forall fuel rest,
    (list_sum (map (fun x => S (size x)) xs) < fuel)%nat ->
    parse_elements fuel
      (flat (map (fun y => "," ++ newline indent (S d)
                               ++ stringify_at indent (S d) y) xs)
       ++ newline indent d ++ String "]" rest)
    = Some (xs, rest)
    /\ number_stop
         (flat (map (fun y => "," ++ newline indent (S d)
                                  ++ stringify_at indent (S d) y) xs)
          ++ newline indent d ++ String "]" rest) = true.
Proof.
  induction 1 as [|x xs Hx _ IH]; intros fuel rest Hfuel;
    cbn [map]; rewrite ?flat_cons, ?flat_nil; cbn [map] in Hfuel;
    rewrite ?list_sum_cons in Hfuel.
  - destruct fuel as [|fuel]; [lia|]. cbn [String.append]. split.
    + apply parse_elements_close. now rewrite skip_ws_newline.
    + apply number_stop_close. now left.
  - destruct fuel as [|fuel]; [lia|].
    rewrite !append_assoc, one_char_append. split; [|reflexivity].
    rewrite parse_elements_comma.
    destruct (IH fuel rest) as [Hrest Hstop]; [lia|].
    rewrite (parse_value_ws fuel _ _ (skip_ws_newline _ _ _)).
    rewrite (Hx indent (S d) fuel _ ltac:(lia) Hstop).
    now rewrite Hrest.
Qed.

Lemma parse_members_printed indent d (ms : list (string * json)) :
  Forall (fun kv => reads_back (snd kv)) ms ->
  forall fuel rest,
    (list_sum (map (fun kv => S (S (size (snd kv)))) ms) < fuel)%nat ->
    parse_members fuel
      (flat (map (fun ky => "," ++ newline indent (S d) ++ quote (fst ky)
                                ++ colon indent
                                ++ stringify_at indent (S d) (snd ky)) ms)
       ++ newline indent d ++ String "}" rest)
    = Some (ms, rest)
    /\ number_stop
         (flat (map (fun ky => "," ++ newline indent (S d) ++ quote (fst ky)
                                   ++ colon indent
                                   ++ stringify_at indent (S d) (snd ky)) ms)
          ++ newline indent d ++ String "}" rest) = true.
Proof.
  induction 1 as [|[k x] ms Hx _ IH]; intros fuel rest Hfuel;
    cbn [map fst snd]; rewrite ?flat_cons, ?flat_nil; cbn [map fst snd] in Hfuel;
    rewrite ?list_sum_cons in Hfuel.
  - destruct fuel as [|fuel]; [lia|]. cbn [String.append]. split.
    + apply parse_members_close. now rewrite skip_ws_newline.
    + apply number_stop_close. now right.
  - destruct fuel as [|fuel]; [lia|].
    rewrite !append_assoc, one_char_append. split; [|reflexivity].
    rewrite parse_members_comma.
    destruct (IH fuel rest) as [Hrest Hstop]; [lia|].
    destruct fuel as [|fuel]; [lia|]. cbn [snd] in Hx.
    rewrite (parse_member_printed fuel indent (S d) k x
               (stringify_at indent (S d) x) _
               (Hx indent (S d) fuel _ ltac:(lia) Hstop)).
    now rewrite Hrest.
Qed.

(** Every well-formed value reads back. *)
Lemma wf_reads_back (v : json) : json_wf v = true -> reads_back v.
Proof.
  induction v as [ |b|m e|s|vs IH|kvs IH] using json_nested_ind;
    intros Hwf indent d fuel rest Hfuel Hstop;
    (destruct fuel as [|fuel]; [lia|]).
  - reflexivity.
  - destruct b; reflexivity.
  - cbn [json_wf] in Hwf. apply andb_true_iff in Hwf. destruct Hwf as [He _].
    apply Z.eqb_eq in He. subst e. cbn [stringify_at]. unfold number_to_string.
    cbn [Z.eqb].
    destruct (Z_to_string_head m rest) as (c & s' & Hs & Hc).
    rewrite Hs, (parse_value_number fuel c s' Hc), <- Hs.
    now apply read_number_integer.
  - cbn [stringify_at]. rewrite quote_append. cbn [parse_value skip_ws].
    change (is_ws QUOTE) with false. cbv iota.
    change (Ascii.eqb QUOTE "[") with false.
    change (Ascii.eqb QUOTE "{") with false.
    change (Ascii.eqb QUOTE QUOTE) with true. cbv iota.
    now rewrite read_string_escape.
  - cbn [json_wf] in Hwf.
    assert (Hall : Forall reads_back vs).
    { clear Hfuel. induction IH as [|x vs Hx _ IHvs]; [constructor|].
      cbn in Hwf. apply andb_true_iff in Hwf. destruct Hwf as [Hwx Hwvs].
      constructor; [now apply Hx|now apply IHvs]. }
    clear IH Hwf. destruct Hall as [|x xs Hx Hxs]; [reflexivity|].
    cbn [stringify_at]. cbn [size map] in Hfuel. rewrite list_sum_cons in Hfuel.
    rewrite !append_assoc, !one_char_append.
    destruct (parse_elements_printed indent d xs Hxs fuel rest) as [Hrest Hstop'];
      [lia|].
    destruct (skip_ws_stringify indent (S d) x
                (flat (map (fun y => "," ++ newline indent (S d)
                                         ++ stringify_at indent (S d) y) xs)
                 ++ newline indent d ++ String "]" rest)) as (c & s' & Hs & Hc).
    erewrite parse_array; [|rewrite skip_ws_newline; exact Hs|exact Hc].
    rewrite (parse_value_ws fuel _ _ (skip_ws_newline _ _ _)).
    rewrite (Hx indent (S d) fuel _ ltac:(lia) Hstop').
    now rewrite Hrest.
  - cbn [json_wf] in Hwf.
    apply andb_true_iff in Hwf. destruct Hwf as [Hwf Hvals].
    apply andb_true_iff in Hwf. destruct Hwf as [Hdist _].
    assert (Hall : Forall (fun kv => reads_back (snd kv)) kvs).
    { clear Hfuel Hdist. induction IH as [|kx ms Hx _ IHms]; [constructor|].
      cbn in Hvals. apply andb_true_iff in Hvals. destruct Hvals as [Hwx Hwms].
      constructor; [now apply Hx|now apply IHms]. }
    clear IH Hvals.
    destruct Hall as [|[k x] ms Hx Hms]; [reflexivity|].
    cbn [stringify_at fst snd]. cbn [size map fst snd] in Hfuel.
    rewrite list_sum_cons in Hfuel.
    rewrite !append_assoc, !one_char_append.
    destruct (parse_members_printed indent d ms Hms fuel rest) as [Hrest Hstop'];
      [lia|].
    erewrite parse_object
      by (rewrite skip_ws_newline, quote_append; reflexivity).
    destruct fuel as [|fuel]; [lia|]. cbn [snd] in Hx.
    rewrite (parse_member_printed fuel indent (S d) k x
               (stringify_at indent (S d) x) _
               (Hx indent (S d) fuel _ ltac:(lia) Hstop')).
    rewrite Hrest. now rewrite (obj_of_members_distinct _ Hdist).
Qed.


(** *** Fuel: the text of a value is at least as long as its nesting *)

Lemma size_le_length (v : json) :
  forall indent d, (size v <= String.length (stringify_at indent d v))%nat.
Proof.
  induction v as [ |b|m e|s|vs IH|kvs IH] using json_nested_ind;
    intros indent d; try (cbn [size]; lia).
  - destruct IH as [|x xs Hx Hxs]; [cbn; lia|].
    cbn [stringify_at size map]. rewrite list_sum_cons.
    rewrite !length_append. specialize (Hx indent (S d)).
    assert (Hsum : (list_sum (map (fun x => S (size x)) xs)
                    <= String.length
                         (flat (map (fun y => "," ++ newline indent (S d)
                                                  ++ stringify_at indent (S d) y)
                                    xs)))%nat).
    { clear Hx. induction Hxs as [|y ys Hy _ IHys]; [cbn; lia|].
      cbn [map]. rewrite list_sum_cons, flat_cons, !length_append.
      specialize (Hy indent (S d)). cbn [String.length]. lia. }
    cbn [String.length]. lia.
  - destruct IH as [|[k x] ms Hx Hms]; [cbn; lia|].
    cbn [stringify_at size map fst snd]. rewrite list_sum_cons.
    rewrite !length_append. cbn [snd] in Hx. specialize (Hx indent (S d)).
    assert (Hq : forall k, (2 <= String.length (quote k))%nat).
    { intros k0. unfold quote. cbn [String.length]. rewrite length_append.
      cbn [String.length]. lia. }
    assert (Hsum : (list_sum (map (fun kv => S (S (size (snd kv)))) ms)
                    <= String.length
                         (flat (map (fun ky => "," ++ newline indent (S d)
                                                   ++ quote (fst ky) ++ colon indent
                                                   ++ stringify_at indent (S d) (snd ky))
                                    ms)))%nat).
    { clear Hx. induction Hms as [|[k' y] ys Hy _ IHys]; [cbn; lia|].
      cbn [map fst snd]. rewrite list_sum_cons, flat_cons, !length_append.
      cbn [snd] in Hy. specialize (Hy indent (S d)). specialize (Hq k').
      cbn [String.length]. lia. }
    specialize (Hq k). cbn [String.length]. lia.
Qed.

(** [JSON.parse] undoes [JSON.stringify], at any indentation, on
    well-formed values. *)
Lemma JSON_parse_stringify_at (indent : nat) (v : json) :
  json_wf v = true -> JSON_parse (stringify_at indent 0 v) = Some v.
Proof.
  intros Hwf. unfold JSON_parse.
  pose proof (wf_reads_back v Hwf indent 0%nat
                (S (String.length (stringify_at indent 0 v))) "") as H.
  rewrite append_nil_r in H. rewrite H; [reflexivity| |reflexivity].
  pose proof (size_le_length v indent 0). lia.
Qed.

Lemma JSON_parse_stringify (v : json) :
  json_wf v = true -> JSON_parse (JSON_stringify v) = Some v.
Proof. apply JSON_parse_stringify_at. Qed.

Lemma JSON_parse_stringify_indent (indent : nat) (v : json) :
  json_wf v = true -> JSON_parse (JSON_stringify_indent indent v) = Some v.
Proof. apply JSON_parse_stringify_at. Qed.

(** *** Fuel *)

Lemma skip_ws_length s : (String.length (skip_ws s) <= String.length s)%nat.
Proof.
  induction s as [|c s IH]; [reflexivity|]. cbn [skip_ws].
  destruct (is_ws c); cbn [String.length]; lia.
Qed.

Lemma strip_prefix_length p s rest :
  strip_prefix p s = Some rest -> (String.length rest <= String.length s)%nat.
Proof.
  revert s. induction p as [|a p IH]; intros [|b s]; cbn; try discriminate.
  - intros [= <-]. reflexivity.
  - intros [= <-]. reflexivity.
  - destruct (Ascii.eqb a b); [|discriminate]. intros H.
    specialize (IH s H). lia.
Qed.

Lemma read_digits_length s :
  (String.length (snd (read_digits s)) <= String.length s)%nat.
Proof.
  induction s as [|c s IH]; [reflexivity|]. cbn [read_digits].
  destruct (digit c); [|reflexivity].
  destruct (read_digits s) as [dg r]. cbn [snd String.length] in *. lia.
Qed.

Lemma read_digits_progress s :
  fst (read_digits s) <> Decimal.Nil ->
  (String.length (snd (read_digits s)) < String.length s)%nat.
Proof.
  destruct s as [|c s]; [now intros H|]. cbn [read_digits].
  destruct (digit c); [|now intros H]. intros _.
  pose proof (read_digits_length s) as H.
  destruct (read_digits s) as [dg r]. cbn [snd String.length] in *. lia.
Qed.

Lemma read_frac_length s u rest :
  read_frac s = Some (u, rest) -> (String.length rest <= String.length s)%nat.
Proof.
  destruct s as [|c s]; cbn [read_frac]; [intros [= _ <-]; reflexivity|].
  destruct (Ascii.eqb c ".").
  - pose proof (read_digits_length s) as H.
    destruct (read_digits s) as [d r]. cbn [snd] in H.
    destruct d; try discriminate; intros [= _ <-]; cbn [String.length]; lia.
  - intros [= _ <-]. reflexivity.
Qed.

Lemma read_exp_length s z rest :
  read_exp s = Some (z, rest) -> (String.length rest <= String.length s)%nat.
Proof.
  destruct s as [|c s]; cbn [read_exp]; [intros [= _ <-]; reflexivity|].
  destruct (Ascii.eqb c "e" || Ascii.eqb c "E"); [|intros [= _ <-]; reflexivity].
  assert (Hgen : forall r1, (String.length r1 <= String.length s)%nat ->
            forall neg : bool,
            (let (u, r2) := read_digits r1 in
             match u with
             | Decimal.Nil => None
             | _ => Some (if neg then - Z.of_N (N.of_uint u)
                          else Z.of_N (N.of_uint u), r2)
             end) = Some (z, rest) ->
            (String.length rest <= String.length (String c s))%nat).
  { intros r1 Hr1 neg. pose proof (read_digits_length r1) as H.
    destruct (read_digits r1) as [dg r2]. cbn [snd] in H.
    destruct dg; try discriminate; intros [= _ <-]; cbn [String.length]; lia. }
  destruct s as [|sg s0].
  - exact (Hgen "" ltac:(reflexivity) false).
  - destruct (Ascii.eqb sg "-"); [exact (Hgen s0 ltac:(cbn; lia) true)|].
    destruct (Ascii.eqb sg "+"); [exact (Hgen s0 ltac:(cbn; lia) false)|].
    exact (Hgen (String sg s0) ltac:(reflexivity) false).
Qed.

Lemma read_unsigned_progress neg s v rest :
  read_unsigned neg s = Some (v, rest) ->
  (String.length rest < String.length s)%nat.
Proof.
  unfold read_unsigned.
  pose proof (read_digits_progress s) as Hp.
  destruct (read_digits s) as [ip s2]. cbn [fst snd] in Hp.
  destruct (int_part_ok ip) eqn:Hok; [|discriminate].
  assert (Hip : ip <> Decimal.Nil) by (destruct ip; discriminate || discriminate Hok).
  specialize (Hp Hip).
  destruct (read_frac s2) as [[fp s3]|] eqn:Hf; [|discriminate].
  destruct (read_exp s3) as [[ex s4]|] eqn:He; [|discriminate].
  intros [= _ <-].
  apply read_frac_length in Hf. apply read_exp_length in He. lia.
Qed.

Lemma read_number_progress s v rest :
  read_number s = Some (v, rest) ->
  (String.length rest < String.length s)%nat.
Proof.
  destruct s as [|c s]; cbn [read_number]; [discriminate|].
  destruct (Ascii.eqb c "-"); intros H; apply read_unsigned_progress in H;
    cbn [String.length] in *; lia.
Qed.

Lemma read_string_progress_bounded (n : nat) :
  forall s str rest,
    (String.length s <= n)%nat ->
    read_string s = Some (str, rest) ->
    (String.length rest < String.length s)%nat.
Proof.
  induction n as [|n IH]; intros s str rest Hn;
    (destruct s as [|c r]; [discriminate|]); [cbn in Hn; lia|].
  cbn [read_string].
  assert (Hcons : forall ch r0 str0 rest0,
             (String.length r0 <= n)%nat ->
             (String.length r0 < String.length (String c r))%nat ->
             cons_char ch (read_string r0) = Some (str0, rest0) ->
             (String.length rest0 < String.length (String c r))%nat).
  { intros ch r0 str0 rest0 Hle Hlt H. unfold cons_char in H.
    destruct (read_string r0) as [[s1 rest1]|] eqn:E; [|discriminate].
    injection H as _ <-. specialize (IH r0 s1 rest1 Hle E). lia. }
  cbn [String.length] in Hn.
  destruct (Ascii.eqb c QUOTE).
  { intros [= _ <-]. cbn. lia. }
  destruct (Ascii.eqb c BACKSLASH).
  - destruct r as [|e r1]; [discriminate|].
    destruct (simple_escape e).
    + apply Hcons; cbn in *; lia.
    + destruct (Ascii.eqb e "u"); [|discriminate].
      destruct r1 as [|h1 [|h2 [|h3 [|h4 r2]]]]; try discriminate.
      destruct (hex_value h1) as [a|], (hex_value h2) as [b|],
               (hex_value h3), (hex_value h4); try discriminate.
      destruct ((a =? 0)%N && (b =? 0)%N); [|discriminate].
      apply Hcons; cbn in *; lia.
  - destruct (N_of_ascii c <? 32)%N; [discriminate|].
    apply Hcons; cbn in *; lia.
Qed.

Lemma read_string_progress s str rest :
  read_string s = Some (str, rest) ->
  (String.length rest < String.length s)%nat.
Proof. apply (read_string_progress_bounded (String.length s)). reflexivity. Qed.


(** A successful parse consumes at least one character. *)
Lemma parse_progress (fuel : nat) :
  (forall s v rest,
      parse_value fuel s = Some (v, rest) ->
      (String.length rest < String.length s)%nat)
  /\ (forall s vs rest,
         parse_elements fuel s = Some (vs, rest) ->
         (String.length rest < String.length s)%nat)
  /\ (forall s kv rest,
         parse_member fuel s = Some (kv, rest) ->
         (String.length rest < String.length s)%nat)
  /\ (forall s ms rest,
         parse_members fuel s = Some (ms, rest) ->
         (String.length rest < String.length s)%nat).
Proof.
  induction fuel as [|fuel (IHv & IHe & IHm & IHms)];
    [repeat split; intros; discriminate|].
  repeat split; intros s v rest H;
    pose proof (skip_ws_length s) as Hlen;
    [cbn [parse_value] in H|cbn [parse_elements] in H
     |cbn [parse_member] in H|cbn [parse_members] in H];
    (destruct (skip_ws s) as [|c r]; [discriminate|]);
    cbn [String.length] in Hlen.
  - destruct (Ascii.eqb c "[").
    { pose proof (skip_ws_length r) as Hr.
      destruct (skip_ws r) as [|c' r']; [discriminate|]. cbn [String.length] in Hr.
      destruct (Ascii.eqb c' "]"); [injection H as _ <-; lia|].
      destruct (parse_value fuel r) as [[x r1]|] eqn:E1; [|discriminate].
      destruct (parse_elements fuel r1) as [[xs r2]|] eqn:E2; [|discriminate].
      injection H as _ <-. apply IHv in E1. apply IHe in E2. lia. }
    destruct (Ascii.eqb c "{").
    { pose proof (skip_ws_length r) as Hr.
      destruct (skip_ws r) as [|c' r']; [discriminate|]. cbn [String.length] in Hr.
      destruct (Ascii.eqb c' "}"); [injection H as _ <-; lia|].
      destruct (parse_member fuel r) as [[kv r1]|] eqn:E1; [|discriminate].
      destruct (parse_members fuel r1) as [[ms r2]|] eqn:E2; [|discriminate].
      injection H as _ <-. apply IHm in E1. apply IHms in E2. lia. }
    destruct (Ascii.eqb c QUOTE).
    { destruct (read_string r) as [[str r1]|] eqn:E; [|discriminate].
      injection H as _ <-. apply read_string_progress in E. lia. }
    assert (Hlit : forall (lit : json) p,
               option_map (pair lit) (strip_prefix p r) = Some (v, rest) ->
               (String.length rest < String.length s)%nat).
    { intros lit p Hp. destruct (strip_prefix p r) as [r1|] eqn:E; [|discriminate].
      injection Hp as _ <-. apply strip_prefix_length in E. lia. }
    destruct (Ascii.eqb c "t"); [now apply (Hlit _ _ H)|].
    destruct (Ascii.eqb c "f"); [now apply (Hlit _ _ H)|].
    destruct (Ascii.eqb c "n"); [now apply (Hlit _ _ H)|].
    apply read_number_progress in H. cbn [String.length] in H. lia.
  - destruct (Ascii.eqb c "]"); [injection H as _ <-; lia|].
    destruct (Ascii.eqb c ","); [|discriminate].
    destruct (parse_value fuel r) as [[x r1]|] eqn:E1; [|discriminate].
    destruct (parse_elements fuel r1) as [[xs r2]|] eqn:E2; [|discriminate].
    injection H as _ <-. apply IHv in E1. apply IHe in E2. lia.
  - destruct (Ascii.eqb c QUOTE); [|discriminate].
    destruct (read_string r) as [[k r1]|] eqn:E; [|discriminate].
    pose proof (skip_ws_length r1) as Hr1.
    destruct (skip_ws r1) as [|c' r2]; [discriminate|]. cbn [String.length] in Hr1.
    destruct (Ascii.eqb c' ":"); [|discriminate].
    destruct (parse_value fuel r2) as [[x r3]|] eqn:E1; [|discriminate].
    injection H as _ <-. apply read_string_progress in E. apply IHv in E1. lia.
  - destruct (Ascii.eqb c "}"); [injection H as _ <-; lia|].
    destruct (Ascii.eqb c ","); [|discriminate].
    destruct (parse_member fuel r) as [[kv r1]|] eqn:E1; [|discriminate].
    destruct (parse_members fuel r1) as [[ms' r2]|] eqn:E2; [|discriminate].
    injection H as _ <-. apply IHm in E1. apply IHms in E2. lia.
Qed.


(** A parse that succeeds with some fuel succeeds with as much fuel as it
    consumes characters. *)
Lemma parse_fuel_enough (fuel : nat) :
  (forall s v rest,
      parse_value fuel s = Some (v, rest) ->
      forall f', (String.length s - String.length rest <= f')%nat ->
                 parse_value f' s = Some (v, rest))
  /\ (forall s vs rest,
         parse_elements fuel s = Some (vs, rest) ->
         forall f', (String.length s - String.length rest <= f')%nat ->
                    parse_elements f' s = Some (vs, rest))
  /\ (forall s kv rest,
         parse_member fuel s = Some (kv, rest) ->
         forall f', (String.length s - String.length rest <= f')%nat ->
                    parse_member f' s = Some (kv, rest))
  /\ (forall s ms rest,
         parse_members fuel s = Some (ms, rest) ->
         forall f', (String.length s - String.length rest <= f')%nat ->
                    parse_members f' s = Some (ms, rest)).
Proof.
  induction fuel as [|fuel (IHv & IHe & IHm & IHms)];
    [repeat split; intros; discriminate|].
  destruct (parse_progress fuel) as (Pv & Pe & Pm & Pms).
  destruct (parse_progress (S fuel)) as (Qv & Qe & Qm & Qms).
  repeat split; intros s v rest H f' Hf';
    pose proof (skip_ws_length s) as Hlen;
    [pose proof (Qv _ _ _ H) as Hprog|pose proof (Qe _ _ _ H) as Hprog
     |pose proof (Qm _ _ _ H) as Hprog|pose proof (Qms _ _ _ H) as Hprog];
    (destruct f' as [|f']; [lia|]);
    [cbn [parse_value] in H |- *|cbn [parse_elements] in H |- *
     |cbn [parse_member] in H |- *|cbn [parse_members] in H |- *];
    (destruct (skip_ws s) as [|c r]; [discriminate|]);
    cbn [String.length] in Hlen.
  - destruct (Ascii.eqb c "[").
    { pose proof (skip_ws_length r) as Hr.
      destruct (skip_ws r) as [|c' r']; [discriminate|]. cbn [String.length] in Hr.
      destruct (Ascii.eqb c' "]"); [exact H|].
      destruct (parse_value fuel r) as [[x r1]|] eqn:E1; [|discriminate].
      destruct (parse_elements fuel r1) as [[xs r2]|] eqn:E2; [|discriminate].
      injection H as <- <-.
      pose proof (Pv _ _ _ E1). pose proof (Pe _ _ _ E2).
      rewrite (IHv _ _ _ E1 f') by lia. rewrite (IHe _ _ _ E2 f') by lia.
      reflexivity. }
    destruct (Ascii.eqb c "{").
    { pose proof (skip_ws_length r) as Hr.
      destruct (skip_ws r) as [|c' r']; [discriminate|]. cbn [String.length] in Hr.
      destruct (Ascii.eqb c' "}"); [exact H|].
      destruct (parse_member fuel r) as [[kv r1]|] eqn:E1; [|discriminate].
      destruct (parse_members fuel r1) as [[ms r2]|] eqn:E2; [|discriminate].
      injection H as <- <-.
      pose proof (Pm _ _ _ E1). pose proof (Pms _ _ _ E2).
      rewrite (IHm _ _ _ E1 f') by lia. rewrite (IHms _ _ _ E2 f') by lia.
      reflexivity. }
    exact H.
  - destruct (Ascii.eqb c "]"); [exact H|].
    destruct (Ascii.eqb c ","); [|discriminate].
    destruct (parse_value fuel r) as [[x r1]|] eqn:E1; [|discriminate].
    destruct (parse_elements fuel r1) as [[xs r2]|] eqn:E2; [|discriminate].
    injection H as <- <-.
    pose proof (Pv _ _ _ E1). pose proof (Pe _ _ _ E2).
    rewrite (IHv _ _ _ E1 f') by lia. rewrite (IHe _ _ _ E2 f') by lia.
    reflexivity.
  - destruct (Ascii.eqb c QUOTE); [|discriminate].
    destruct (read_string r) as [[k r1]|] eqn:E; [|discriminate].
    pose proof (skip_ws_length r1) as Hr1.
    destruct (skip_ws r1) as [|c' r2]; [discriminate|]. cbn [String.length] in Hr1.
    destruct (Ascii.eqb c' ":"); [|discriminate].
    destruct (parse_value fuel r2) as [[x r3]|] eqn:E1; [|discriminate].
    injection H as <- <-.
    pose proof (Pv _ _ _ E1). apply read_string_progress in E.
    rewrite (IHv _ _ _ E1 f') by lia. reflexivity.
  - destruct (Ascii.eqb c "}"); [exact H|].
    destruct (Ascii.eqb c ","); [|discriminate].
    destruct (parse_member fuel r) as [[kv r1]|] eqn:E1; [|discriminate].
    destruct (parse_members fuel r1) as [[ms' r2]|] eqn:E2; [|discriminate].
    injection H as <- <-.
    pose proof (Pm _ _ _ E1). pose proof (Pms _ _ _ E2).
    rewrite (IHm _ _ _ E1 f') by lia. rewrite (IHms _ _ _ E2 f') by lia.
    reflexivity.
Qed.

(** The fuel [JSON.parse] starts with is never the reason for a
    [SyntaxError]: whatever some amount of fuel parses, it parses. *)
Lemma JSON_parse_fuel (fuel : nat) (text : string) (v : json) (rest : string) :
  parse_value fuel text = Some (v, rest) ->
  parse_value (S (String.length text)) text = Some (v, rest).
Proof.
  intros H. apply (proj1 (parse_fuel_enough fuel) _ _ _ H). lia.
Qed.

End JsonFacts.

Module NormalizerFacts.
Import Json Anthropic JsonFacts.
#[local] Arguments String.append !s1 s2 : simpl nomatch.

(** *** Trimming and the code fence *)

(** A text that starts and ends with something other than white space is
    its own trim. *)
Lemma trimEnd_id (s : string) (c : ascii) :
  is_js_space c = false -> trimEnd (s ++ String c "") = s ++ String c "".
Proof.
  intros Hc. induction s as [|a s IH]; cbn [String.append trimEnd].
  - now rewrite Hc.
  - rewrite IH. destruct s; reflexivity.
Qed.

Lemma trim_id (a c : ascii) (s : string) :
  is_js_space a = false -> is_js_space c = false ->
  trim (String a (s ++ String c "")) = String a (s ++ String c "").
Proof.
  intros Ha Hc. unfold trim. cbn [trimStart]. rewrite Ha.
  exact (trimEnd_id (String a s) c Hc).
Qed.

(** The closing fence is cut off whatever stands before it. *)
Lemma closing_fence_after (s : string) :
  s <> "" -> closing_fence_here (s ++ String LF FENCE) = false.
Proof.
  intros Hs. unfold closing_fence_here.
  destruct (String.eqb_spec (s ++ String LF FENCE) (String LF FENCE)) as [H|_].
  - apply (f_equal String.length) in H. rewrite length_append in H.
    destruct s; [congruence|cbn in H; lia].
  - destruct (String.eqb_spec (s ++ String LF FENCE) FENCE) as [H|_];
      [|reflexivity].
    apply (f_equal String.length) in H. rewrite length_append in H.
    cbn in H. lia.
Qed.

Lemma replace_closing_fence_printed (s : string) :
  replace_closing_fence (s ++ String LF FENCE) = s.
Proof.
  induction s as [|a s IH]; [reflexivity|].
  cbn [String.append]. unfold replace_closing_fence; fold replace_closing_fence.
  change (String a (s ++ String LF FENCE)) with (String a s ++ String LF FENCE) at 1.
  rewrite closing_fence_after by discriminate. now rewrite IH.
Qed.

(** A payload that starts with an opening bracket, wrapped or not, is what
    is left after trimming and stripping the fence. *)
Lemma strip_fence_wrap (w : Fence) (s : string) :
  strip_fence (wrap w (String "[" s)) = String "[" s.
Proof.
  destruct w; cbn [wrap].
  - reflexivity.
  - unfold strip_fence.
    change (startsWith FENCE (FENCE ++ String LF (String "[" s) ++ String LF FENCE))
      with true. cbv iota.
    change (replace_opening_fence
              (FENCE ++ String LF (String "[" s) ++ String LF FENCE))
      with (String "[" s ++ String LF FENCE).
    apply replace_closing_fence_printed.
  - unfold strip_fence.
    change (startsWith FENCE
              (FENCE ++ "json" ++ String LF (String "[" s) ++ String LF FENCE))
      with true. cbv iota.
    change (replace_opening_fence
              (FENCE ++ "json" ++ String LF (String "[" s) ++ String LF FENCE))
      with (String "[" s ++ String LF FENCE).
    apply replace_closing_fence_printed.
Qed.

Lemma trim_plain (s p r : string) (a c : ascii) :
  s = String a r -> is_js_space a = false ->
  s = p ++ String c "" -> is_js_space c = false ->
  trim s = s.
Proof.
  intros Hhead Ha Hlast Hc. unfold trim.
  rewrite Hhead at 1. cbn [trimStart]. rewrite Ha, <- Hhead.
  rewrite Hlast. now apply trimEnd_id.
Qed.

Lemma trim_wrap (w : Fence) (s : string) :
  trim (wrap w (String "[" (s ++ "]"))) = wrap w (String "[" (s ++ "]")).
Proof.
  destruct w; cbn [wrap].
  - now apply trim_id.
  - eapply (trim_plain _ (FENCE ++ String LF (String "[" (s ++ "]")) ++ String LF "``")
              _ "`" "`"); try reflexivity.
    now rewrite !append_assoc.
  - eapply (trim_plain _ (FENCE ++ "json" ++ String LF (String "[" (s ++ "]"))
                                ++ String LF "``")
              _ "`" "`"); try reflexivity.
    now rewrite !append_assoc.
Qed.

(** The text of an array starts with an opening and ends with a closing
    bracket. *)
Lemma stringify_array_brackets (vs : list json) :
  exists s, JSON_stringify (JArr vs) = String "[" (s ++ "]").
Proof.
  unfold JSON_stringify. destruct vs as [|x xs]; [now exists ""|].
  cbn [stringify_at]. eexists.
  rewrite <- one_char_append at 1. f_equal.
  rewrite <- !append_assoc. reflexivity.
Qed.

(** Wrapped or not, the text of a well-formed array normalizes to its
    elements, each with [approved] forced to [null]. *)
Lemma normalize_stringify (w : Fence) (vs : list json) :
  json_wf (JArr vs) = true ->
  normalize (wrap w (JSON_stringify (JArr vs))) = Ok (map with_approved_null vs).
Proof.
  intros Hwf. unfold normalize.
  destruct (stringify_array_brackets vs) as [s Hs].
  rewrite Hs, trim_wrap, strip_fence_wrap, <- Hs.
  now rewrite (JSON_parse_stringify _ Hwf).
Qed.

(** *** Fields under the spread *)

Lemma obj_get_set_same k v kvs : obj_get k (obj_set k v kvs) = Some v.
Proof.
  induction kvs as [|[k' v'] kvs IH]; cbn.
  - now rewrite String.eqb_refl.
  - destruct (String.eqb k' k) eqn:E; cbn.
    + now rewrite String.eqb_refl.
    + now rewrite E.
Qed.

Lemma obj_get_set_other k k0 v kvs :
  k0 <> k -> obj_get k0 (obj_set k v kvs) = obj_get k0 kvs.
Proof.
  intros Hne. induction kvs as [|[k' v'] kvs IH]; cbn.
  - destruct (String.eqb_spec k k0); [congruence|reflexivity].
  - destruct (String.eqb_spec k' k) as [->|]; cbn.
    + destruct (String.eqb_spec k k0); [congruence|reflexivity].
    + destruct (String.eqb k' k0); [reflexivity|exact IH].
Qed.

Lemma approved_is_null (v : json) :
  field "approved" (with_approved_null v) = Some JNull.
Proof. apply obj_get_set_same. Qed.

Lemma other_fields_kept (v : json) (k : string) :
  k <> "approved" -> field k (with_approved_null v) = obj_get k (spread v).
Proof. intros H. now apply obj_get_set_other. Qed.


Lemma finding_shaped_wf (vs : list json) :
  forallb finding_shaped vs = true -> json_wf (JArr vs) = true.
Proof.
  cbn [json_wf]. induction vs as [|v vs IH]; [reflexivity|].
  cbn [forallb]. intros H. apply andb_true_iff in H. destruct H as [Hv Hvs].
  rewrite (IH Hvs), andb_true_r.
  destruct v; try discriminate Hv. unfold finding_shaped in Hv.
  do 8 (apply andb_true_iff in Hv; destruct Hv as [Hv _]). exact Hv.
Qed.

(** C6: normalization round-trips.  For every array of valid
    Finding-shaped objects, its JSON text, bare or wrapped in a code fence
    (with or without the [json] tag), normalizes to an array of the same
    objects in the same order, every field of every element as it was,
    except [approved], which is [null] in every element whatever it was (or
    was not) in the text. *)
Theorem normalize_round_trip (w : Fence) (vs : list json) :
  forallb finding_shaped vs = true ->
  normalize (wrap w (JSON_stringify (JArr vs))) = Ok (map with_approved_null vs)
  /\ (forall v : json,
         In v vs ->
         field "approved" (with_approved_null v) = Some JNull
         /\ (forall k : string,
                k <> "approved" -> field k (with_approved_null v) = field k v)).
Proof.
  intros Hvs. split.
  - apply normalize_stringify. now apply finding_shaped_wf.
  - intros v Hv. split; [apply approved_is_null|].
    intros k Hk. rewrite other_fields_kept by exact Hk.
    rewrite List.forallb_forall in Hvs. specialize (Hvs v Hv).
    destruct v; try discriminate Hvs. reflexivity.
Qed.

Lemma normalize_round_trip_witness :
  forallb finding_shaped [Samples.self_approved] = true
  /\ field "approved" Samples.self_approved = Some (JBool true)
  /\ normalize (wrap JsonFence (JSON_stringify (JArr [Samples.self_approved])))
     = Ok [finding_to_json Samples.finding1].
Proof.
  split; [reflexivity|]. split; [reflexivity|].
  exact (proj1 (normalize_round_trip JsonFence [Samples.self_approved] eq_refl)).
Defined.



(** *** Findings at their declared type *)

Lemma finding_to_json_wf (f : ReviewFinding) :
  finding_safe f = true -> json_wf (finding_to_json f) = true.
Proof.
  unfold finding_safe. intros H.
  apply andb_true_iff in H. destruct H as [H Hl].
  apply andb_true_iff in H. destruct H as [Hi Hc].
  unfold finding_to_json.
  destruct (posted f), (approved f) as [[]|]; cbn; now rewrite Hi, Hc, Hl.
Qed.

Lemma finding_to_json_shaped (f : ReviewFinding) :
  finding_safe f = true -> finding_shaped (finding_to_json f) = true.
Proof.
  intros H. pose proof (finding_to_json_wf f H) as Hwf.
  unfold finding_safe in H.
  apply andb_true_iff in H. destruct H as [H Hl].
  apply andb_true_iff in H. destruct H as [Hi Hc].
  unfold finding_shaped. unfold finding_to_json in *.
  rewrite Hwf. cbn. rewrite Hi, Hc, Hl. now destruct (severity f).
Qed.

Lemma with_approved_null_finding (f : ReviewFinding) :
  with_approved_null (finding_to_json f) = finding_to_json (set_approved None f).
Proof. unfold finding_to_json. destruct f as [? ? ? ? ? ? ? ? ? []]; reflexivity. Qed.

(** The text of typed findings normalizes to the same findings with
    [approved] unknown. *)
Lemma normalize_findings (w : Fence) (fs : list ReviewFinding) :
  forallb finding_safe fs = true ->
  normalize (wrap w (JSON_stringify (JArr (map finding_to_json fs))))
  = Ok (map (fun f => finding_to_json (set_approved None f)) fs).
Proof.
  intros Hfs.
  rewrite normalize_stringify.
  - rewrite List.map_map.
    rewrite (List.map_ext _ _ with_approved_null_finding). reflexivity.
  - cbn [json_wf]. rewrite List.forallb_forall in *.
    intros v Hv. apply List.in_map_iff in Hv. destruct Hv as (f & <- & Hf).
    apply finding_to_json_wf. now apply Hfs.
Qed.

(** The review record can be read back from the file. *)
Lemma reviewFile_to_json_wf (r : ReviewFile) :
  reviewFile_safe r = true -> json_wf (reviewFile_to_json r) = true.
Proof.
  unfold reviewFile_safe. intros H.
  apply andb_true_iff in H. destruct H as [Hp Hfs].
  unfold reviewFile_to_json. cbn. rewrite Hp. cbn. rewrite andb_true_r.
  rewrite List.forallb_forall in *.
  intros v Hv. apply List.in_map_iff in Hv. destruct Hv as (f & <- & Hf).
  apply finding_to_json_wf. now apply Hfs.
Qed.

Lemma record_recoverable (r : ReviewFile) :
  reviewFile_safe r = true ->
  JSON_parse (Review.record_content r) = Some (reviewFile_to_json r).
Proof.
  intros H. apply reviewFile_to_json_wf in H.
  unfold Review.record_content, JSON_stringify_indent, JSON_parse.
  pose proof (wf_reads_back _ H (Nat.min 2 10) 0%nat
                (S (String.length
                      (stringify_at (Nat.min 2 10) 0 (reviewFile_to_json r)
                       ++ String LF "")))
                (String LF "")) as Hread.
  rewrite Hread; [reflexivity| |reflexivity].
  rewrite length_append.
  pose proof (size_le_length (reviewFile_to_json r) (Nat.min 2 10) 0). lia.
Qed.

End NormalizerFacts.

Module Scenarios.
Import Json Anthropic Effects Github Review Samples.

(** The model answer of the end-to-end scenarios, as text and as the
    finding it normalizes to. *)
Example scenario_answer :
  normalize (JSON_stringify (JArr [finding_to_json finding1]))
  = Ok [finding_to_json finding1].
Proof. vm_compute. reflexivity. Qed.

(** A: without [--post] the finding is reported, the run succeeds and
    nothing is written. *)
Example scenario_A :
  let env := env_scenario false (Ok [finding1]) host_ok in
  outcome env = Done Reported
  /\ exit_code (outcome env) = 0
  /\ In (EvConsole "  #1 [Critical] X (95/100)") (events env)
  /\ final_disk env = ∅.
Proof. vm_compute. intuition. Qed.

(** B: with [--post], the finding approved and the submission accepted, the
    record holds [approved: true] and the run succeeds. *)
Example scenario_B :
  let env := env_scenario true (Ok [finding1]) host_ok in
  outcome env = Done Posted
  /\ final_disk env !! "/work/.coder/reviews/pr-42-review.json"
     = Some (record_content
               (mkReviewFile 42 "octo/demo" "main" "abc123"
                  "2026-01-01T00:00:00.000Z"
                  "Found 1 issues (1 critical, 0 warning, 0 suggestion)"
                  [set_approved (Some true) finding1]))
  /\ length (List.filter is_host_mutation (events env)) = 1%nat.
Proof. vm_compute. intuition. Qed.

(** C: when the submission fails on the anchors, exactly one summary
    comment and one comment for the finding are attempted, and the run
    succeeds. *)
Example scenario_C :
  let env := env_scenario true (Ok [finding1]) host_anchor_failure in
  outcome env = Done Posted
  /\ List.filter is_host_mutation (events env)
     = review_call review42 (findings review42)
       :: fallback_calls review42 (findings review42).
Proof. vm_compute. intuition. Qed.

(** D: an empty array of findings is a success of its own, without a
    record. *)
Example scenario_D :
  let env := env_scenario true (Ok []) host_ok in
  outcome env = Done NoIssues /\ final_disk env = ∅.
Proof. vm_compute. intuition. Qed.

(** E: text that is not JSON is a fatal error, exit status 1, without a
    record. *)
Example scenario_E :
  let text := "Sorry, I cannot review this diff." in
  let env := env_scenario true (Err (parse_error text)) host_ok in
  normalize text = Err (parse_error text)
  /\ exit_code (outcome env) = 1
  /\ final_disk env = ∅.
Proof. vm_compute. intuition. Qed.

End Scenarios.

Module ReviewRuns.
Import Json Anthropic Effects Github Sorting Review Interaction.
Import EffectsFacts GithubFacts ReviewFacts.
Local Open Scope effect_scope.

#[local] Hint Resolve append_only_print_each append_only_printFindings
  append_only_interactiveApproval append_only_loadGuidelines
  append_only_saveReview append_only_postReview : effects.












Lemma session_posting env p decided :
  session env = Some (p, decided) ->
  List.filter is_approved decided <> [] ->
  shouldPost env = true ->
  posting env = None <-> determined_repo env p = None.
Proof.
  intros Hs Hsome Hyes.
  destruct (session_reported env p decided Hs) as (Hpost & sorted & Hrep & ->).
  unfold posting. rewrite Hrep, Hpost, Hyes. cbv zeta.
  destruct (List.filter is_approved _); [congruence|].
  destruct (determined_repo env p); split; congruence.
Qed.

Lemma determined_repo_none env p :
  determined_repo env p = None
  <-> pr_repo p = ""
      /\ truthy (githubRepo env) = None
      /\ truthy (detectRepoFromGit env) = None.
Proof.
  unfold determined_repo, or_else.
  destruct (pr_repo p) as [|c r]; cbn [truthy].
  - destruct (truthy (githubRepo env)).
    + split; [discriminate|]. intros (_ & H & _). discriminate.
    + destruct (truthy (truthy (detectRepoFromGit env))) eqn:Ht;
        destruct (detectRepoFromGit env) as [[|]|]; cbn in *; split; intuition congruence.
  - split; [discriminate|]. intros (H & _). discriminate.
Qed.

(** X3: when the repository cannot be determined (the pull request carries
    none, [GITHUB_REPO] is unset or empty and the git remote gives none),
    the command stops with status 1 after the operator has confirmed: no
    record is written and nothing is posted. *)
Theorem unknown_repository_posts_nothing
        (env : Env) (p : PullRequest) (decided : list ReviewFinding) :
  session env = Some (p, decided) ->
  List.filter is_approved decided <> [] ->
  shouldPost env = true ->
  pr_repo p = "" ->
  truthy (githubRepo env) = None ->
  truthy (detectRepoFromGit env) = None ->
  outcome env = Fatal "Cannot determine GitHub repo. Set GITHUB_REPO in your .env."
  /\ exit_code (outcome env) = 1
  /\ existsb is_confirmation (events env) = true
  /\ quiet (events env)
  /\ final_disk env = files env.
Proof.
  intros Hs Hsome Hyes H1 H2 H3.
  assert (Hr : determined_repo env p = None)
    by (apply determined_repo_none; auto).
  assert (Hp : posting env = None)
    by (now apply (session_posting env p decided)).
  destruct (run_quiet env (or_introl Hp)) as [Hq Hd].
  destruct (session_reported env p decided Hs) as (Hpost & sorted & Hrep & ->).
  assert (Ho : outcome env
               = Fatal "Cannot determine GitHub repo. Set GITHUB_REPO in your .env."
               /\ existsb is_confirmation (events env) = true).
  { clear Hq Hd Hp Hs. unfold outcome, events, run, review.
    unfold reported, gathered, guidelines_text in Hrep.
    destruct (truthy (anthropicApiKey env)); [|discriminate].
    destruct (resolvePR env) as [p0|]; [|discriminate].
    destruct (getPRDiff env) as [diff|]; [|discriminate].
    destruct (getChangedFiles env) as [changed|]; [|discriminate].
    repeat step.
    destruct (trim diff); [discriminate|].
    repeat step.
    destruct (analysis env _ _ _) as [found|msg]; [|discriminate].
    destruct found as [|f fs]; [discriminate|].
    assert (Heq : (p0, sortFindings (f :: fs)) = (p, sorted)) by congruence.
    apply pair_equal_spec in Heq. destruct Heq as [-> <-]. clear Hrep.
    repeat step. rewrite Hpost. cbn [negb]. repeat step.
    destruct (List.filter is_approved _) as [|ap0 aps]; [congruence|].
    repeat step. rewrite Hyes. cbn [negb]. rewrite Hr.
    unfold die. repeat step. cbn [stop fst snd trace].
    split; [reflexivity|].
    rewrite !List.existsb_app. cbn. now rewrite !orb_true_r. }
  destruct Ho as [Ho Hc]. rewrite Ho. auto.
Qed.

Lemma unknown_repository_posts_nothing_witness :
  let env :=
    mkEnv (Some "sk-test") None None true "/work" "2026-01-01T00:00:00.000Z"
          ∅ true (inl (mkPR 42 "main" "abc123" ""))
          (Some "+const x = 1") (Some " a.ts | 1 +")
          (fun _ _ _ => Ok [Samples.finding1])
          (fun _ => approve) true None Samples.host_ok in
  outcome env = Fatal "Cannot determine GitHub repo. Set GITHUB_REPO in your .env."
  /\ final_disk env = files env.
Proof.
  cbv zeta.
  assert (Hsome : List.filter is_approved [set_approved (Some true) Samples.finding1]
                  <> []) by discriminate.
  destruct (unknown_repository_posts_nothing
              (mkEnv (Some "sk-test") None None true "/work" "2026-01-01T00:00:00.000Z"
                     ∅ true (inl (mkPR 42 "main" "abc123" ""))
                     (Some "+const x = 1") (Some " a.ts | 1 +")
                     (fun _ _ _ => Ok [Samples.finding1])
                     (fun _ => approve) true None Samples.host_ok)
              (mkPR 42 "main" "abc123" "")
              [set_approved (Some true) Samples.finding1]
              eq_refl Hsome eq_refl eq_refl eq_refl eq_refl)
    as (Ho & _ & _ & _ & Hd).
  split; assumption.
Defined.




End ReviewRuns.

Module SessionFacts.
Import Json Anthropic Effects Github Sorting Review Interaction.
Import EffectsFacts GithubFacts ReviewFacts ReviewRuns.
Local Open Scope effect_scope.

#[local] Hint Resolve append_only_print_each append_only_printFindings
  append_only_interactiveApproval append_only_loadGuidelines
  append_only_saveReview append_only_postReview
  append_only_try_comment append_only_comment_each : effects.

(** *** The prompts of the Approval Session *)




















End SessionFacts.

Module OrderFacts.
Import Json Anthropic Effects Github Sorting Review Interaction.
Import SortingFacts.

Lemma insert_in_place (x : ReviewFinding) (l : list ReviewFinding) :
  Forall (fun y => rank x <= rank y) l -> insert bySeverity x l = x :: l.
Proof.
  destruct 1 as [|y l Hy _]; [reflexivity|].
  cbn [insert]. unfold bySeverity.
  destruct (Z.leb_spec (rank x - rank y) 0); [reflexivity|lia].
Qed.

Lemma sort_in_order (l : list ReviewFinding) : in_order l -> sortFindings l = l.
Proof.
  unfold sortFindings.
  induction l as [|x l IH]; [reflexivity|].
  intros [Hx Hl]. cbn [sort]. rewrite (IH Hl). now apply insert_in_place.
Qed.

Lemma Forall_insert (P : ReviewFinding -> Prop) x l :
  P x -> Forall P l -> Forall P (insert bySeverity x l).
Proof.
  intros Hx. induction 1 as [|y l Hy Hl IH]; cbn [insert].
  - now repeat constructor.
  - destruct (bySeverity x y <=? 0); repeat constructor; assumption.
Qed.

Lemma in_order_insert x l : in_order l -> in_order (insert bySeverity x l).
Proof.
  induction l as [|y l IH]; cbn [insert in_order].
  - intros _. split; constructor.
  - intros [Hy Hl]. unfold bySeverity at 1.
    destruct (Z.leb_spec (rank x - rank y) 0) as [Hle|Hgt]; cbn [in_order].
    + split; [|split; assumption].
      constructor; [lia|].
      revert Hy. apply List.Forall_impl. intros; lia.
    + split; [|now apply IH].
      apply Forall_insert; [lia|assumption].
Qed.

Lemma in_order_sort (l : list ReviewFinding) : in_order (sortFindings l).
Proof.
  unfold sortFindings. induction l as [|x l IH]; cbn [sort]; [exact I|].
  now apply in_order_insert.
Qed.

Lemma in_order_filter (p : ReviewFinding -> bool) (l : list ReviewFinding) :
  in_order l -> in_order (List.filter p l).
Proof.
  induction l as [|x l IH]; [trivial|].
  intros [Hx Hl]. cbn [List.filter].
  destruct (p x); [|now apply IH].
  split; [|now apply IH].
  apply List.Forall_forall. intros y Hy.
  apply List.filter_In in Hy. destruct Hy as [Hy _].
  rewrite List.Forall_forall in Hx. now apply Hx.
Qed.

Lemma rank_decision a f : rank (decision a f) = rank f.
Proof. now destruct a. Qed.

Lemma Forall_rank_decisions answer (r : Z) (l : list ReviewFinding) :
  forall i,
    Forall (fun y => r <= rank y) l ->
    Forall (fun y => r <= rank y) (decisions answer i l).
Proof.
  induction l as [|x l IH]; intros i H; cbn [decisions]; [constructor|].
  apply List.Forall_cons_iff in H. destruct H as [Hx Hl].
  constructor; [now rewrite rank_decision|now apply IH].
Qed.

Lemma in_order_decisions answer (l : list ReviewFinding) :
  forall i, in_order l -> in_order (decisions answer i l).
Proof.
  induction l as [|x l IH]; intros i; [trivial|].
  intros [Hx Hl]. cbn [decisions in_order]. split; [|now apply IH].
  rewrite rank_decision. now apply Forall_rank_decisions.
Qed.

(** X6: sorting is idempotent, and neither the operator's decisions nor
    the selection of the approved findings disturb the reporting order.
    Hence the list shown at the confirmation ([printFindings] sorts a copy
    of the approved findings) is in the order in which delivery receives
    them. *)
Theorem approved_shown_in_delivery_order
        (answer : nat -> Action) (found : list ReviewFinding) :
  let findings := decisions answer 0 (sortFindings found) in
  let approved := List.filter is_approved findings in
  sortFindings (sortFindings found) = sortFindings found
  /\ sortFindings findings = findings
  /\ sortFindings approved = approved.
Proof.
  cbv zeta. repeat split; apply sort_in_order.
  - apply in_order_sort.
  - apply in_order_decisions, in_order_sort.
  - apply in_order_filter, in_order_decisions, in_order_sort.
Qed.

End OrderFacts.

Module RecordFacts.
Import Json Anthropic Effects Github Sorting Review Interaction.
Import EffectsFacts GithubFacts ReviewFacts.

(** X7: the record the command leaves on disk is the JSON text of the
    review, indented by two spaces and ended by a line feed; parsing the
    file gives back the review, every finding with its decision. *)
Theorem record_reads_back
        (env : Env) (p : PullRequest) (rf : ReviewFile)
        (approved : list ReviewFinding) :
  posting env = Some (p, rf, approved) ->
  writable env = true ->
  reviewFile_safe rf = true ->
  exists content : string,
    final_disk env !! reviewPath env p = Some content
    /\ JSON_parse content = Some (reviewFile_to_json rf).
Proof.
  intros Hp Hw Hsafe.
  destruct (run_posting env p rf approved Hp Hw) as (q & _ & _ & Hrun).
  exists (record_content rf). split.
  - unfold final_disk. rewrite Hrun. cbn [snd disk]. apply lookup_insert_eq.
  - now apply NormalizerFacts.record_recoverable.
Qed.

Lemma record_reads_back_witness :
  let env := Samples.env_mixed Samples.host_all_fail in
  exists (rf : ReviewFile) (content : string),
    final_disk env !! "/work/.coder/reviews/pr-42-review.json" = Some content
    /\ JSON_parse content = Some (reviewFile_to_json rf)
    /\ map id (findings rf) = [1; 3; 2].
Proof.
  cbv zeta.
  destruct (posting (Samples.env_mixed Samples.host_all_fail))
    as [[[p rf] approved]|] eqn:Hp; [|discriminate Hp].
  assert (Hsafe : reviewFile_safe rf = true).
  { vm_compute in Hp. injection Hp as <- <- <-. reflexivity. }
  destruct (record_reads_back _ p rf approved Hp eq_refl Hsafe)
    as (content & Hdisk & Hparse).
  exists rf, content.
  vm_compute in Hp. injection Hp as <- <- <-.
  repeat split; assumption.
Defined.

End RecordFacts.

Module AnalysisFacts.
Import Json Anthropic Effects Github Sorting Review Interaction.
Import EffectsFacts GithubFacts ReviewFacts ReviewRuns SessionFacts.
Local Open Scope effect_scope.
#[local] Arguments String.append !s1 s2 : simpl nomatch.







#[local] Hint Resolve append_only_print_each append_only_printFindings
  append_only_interactiveApproval append_only_loadGuidelines
  append_only_saveReview append_only_postReview : effects.






End AnalysisFacts.

Module TicketFacts.
Import Json Anthropic Js Tickets JsonFacts NormalizerFacts.
#[local] Arguments String.append !s1 s2 : simpl nomatch.

(** A payload that starts with something other than a backtick is what is
    left of it, wrapped or not, after the fence is stripped. *)
Lemma strip_fence_payload (w : Fence) (a : ascii) (t : string) :
  Ascii.eqb a "`" = false ->
  strip_fence (wrap w (String a t)) = String a t.
Proof.
  intros Ha. destruct w; cbn [wrap].
  - unfold strip_fence, startsWith, FENCE. cbn [String.prefix].
    destruct (ascii_dec "`" a) as [<-|_]; [discriminate Ha|reflexivity].
  - unfold strip_fence.
    change (startsWith FENCE (FENCE ++ String LF (String a t) ++ String LF FENCE))
      with true. cbv iota.
    change (replace_opening_fence
              (FENCE ++ String LF (String a t) ++ String LF FENCE))
      with (String a t ++ String LF FENCE).
    apply replace_closing_fence_printed.
  - unfold strip_fence.
    change (startsWith FENCE
              (FENCE ++ "json" ++ String LF (String a t) ++ String LF FENCE))
      with true. cbv iota.
    change (replace_opening_fence
              (FENCE ++ "json" ++ String LF (String a t) ++ String LF FENCE))
      with (String a t ++ String LF FENCE).
    apply replace_closing_fence_printed.
Qed.

Lemma trim_payload (w : Fence) (a c : ascii) (s : string) :
  is_js_space a = false -> is_js_space c = false ->
  trim (wrap w (String a (s ++ String c ""))) = wrap w (String a (s ++ String c "")).
Proof.
  intros Ha Hc. destruct w; cbn [wrap].
  - now apply trim_id.
  - eapply (trim_plain _ (FENCE ++ String LF (String a (s ++ String c "")) ++ String LF "``")
              _ "`" "`"); try reflexivity.
    now rewrite !append_assoc.
  - eapply (trim_plain _ (FENCE ++ "json" ++ String LF (String a (s ++ String c ""))
                                ++ String LF "``")
              _ "`" "`"); try reflexivity.
    now rewrite !append_assoc.
Qed.

(** The text of an object starts with an opening and ends with a closing
    brace. *)
Lemma stringify_object_braces (kvs : list (string * json)) :
  exists s, JSON_stringify (JObj kvs) = String "{" (s ++ "}").
Proof.
  unfold JSON_stringify. destruct kvs as [|kx ms]; [now exists ""|].
  cbn [stringify_at]. eexists.
  rewrite <- one_char_append at 1. f_equal.
  rewrite <- !append_assoc. reflexivity.
Qed.

(** Wrapped or not, the text of a well-formed object is parsed back and
    handed to the check of the two fields. *)
Lemma ticket_of_stringify (w : Fence) (kvs : list (string * json)) :
  json_wf (JObj kvs) = true ->
  ticket_of_text (wrap w (JSON_stringify (JObj kvs))) = checked (JObj kvs).
Proof.
  intros Hwf. unfold ticket_of_text.
  destruct (stringify_object_braces kvs) as [s Hs].
  rewrite Hs, trim_payload, strip_fence_payload, <- Hs by reflexivity.
  now rewrite (JSON_parse_stringify _ Hwf).
Qed.

(** X9: ticket content round-trips.  The JSON text of an object whose
    [title] and [description] are truthy (non-empty strings, in
    particular), bare or wrapped in a code fence, comes back from the
    ticket functions as that very object: every property is kept, none is
    added or forced. *)
Theorem ticket_round_trip (w : Fence) (kvs : list (string * json)) :
  json_wf (JObj kvs) = true ->
  truthy_value (obj_get "title" kvs) = true ->
  truthy_value (obj_get "description" kvs) = true ->
  ticket_of_text (wrap w (JSON_stringify (JObj kvs))) = Returned (JObj kvs)
  /\ ticketWithAI (Ok [TextBlock (wrap w (JSON_stringify (JObj kvs)))])
     = Returned (JObj kvs).
Proof.
  intros Hwf Ht Hd.
  assert (H : ticket_of_text (wrap w (JSON_stringify (JObj kvs))) = Returned (JObj kvs)).
  { rewrite ticket_of_stringify by exact Hwf.
    unfold checked, property. now rewrite Ht, Hd. }
  split; [exact H|]. cbn [ticketWithAI find_text]. exact H.
Qed.

Lemma ticket_round_trip_witness :
  ticket_of_text
    (wrap JsonFence
       (JSON_stringify
          (ticket_object "Add dark mode toggle" "## Context" [("labels", JArr [])])))
  = Returned (ticket_object "Add dark mode toggle" "## Context" [("labels", JArr [])]).
Proof.
  exact (proj1 (ticket_round_trip JsonFence
                  [("title", JStr "Add dark mode toggle");
                   ("description", JStr "## Context");
                   ("labels", JArr [])]
                  eq_refl eq_refl eq_refl)).
Defined.

(** X10: the ticket functions are fail-closed on the two required fields.
    The text of an object in which [title] or [description] is missing,
    empty or otherwise falsy, bare or fenced, is rejected with the
    missing-fields error; nothing of it is returned.  The text [null] is
    rejected too, by the [TypeError] of the property read. *)
Theorem ticket_missing_field_rejected (w : Fence) (kvs : list (string * json)) :
  json_wf (JObj kvs) = true ->
  truthy_value (obj_get "title" kvs) = false
  \/ truthy_value (obj_get "description" kvs) = false ->
  ticket_of_text (wrap w (JSON_stringify (JObj kvs))) = Threw (Error MISSING_FIELDS)
  /\ ticketWithAI (Ok [TextBlock (wrap w (JSON_stringify (JObj kvs)))])
     = Threw (Error MISSING_FIELDS)
  /\ ticket_of_text (wrap w "null") = Threw (TypeError NULL_TITLE).
Proof.
  intros Hwf Hmiss.
  assert (H : ticket_of_text (wrap w (JSON_stringify (JObj kvs)))
              = Threw (Error MISSING_FIELDS)).
  { rewrite ticket_of_stringify by exact Hwf.
    unfold checked, property.
    destruct Hmiss as [-> | ->]; [reflexivity|].
    now rewrite orb_true_r. }
  split; [exact H|]. split; [cbn [ticketWithAI find_text]; exact H|].
  unfold ticket_of_text.
  change "null" with (String "n" ("ul" ++ String "l" "")).
  rewrite trim_payload, strip_fence_payload by reflexivity.
  reflexivity.
Qed.

Lemma ticket_missing_field_rejected_witness :
  ticket_of_text
    (wrap BareFence
       (JSON_stringify (JObj [("title", JStr "Fix login"); ("description", JStr "")])))
  = Threw (Error MISSING_FIELDS)
  /\ ticket_of_text
       (JSON_stringify (JObj [("summary", JStr "Fix login")]))
     = Threw (Error MISSING_FIELDS).
Proof.
  split.
  - exact (proj1 (ticket_missing_field_rejected BareFence
                    [("title", JStr "Fix login"); ("description", JStr "")]
                    eq_refl (or_intror eq_refl))).
  - exact (proj1 (ticket_missing_field_rejected NoFence
                    [("summary", JStr "Fix login")]
                    eq_refl (or_introl eq_refl))).
Defined.

End TicketFacts.

Module RemoteFacts.
Import Json Anthropic Effects Github Review Text GithubCli.
Import JsonFacts NormalizerFacts.
#[local] Arguments String.append !s1 s2 : simpl nomatch.

Ltac text_eq :=
  cbn [String.append]; rewrite ?append_assoc; cbn [String.append]; reflexivity.

(** *** Trimming the output of a command *)

Lemma trimEnd_line (s : string) (c : ascii) :
  is_js_space c = false ->
  trimEnd (s ++ String c (String LF "")) = s ++ String c "".
Proof.
  intros Hc. induction s as [|a s IH]; cbn [String.append trimEnd].
  - now rewrite Hc.
  - rewrite IH. destruct s; reflexivity.
Qed.

Lemma last_char (p : string) :
  p <> "" -> exists q c, p = q ++ String c "".
Proof.
  induction p as [|a p IH]; [congruence|]. intros _.
  destruct p as [|b p].
  - now exists "", a.
  - destruct IH as (q & c & Hq); [discriminate|].
    exists (String a q), c. cbn [String.append]. now rewrite Hq.
Qed.

Lemma no_space_append (a b : string) :
  no_space (a ++ b) = no_space a && no_space b.
Proof.
  induction a as [|c a IH]; cbn [String.append no_space]; [reflexivity|].
  now rewrite IH, andb_assoc.
Qed.

Lemma no_space_line_terminator (s : string) :
  no_space s = true -> no_line_terminator s = true.
Proof.
  induction s as [|c s IH]; [reflexivity|]. cbn [no_space no_line_terminator].
  intros H. apply andb_true_iff in H. destruct H as [Hc Hs].
  rewrite (IH Hs), andb_true_r.
  unfold is_line_terminator.
  destruct (Ascii.eqb_spec c LF) as [->|]; [discriminate Hc|].
  destruct (Ascii.eqb_spec c CR) as [->|]; [discriminate Hc|reflexivity].
Qed.

(** A line that starts with [a], holds no white space at its end and is
    followed by the line feed the command prints. *)
Lemma trim_line (a c : ascii) (s : string) :
  is_js_space a = false -> is_js_space c = false ->
  trim (String a (s ++ String c (String LF ""))) = String a (s ++ String c "").
Proof.
  intros Ha Hc. unfold trim. cbn [trimStart]. rewrite Ha.
  exact (trimEnd_line (String a s) c Hc).
Qed.

(** *** The capture *)

Lemma lazy_capture_git (p : string) : p <> "" -> lazy_capture (p ++ ".git") = p.
Proof.
  induction p as [|c p IH]; [congruence|]. intros _.
  cbn [String.append lazy_capture].
  destruct p as [|b p].
  - reflexivity.
  - destruct (String.eqb_spec (String b p ++ ".git") ".git") as [H|_].
    + apply (f_equal String.length) in H. rewrite length_append in H.
      cbn in H. lia.
    + rewrite IH by discriminate. reflexivity.
Qed.

Lemma lazy_capture_plain (p : string) :
  endsWith ".git" p = false -> lazy_capture p = p.
Proof.
  induction p as [|c p IH]; [reflexivity|].
  cbn [endsWith lazy_capture]. intros H.
  apply orb_false_iff in H. destruct H as [_ H].
  destruct (String.eqb_spec p ".git") as [->|_].
  - discriminate H.
  - now rewrite IH.
Qed.

Lemma lazy_capture_not_empty (s : string) : s <> "" -> lazy_capture s <> "".
Proof.
  destruct s as [|c r]; [congruence|]. intros _. cbn [lazy_capture].
  destruct (String.eqb r ".git"); discriminate.
Qed.

Lemma lazy_capture_line (s : string) :
  no_line_terminator s = true -> no_line_terminator (lazy_capture s) = true.
Proof.
  induction s as [|c r IH]; [reflexivity|].
  cbn [no_line_terminator lazy_capture]. intros H.
  apply andb_true_iff in H. destruct H as [Hc Hr].
  destruct (String.eqb r ".git"); cbn [no_line_terminator]; rewrite Hc;
    [reflexivity|]. now rewrite IH.
Qed.

Lemma match_here_found (sep : ascii) (tail : string) :
  Ascii.eqb sep ":" || Ascii.eqb sep "/" = true ->
  tail <> "" -> no_line_terminator tail = true ->
  match_here ("github.com" ++ String sep tail) = Some (lazy_capture tail).
Proof.
  intros Hsep Hne Hlt. unfold match_here.
  change (strip_prefix "github.com" ("github.com" ++ String sep tail))
    with (Some (String sep tail)).
  cbv iota beta. rewrite Hsep, Hlt.
  destruct (String.eqb_spec tail "") as [->|_]; [congruence|reflexivity].
Qed.

Lemma match_remote_here (s : string) (r : string) :
  match_here s = Some r -> match_remote s = Some r.
Proof. intros H. destruct s; cbn [match_remote]; now rewrite H. Qed.

Lemma found_ssh (tail : string) :
  tail <> "" -> no_line_terminator tail = true ->
  match_remote ("git@github.com:" ++ tail) = Some (lazy_capture tail).
Proof.
  intros Hne Hlt.
  change ("git@github.com:" ++ tail)
    with (String "g" (String "i" (String "t" (String "@"
            ("github.com" ++ String ":" tail))))).
  do 4 (cbn [match_remote]; 
        match goal with
        | |- context [match_here ?x] =>
            change (match_here x) with (@None string)
        end; cbv iota).
  apply match_remote_here. now apply match_here_found.
Qed.

Lemma found_https (tail : string) :
  tail <> "" -> no_line_terminator tail = true ->
  match_remote ("https://github.com/" ++ tail) = Some (lazy_capture tail).
Proof.
  intros Hne Hlt.
  change ("https://github.com/" ++ tail)
    with (String "h" (String "t" (String "t" (String "p" (String "s"
            (String ":" (String "/" (String "/"
               ("github.com" ++ String "/" tail))))))))).
  do 8 (cbn [match_remote]; 
        match goal with
        | |- context [match_here ?x] =>
            change (match_here x) with (@None string)
        end; cbv iota).
  apply match_remote_here. now apply match_here_found.
Qed.

Lemma append_not_empty (a b : string) : b <> "" -> a ++ b <> "".
Proof. destruct a; cbn; [trivial|discriminate]. Qed.

Lemma no_line_terminator_append (a b : string) :
  no_line_terminator (a ++ b) = no_line_terminator a && no_line_terminator b.
Proof.
  induction a as [|c a IH]; cbn [String.append no_line_terminator]; [reflexivity|].
  now rewrite IH, andb_assoc.
Qed.

(** X11: the repository is read off the remote.  For the two shapes of a
    GitHub remote, [git@github.com:<path>.git] and
    [https://github.com/<path>.git], as [git] prints them (followed by a
    line feed), [detectRepoFromGit] returns [<path>], for every non-empty
    path without white space; the [.git] suffix is dropped once, and a
    remote without the suffix gives its path as it is. *)
Theorem detectRepoFromGit_reads_remote (p : string) :
  p <> "" ->
  no_space p = true ->
  detectRepoFromGit (Ok ("git@github.com:" ++ p ++ ".git" ++ String LF "")) = Some p
  /\ detectRepoFromGit (Ok ("https://github.com/" ++ p ++ ".git" ++ String LF ""))
     = Some p
  /\ (endsWith ".git" p = false ->
      detectRepoFromGit (Ok ("https://github.com/" ++ p ++ String LF "")) = Some p).
Proof.
  intros Hne Hsp.
  pose proof (no_space_line_terminator p Hsp) as Hlt.
  assert (Hgit : no_line_terminator (p ++ ".git") = true)
    by (rewrite no_line_terminator_append, Hlt; reflexivity).
  assert (Hne' : p ++ ".git" <> "") by (apply append_not_empty; discriminate).
  unfold detectRepoFromGit. repeat split.
  - replace ("git@github.com:" ++ p ++ ".git" ++ String LF "")
      with (String "g" (("it@github.com:" ++ p ++ ".gi") ++ String "t" (String LF "")))
      by text_eq.
    rewrite trim_line by reflexivity.
    replace (String "g" (("it@github.com:" ++ p ++ ".gi") ++ String "t" ""))
      with ("git@github.com:" ++ p ++ ".git")
      by text_eq.
    rewrite found_ssh by assumption. now rewrite lazy_capture_git.
  - replace ("https://github.com/" ++ p ++ ".git" ++ String LF "")
      with (String "h" (("ttps://github.com/" ++ p ++ ".gi") ++ String "t" (String LF "")))
      by text_eq.
    rewrite trim_line by reflexivity.
    replace (String "h" (("ttps://github.com/" ++ p ++ ".gi") ++ String "t" ""))
      with ("https://github.com/" ++ p ++ ".git")
      by text_eq.
    rewrite found_https by assumption. now rewrite lazy_capture_git.
  - intros Hplain.
    destruct (last_char p Hne) as (q & c & Hq).
    assert (Hc : is_js_space c = false).
    { rewrite Hq, no_space_append in Hsp. apply andb_true_iff in Hsp.
      destruct Hsp as [_ Hsp]. cbn in Hsp. now destruct (is_js_space c). }
    replace ("https://github.com/" ++ p ++ String LF "")
      with (String "h" (("ttps://github.com/" ++ q) ++ String c (String LF "")))
      by (rewrite Hq; text_eq).
    rewrite trim_line by (reflexivity || exact Hc).
    replace (String "h" (("ttps://github.com/" ++ q) ++ String c ""))
      with ("https://github.com/" ++ p)
      by (rewrite Hq; text_eq).
    rewrite found_https by assumption. now rewrite lazy_capture_plain.
Qed.

Lemma detectRepoFromGit_reads_remote_witness :
  detectRepoFromGit (Ok ("git@github.com:octo/demo.git" ++ String LF "")) = Some "octo/demo"
  /\ detectRepoFromGit (Ok ("https://github.com/octo/demo.git" ++ String LF ""))
     = Some "octo/demo"
  /\ detectRepoFromGit (Ok ("https://github.com/octo/demo" ++ String LF ""))
     = Some "octo/demo".
Proof.
  assert (Hne : "octo/demo" <> "") by discriminate.
  destruct (detectRepoFromGit_reads_remote "octo/demo" Hne eq_refl) as (H1 & H2 & H3).
  exact (conj H1 (conj H2 (H3 eq_refl))).
Defined.

(** *** What a result tells *)

Lemma includes_here (needle s : string) :
  String.prefix needle s = true -> includes needle s = true.
Proof. intros H. destruct s; cbn [includes]; now rewrite H. Qed.

Lemma strip_prefix_prefix (p s rest : string) :
  strip_prefix p s = Some rest -> String.prefix p s = true.
Proof.
  revert s. induction p as [|a p IH]; intros s H; [now destruct s|].
  destruct s as [|b s]; [discriminate|]. cbn [strip_prefix] in H. cbn [String.prefix].
  destruct (Ascii.eqb_spec a b) as [->|]; [|discriminate].
  destruct (ascii_dec b b); [|congruence]. now apply IH.
Qed.

Lemma match_here_sound (s r : string) :
  match_here s = Some r ->
  r <> "" /\ no_line_terminator r = true /\ String.prefix "github.com" s = true.
Proof.
  unfold match_here.
  destruct (strip_prefix "github.com" s) as [[|sep tail]|] eqn:Hp; try discriminate.
  destruct (Ascii.eqb sep ":" || Ascii.eqb sep "/"); [|discriminate].
  destruct (String.eqb_spec tail "") as [|Hne]; [discriminate|].
  destruct (no_line_terminator tail) eqn:Hlt; [|discriminate].
  intros [= <-]. repeat split.
  - now apply lazy_capture_not_empty.
  - now apply lazy_capture_line.
  - now apply (strip_prefix_prefix _ _ (String sep tail)).
Qed.

Lemma match_remote_sound (s r : string) :
  match_remote s = Some r ->
  r <> "" /\ no_line_terminator r = true /\ includes "github.com" s = true.
Proof.
  induction s as [|c s IH]; cbn [match_remote].
  - destruct (match_here "") eqn:H; [|discriminate].
    intros [= <-]. discriminate H.
  - destruct (match_here (String c s)) as [r0|] eqn:H.
    + intros [= <-]. destruct (match_here_sound _ _ H) as (H1 & H2 & H3).
      repeat split; try assumption. now apply includes_here.
    + intros Hr. destruct (IH Hr) as (H1 & H2 & H3).
      repeat split; try assumption.
      cbn [includes]. rewrite H3. apply orb_true_r.
Qed.

(** X12: [detectRepoFromGit] never makes a repository up.  When it
    returns one, [git] answered, the trimmed remote mentions [github.com],
    and the repository is a non-empty text on one line; when [git] fails
    it returns none. *)
Theorem detectRepoFromGit_sound (origin : result string) (r : string) :
  detectRepoFromGit origin = Some r ->
  r <> ""
  /\ no_line_terminator r = true
  /\ exists out : string,
       origin = Ok out /\ includes "github.com" (trim out) = true.
Proof.
  destruct origin as [out|msg]; [|discriminate]. cbn [detectRepoFromGit].
  intros H. destruct (match_remote_sound _ _ H) as (H1 & H2 & H3).
  repeat split; try assumption. now exists out.
Qed.

Lemma detectRepoFromGit_sound_witness :
  detectRepoFromGit (Ok ("git@github.com:octo/demo.git" ++ String LF "")) = Some "octo/demo"
  /\ "octo/demo" <> ""
  /\ detectRepoFromGit (Ok "git@gitlab.com:octo/demo.git") = None
  /\ detectRepoFromGit (Err "not a git repository") = None.
Proof.
  assert (H : detectRepoFromGit (Ok ("git@github.com:octo/demo.git" ++ String LF ""))
              = Some "octo/demo") by reflexivity.
  split; [exact H|].
  split; [exact (proj1 (detectRepoFromGit_sound _ _ H))|].
  split; reflexivity.
Defined.

End RemoteFacts.

Module ResolveFacts.
Import Json Anthropic Effects Github Review Interaction Text GithubCli.
Import JsonFacts EffectsFacts ReviewFacts ReviewRuns.
Local Open Scope effect_scope.
#[local] Arguments String.append !s1 s2 : simpl nomatch.

(** *** The number in the argument *)

Lemma read_digits_printed (u : Decimal.uint) (rest : string) :
  starts_with_digit rest = false ->
  read_digits (NilEmpty.string_of_uint u ++ rest) = (u, rest).
Proof.
  intros Hrest.
  induction u; simpl; try (rewrite IHu; reflexivity).
  destruct rest as [|c r]; simpl in *; [reflexivity|].
  destruct (digit c); [discriminate|reflexivity].
Qed.

Lemma match_digits_skip (pre s : string) :
  no_digit pre = true -> match_digits (pre ++ s) = match_digits s.
Proof.
  induction pre as [|c pre IH]; [reflexivity|].
  cbn [no_digit String.append match_digits].
  destruct (digit c); [discriminate|]. exact IH.
Qed.

Lemma match_digits_number (n : N) (rest : string) :
  starts_with_digit rest = false ->
  match_digits (N_to_string n ++ rest) = Some (N.to_uint n).
Proof.
  intros Hrest.
  destruct (N_to_string_head n rest) as (c & s & Hs & Hc).
  rewrite Hs. cbn [match_digits].
  destruct (digit c) as [d|]; [|congruence].
  rewrite <- Hs. unfold N_to_string.
  now rewrite (read_digits_printed _ rest Hrest).
Qed.

Lemma match_digits_none (arg : string) :
  no_digit arg = true -> match_digits arg = None.
Proof.
  induction arg as [|c arg IH]; [reflexivity|].
  cbn [no_digit match_digits]. destruct (digit c); [discriminate|exact IH].
Qed.

Lemma parseInt_to_uint (n : N) : parseInt (N.to_uint n) = Z.of_N n.
Proof. unfold parseInt. now rewrite DecimalN.Unsigned.of_to. Qed.

Lemma truthy_some (s : string) : s <> "" -> truthy (Some s) = Some s.
Proof. destruct s; [congruence|reflexivity]. Qed.

(** X13: the pull request named on the command line is the first run of
    decimal digits of the argument, whatever stands before and after it (a
    bare number, [#12], a pull-request URL whose owner and repository hold
    no digit), for a number in the safe range: with [gh] authenticated,
    [resolvePR] asks for that pull request and returns its number, base
    branch and head commit, and the repository of the git remote or the
    empty text.  An argument without a digit ends the run with status 1. *)
Theorem resolvePR_reads_argument
        (cli : Cli) (pre post : string) (n : N) (info : PRInfo.t) :
  no_digit pre = true ->
  starts_with_digit post = false ->
  Json.safe_integer (Z.of_N n) = true ->
  ghAuthenticated cli = true ->
  prView cli (Z.of_N n) = Some info ->
  resolved cli (Some (pre ++ N_to_string n ++ post))
  = inl (mkPR (Z.of_N n) (PRInfo.baseRefName info) (PRInfo.headRefOid info)
              (default "" (detectRepoFromGit (origin cli))))
  /\ (forall arg : string,
         arg <> "" -> no_digit arg = true ->
         resolved cli (Some arg)
         = inr (Fatal ("Cannot parse PR number from: " ++ arg))).
Proof.
  intros Hpre Hpost _ Hauth Hview. unfold resolved, resolvePR, result_of, checkGhCli.
  rewrite Hauth. split.
  - rewrite truthy_some.
    2:{ destruct (N_to_string_head n post) as (c & s & Hs & _).
        rewrite Hs. destruct pre; discriminate. }
    rewrite match_digits_skip, match_digits_number, parseInt_to_uint by assumption.
    unfold getPRInfo. rewrite Hview. reflexivity.
  - intros arg Hne Hnd. rewrite truthy_some by exact Hne.
    rewrite match_digits_none by exact Hnd. reflexivity.
Qed.

Lemma resolvePR_reads_argument_witness :
  let cli :=
    mkCli true None None
          (fun n => if n =? 456 then
                      Some (PRInfo.mk 456 "Fix" "OPEN" "fix" "main" "abc123" "u")
                    else None)
          (Ok ("git@github.com:octo/demo.git" ++ String LF ""))
          true (fun _ => 0) in
  resolved cli (Some "https://github.com/octo/demo/pull/456")
  = inl (mkPR 456 "main" "abc123" "octo/demo")
  /\ resolved cli (Some "#456") = inl (mkPR 456 "main" "abc123" "octo/demo").
Proof.
  cbv zeta. split.
  - exact (proj1 (resolvePR_reads_argument
                    (mkCli true None None
                       (fun n => if n =? 456 then
                                   Some (PRInfo.mk 456 "Fix" "OPEN" "fix" "main" "abc123" "u")
                                 else None)
                       (Ok ("git@github.com:octo/demo.git" ++ String LF ""))
                       true (fun _ => 0))
                    "https://github.com/octo/demo/pull/" "" 456
                    (PRInfo.mk 456 "Fix" "OPEN" "fix" "main" "abc123" "u")
                    eq_refl eq_refl eq_refl eq_refl eq_refl)).
  - exact (proj1 (resolvePR_reads_argument
                    (mkCli true None None
                       (fun n => if n =? 456 then
                                   Some (PRInfo.mk 456 "Fix" "OPEN" "fix" "main" "abc123" "u")
                                 else None)
                       (Ok ("git@github.com:octo/demo.git" ++ String LF ""))
                       true (fun _ => 0))
                    "#" "" 456
                    (PRInfo.mk 456 "Fix" "OPEN" "fix" "main" "abc123" "u")
                    eq_refl eq_refl eq_refl eq_refl eq_refl)).
Defined.

(** *** What resolving does and does not do *)

Lemma append_only_checkGhCli cli : append_only (checkGhCli cli).
Proof. unfold checkGhCli. append_only. Qed.

Lemma append_only_getPRInfo cli n : append_only (getPRInfo cli n).
Proof. unfold getPRInfo. append_only. Qed.

Lemma append_only_repoFromGit cli : append_only (repoFromGit cli).
Proof. unfold repoFromGit. append_only. Qed.

Lemma append_only_detectPR cli : append_only (detectPR cli).
Proof. unfold detectPR. append_only. Qed.

Lemma append_only_listOpenPRs cli : append_only (listOpenPRs cli).
Proof. unfold listOpenPRs. append_only. Qed.

Ltac resolve_cases cli prArg :=
  unfold events_of, disk_of, result_of, resolvePR, checkGhCli, selectPR,
    detectPR, listOpenPRs, getPRInfo, repoFromGit, query, die;
  destruct (ghAuthenticated cli) eqn:Hauth;
  [ destruct (truthy prArg) as [arg|] eqn:Harg;
    [ destruct (match_digits arg) as [ds|]
    | destruct (prOfBranch cli) as [pr|];
      [ destruct (useDetected cli);
        [ | destruct (default [] (openPRs cli)) as [|pr0 prs] ]
      | destruct (default [] (openPRs cli)) as [|pr0 prs] ] ]
  | ];
  cbn [bind ret stop emit log initial fst snd trace disk app];
  try match goal with
      | |- context [prView cli ?x] => destruct (prView cli x) as [info|]
      end;
  cbn [bind ret stop emit log initial fst snd trace disk app].

(** X14: resolving the pull request is read-only, and silent when a pull
    request is named.  Whatever [gh] and [git] answer, [resolvePR] writes
    nothing and makes no host-mutating call; given an argument it asks the
    operator nothing; and without an authenticated [gh] it stops with
    status 1 right after the check, before any other query. *)
Theorem resolvePR_is_read_only
        (cli : Cli) (prArg : option string) (d : gmap string string) :
  quiet (events_of (resolvePR cli prArg) d)
  /\ disk_of (resolvePR cli prArg) d = d
  /\ (truthy prArg <> None -> unprompted (events_of (resolvePR cli prArg) d))
  /\ (ghAuthenticated cli = false ->
      List.filter (fun e => negb (is_console e)) (events_of (resolvePR cli prArg) d)
      = [EvQuery "gh auth status"]
      /\ exit_code (match result_of (resolvePR cli prArg) d with
                    | inl _ => Done Posted
                    | inr o => o
                    end) = 1).
Proof.
  repeat split.
  - resolve_cases cli prArg; repeat constructor.
  - resolve_cases cli prArg; reflexivity.
  - intros Hgiven. resolve_cases cli prArg; try congruence; repeat constructor.
  - revert H. resolve_cases cli prArg; intros; try discriminate; reflexivity.
  - revert H. resolve_cases cli prArg; intros; try discriminate; reflexivity.
Qed.

Lemma resolvePR_is_read_only_witness :
  let cli := mkCli false None None (fun _ => None) (Err "no remote") true (fun _ => 0) in
  List.filter (fun e => negb (is_console e)) (events_of (resolvePR cli (Some "12")) ∅)
  = [EvQuery "gh auth status"]
  /\ unprompted (events_of (resolvePR cli (Some "12")) ∅).
Proof.
  cbv zeta.
  destruct (resolvePR_is_read_only
              (mkCli false None None (fun _ => None) (Err "no remote") true (fun _ => 0))
              (Some "12") ∅) as (_ & _ & Hu & Hauth).
  split; [exact (proj1 (Hauth eq_refl))|].
  apply Hu. discriminate.
Defined.

End ResolveFacts.

Module RepositoryFacts.
Import Json Anthropic Effects Github Review Text GithubCli.
Import JsonFacts.
#[local] Arguments String.append !s1 s2 : simpl nomatch.

Lemma split_slash_head (a rest : string) :
  without "/" a = true ->
  rest = "" \/ (exists r, rest = String "/" r) ->
  exists t, split_slash (a ++ rest) = a :: t
            /\ (rest = "" -> t = [])
            /\ (forall r, rest = String "/" r -> t = split_slash r).
Proof.
  intros Ha Hrest. induction a as [|c a IH].
  - cbn [String.append]. destruct Hrest as [->|[r ->]].
    + exists []. repeat split. intros r [=].
    + exists (split_slash r). cbn [split_slash].
      change (Ascii.eqb "/" "/") with true. cbv iota.
      repeat split; [discriminate|]. now intros r0 [= ->].
  - cbn [without] in Ha. apply andb_true_iff in Ha. destruct Ha as [Hc Ha].
    destruct (IH Ha) as (t & Ht & Hnil & Hcons).
    exists t. cbn [String.append split_slash].
    destruct (Ascii.eqb c "/"); [discriminate Hc|].
    rewrite Ht. repeat split; assumption.
Qed.

Lemma owner_and_name (owner name rest : string) :
  without "/" owner = true ->
  without "/" name = true ->
  rest = "" \/ (exists r, rest = String "/" r) ->
  nth 0 (split_slash (owner ++ "/" ++ name ++ rest)) "undefined" = owner
  /\ nth 1 (split_slash (owner ++ "/" ++ name ++ rest)) "undefined" = name.
Proof.
  intros Ho Hn Hrest.
  destruct (split_slash_head owner ("/" ++ name ++ rest) Ho) as (t & Ht & _ & Hcons).
  { right. now exists (name ++ rest). }
  rewrite Ht, (Hcons (name ++ rest) eq_refl).
  destruct (split_slash_head name rest Hn Hrest) as (t' & Ht' & _).
  rewrite Ht'. split; reflexivity.
Qed.

(** X15: delivery addresses the repository of the review.  For a
    repository [owner/name] (whatever follows a second slash is ignored),
    the structured submission goes to [repos/owner/name/pulls/<n>/reviews]
    and every fallback comment to [--repo owner/name]; a repository
    without a slash is not rejected: its name part is then the text
    [undefined]. *)
Theorem delivery_addresses_repository
        (review : ReviewFile) (owner name rest : string) :
  without "/" owner = true ->
  without "/" name = true ->
  rest = "" \/ (exists r, rest = String "/" r) ->
  repo review = owner ++ "/" ++ name ++ rest ->
  (forall approved : list ReviewFinding,
      review_call review approved
      = EvExec ("gh api repos/" ++ owner ++ "/" ++ name ++ "/pulls/"
                ++ Z_to_string (pr review) ++ "/reviews --method POST --input -")
               (Some (JSON_stringify (payload review approved))))
  /\ (forall text : string,
         comment_call review text
         = EvExec ("gh pr comment " ++ Z_to_string (pr review) ++ " --repo "
                   ++ owner ++ "/" ++ name
                   ++ " --body " ++ JSON_stringify (JStr text))
                  None)
  /\ (forall other : ReviewFile,
         without "/" (repo other) = true ->
         owner_of other = repo other /\ repo_of other = "undefined").
Proof.
  intros Ho Hn Hrest Hrepo.
  destruct (owner_and_name owner name rest Ho Hn Hrest) as [H0 H1].
  unfold review_call, comment_call, owner_of, repo_of. rewrite Hrepo, H0, H1.
  repeat split.
  - destruct (split_slash_head (repo other) "" H (or_introl eq_refl))
      as (t & Ht & Hnil & _).
    rewrite append_nil_r in Ht. rewrite Ht. reflexivity.
  - destruct (split_slash_head (repo other) "" H (or_introl eq_refl))
      as (t & Ht & Hnil & _).
    rewrite append_nil_r in Ht. rewrite Ht, (Hnil eq_refl). reflexivity.
Qed.

Lemma delivery_addresses_repository_witness :
  review_call Samples.review42 []
  = EvExec "gh api repos/octo/demo/pulls/42/reviews --method POST --input -"
           (Some (JSON_stringify (payload Samples.review42 []))).
Proof.
  exact (proj1 (delivery_addresses_repository Samples.review42 "octo" "demo" ""
                  eq_refl eq_refl (or_introl eq_refl) eq_refl) []).
Defined.

End RepositoryFacts.

Module ConfigFacts.
Import Json Effects Github Text Config.
Import JsonFacts EffectsFacts.
Local Open Scope effect_scope.
#[local] Arguments String.append !s1 s2 : simpl nomatch.

(** *** Profile names *)

Lemma endsWith_append (name suffix : string) : endsWith suffix (name ++ suffix) = true.
Proof.
  induction name as [|c name IH]; cbn [String.append].
  - destruct suffix; cbn [endsWith]; now rewrite String.eqb_refl.
  - cbn [endsWith]. rewrite IH. apply orb_true_r.
Qed.

Lemma includes_prefix_false (needle s : string) :
  includes needle s = false -> String.prefix needle s = false.
Proof.
  destruct s; cbn [includes]; intros H; apply orb_false_iff in H; tauto.
Qed.

Lemma includes_tail_false (needle : string) (c : ascii) (s : string) :
  includes needle (String c s) = false -> includes needle s = false.
Proof. cbn [includes]. intros H. apply orb_false_iff in H. tauto. Qed.

(** The extension does not start inside a name that does not hold it. *)
Lemma extension_not_early (c : ascii) (name : string) :
  String.prefix ".env" (String c name) = false ->
  strip_prefix ".env" (String c (name ++ ".env")) = None.
Proof.
  intros H. cbn [String.append strip_prefix].
  destruct (Ascii.eqb_spec "." c) as [<-|]; [|reflexivity].
  destruct name as [|c2 name]; [reflexivity|]. cbn [String.append strip_prefix].
  destruct (Ascii.eqb_spec "e" c2) as [<-|]; [|reflexivity].
  destruct name as [|c3 name]; [reflexivity|]. cbn [String.append strip_prefix].
  destruct (Ascii.eqb_spec "n" c3) as [<-|]; [|reflexivity].
  destruct name as [|c4 name]; [reflexivity|]. cbn [String.append strip_prefix].
  destruct (Ascii.eqb_spec "v" c4) as [<-|]; [|reflexivity].
  simpl in H. destruct name; discriminate H.
Qed.

Lemma replace_extension (name : string) :
  includes ".env" name = false -> replace ".env" "" (name ++ ".env") = name.
Proof.
  induction name as [|c name IH]; [reflexivity|]. intros H.
  cbn [String.append replace].
  rewrite extension_not_early by now apply includes_prefix_false.
  rewrite IH; [reflexivity|].
  now apply (includes_tail_false _ c).
Qed.

(** X16: the profiles are the [.env] files of the profiles directory.  A
    file [<name>.env] whose name does not itself contain [.env] is listed
    as [<name>]; every listed profile comes from a file that ends in
    [.env], with the first [.env] of the file name removed; and a missing
    directory lists nothing. *)
Theorem listProfiles_names (files : list string) (name : string) :
  includes ".env" name = false ->
  In (name ++ ".env") files ->
  In name (listProfiles (Some files))
  /\ (forall p : string,
         In p (listProfiles (Some files)) ->
         exists f, In f files /\ endsWith ".env" f = true
                   /\ p = replace ".env" "" f)
  /\ listProfiles None = [].
Proof.
  intros Hname Hin. unfold listProfiles. repeat split.
  - apply List.in_map_iff. exists (name ++ ".env").
    split; [now apply replace_extension|].
    apply List.filter_In. split; [exact Hin|apply endsWith_append].
  - intros p Hp. apply List.in_map_iff in Hp. destruct Hp as (f & <- & Hf).
    apply List.filter_In in Hf. destruct Hf as [Hf He]. now exists f.
Qed.

Lemma listProfiles_names_witness :
  In "betanet" (listProfiles (Some ["README.md"; "betanet.env"; "default.env"]))
  /\ listProfiles (Some ["my.envs.env"]) = ["mys.env"].
Proof.
  split; [|reflexivity].
  refine (proj1 (listProfiles_names ["README.md"; "betanet.env"; "default.env"]
                   "betanet" eq_refl _)).
  right. left. reflexivity.
Defined.

(** *** [config init] *)

Lemma config_init_disk (home : string) (d : gmap string string) :
  disk_of (config_init home) d
  = match d !! (getProfilesDir home ++ "/default.env") with
    | Some _ => d
    | None => <[getProfilesDir home ++ "/default.env" := SAMPLE_PROFILE]> d
    end.
Proof.
  unfold disk_of, config_init, bind, read_disk, write, log, emit.
  cbn [initial disk fst snd].
  destruct (d !! (getProfilesDir home ++ "/default.env")); reflexivity.
Qed.

(** X17: [config init] never overwrites a profile.  An existing
    [default.env] is left as it is, and the disk with it; a missing one is
    created with the sample text, no other file being touched; running the
    command a second time changes nothing. *)
Theorem config_init_keeps_existing_profile (home : string) (d : gmap string string) :
  let samplePath := getProfilesDir home ++ "/default.env" in
  (is_Some (d !! samplePath) -> disk_of (config_init home) d = d)
  /\ (d !! samplePath = None ->
      disk_of (config_init home) d !! samplePath = Some SAMPLE_PROFILE)
  /\ (forall path : string,
         path <> samplePath -> disk_of (config_init home) d !! path = d !! path)
  /\ disk_of (config_init home) (disk_of (config_init home) d)
     = disk_of (config_init home) d.
Proof.
  cbv zeta. rewrite !config_init_disk. repeat split.
  - intros [content ->]. reflexivity.
  - intros ->. apply lookup_insert_eq.
  - intros path Hne.
    destruct (d !! (getProfilesDir home ++ "/default.env")); [reflexivity|].
    now apply lookup_insert_ne.
  - destruct (d !! (getProfilesDir home ++ "/default.env")) eqn:Hd.
    + now rewrite Hd.
    + now rewrite lookup_insert_eq.
Qed.

(** *** [loadConfig] *)

(** X18: precedence in [loadConfig].  With a profile, a variable the
    profile assigns has the profile's value, whatever the shell and the
    project [.env] say; one the profile leaves out has the shell's value
    if the shell sets it, and the project file's otherwise.  A profile that
    does not exist ends the run with status 1. *)
Theorem loadConfig_precedence
        (parse : string -> gmap string string)
        (home cwd name project profile : string)
        (shell d : gmap string string) :
  name <> "" ->
  d !! (cwd ++ "/.env") = Some project ->
  d !! profilePath home name = Some profile ->
  (exists env : gmap string string,
      result_of (loadEnv parse home cwd shell (Some name)) d = inl env
      /\ result_of (loadConfig parse home cwd shell (Some name)) d
         = inl (config_of env)
      /\ forall k : string,
           match parse profile !! k, shell !! k with
           | Some v, _ => env !! k = Some v
           | None, Some v => env !! k = Some v
           | None, None => env !! k = parse project !! k
           end)
  /\ (forall missing : string,
         missing <> "" ->
         d !! profilePath home missing = None ->
         result_of (loadConfig parse home cwd shell (Some missing)) d
         = inr (Fatal (not_found home missing))).
Proof.
  intros Hname Hproject Hprofile. split.
  - exists (parse profile ∪ (shell ∪ parse project)).
    assert (Henv : result_of (loadEnv parse home cwd shell (Some name)) d
                   = inl (parse profile ∪ (shell ∪ parse project))).
    { unfold result_of, loadEnv, bind, read_disk. cbn [initial disk fst snd].
      rewrite Hproject.
      destruct name as [|c name]; [congruence|]. cbn [Review.truthy].
      rewrite Hprofile. reflexivity. }
    split; [exact Henv|]. split.
    + unfold loadConfig, result_of, bind in *.
      destruct (loadEnv parse home cwd shell (Some name) (initial d)) as [[env|o] w];
        cbn [fst] in Henv; [|discriminate].
      injection Henv as ->. reflexivity.
    + intros k.
      destruct (parse profile !! k) as [v|] eqn:Hp.
      * apply lookup_union_Some_l. exact Hp.
      * rewrite lookup_union_r by exact Hp.
        destruct (shell !! k) as [v|] eqn:Hs.
        -- now apply lookup_union_Some_l.
        -- now rewrite lookup_union_r.
  - intros missing Hne Hmiss.
    unfold result_of, loadConfig, loadEnv, bind, read_disk. cbn [initial disk fst snd].
    destruct missing as [|c missing]; [congruence|]. cbn [Review.truthy].
    rewrite Hmiss. reflexivity.
Qed.

Lemma loadConfig_precedence_witness :
  let parse := fun text : string =>
                 if String.eqb text "profile"
                 then {[ "ANTHROPIC_API_KEY" := "from-profile" ]}
                 else ({[ "ANTHROPIC_API_KEY" := "from-project";
                          "GITHUB_REPO" := "octo/demo" ]} : gmap string string) in
  let shell : gmap string string :=
    {[ "ANTHROPIC_API_KEY" := "from-shell"; "LINEAR_API_KEY" := "lin" ]} in
  let d : gmap string string :=
    {[ "/work/.env" := "project";
       "/home/u/.config/pm-cli/profiles/betanet.env" := "profile" ]} in
  exists env,
    result_of (loadEnv parse "/home/u" "/work" shell (Some "betanet")) d = inl env
    /\ env !! "ANTHROPIC_API_KEY" = Some "from-profile"
    /\ env !! "LINEAR_API_KEY" = Some "lin"
    /\ env !! "GITHUB_REPO" = Some "octo/demo".
Proof.
  intros parse shell d.
  assert (Hname : "betanet" <> "") by discriminate.
  assert (H1 : d !! ("/work" ++ "/.env") = Some "project")
    by (vm_compute; reflexivity).
  assert (H2 : d !! profilePath "/home/u" "betanet" = Some "profile")
    by (vm_compute; reflexivity).
  destruct (loadConfig_precedence parse "/home/u" "/work" "betanet"
              "project" "profile" shell d Hname H1 H2)
    as [(env & Henv & _ & Hk) _].
  exists env. split; [exact Henv|].
  pose proof (Hk "ANTHROPIC_API_KEY") as Ha.
  pose proof (Hk "LINEAR_API_KEY") as Hl.
  pose proof (Hk "GITHUB_REPO") as Hg.
  vm_compute in Ha, Hl, Hg. vm_compute.
  split; [exact Ha|]. split; [exact Hl|exact Hg].
Defined.

(** *** [config list] *)

Lemma list_each_step (home p : string) (r : list string) (w : World) :
  list_each home (p :: r) w
  = match disk w !! profilePath home p with
    | None => (inr (Uncaught "readFileSync"), w)
    | Some content =>
        list_each home r
          (mkWorld (trace w ++ [EvConsole (profile_line p content)]) (disk w))
    end.
Proof.
  cbn [list_each]. unfold bind at 1, read_disk.
  destruct (disk w !! profilePath home p); reflexivity.
Qed.

Lemma append_only_list_each home profiles : append_only (list_each home profiles).
Proof.
  induction profiles as [|p r IH]; [cbn [list_each]; append_only|].
  intros w. rewrite !list_each_step. cbn [initial disk trace app].
  destruct (disk w !! profilePath home p) as [content|].
  2:{ cbn [fst snd trace disk]. rewrite List.app_nil_r. now destruct w. }
  rewrite (IH (mkWorld (trace w ++ [EvConsole (profile_line p content)]) (disk w))).
  rewrite (IH (mkWorld [EvConsole (profile_line p content)] (disk w))).
  cbn [trace disk initial fst snd]. now rewrite <- List.app_assoc.
Qed.

Lemma list_each_reads (home : string) (d : gmap string string) (names : list string) :
  (forall n, In n names -> is_Some (d !! profilePath home n)) ->
  result_of (list_each home names) d = inl tt
  /\ disk_of (list_each home names) d = d
  /\ events_of (list_each home names) d
     = map (fun n => EvConsole
                       (profile_line n (default "" (d !! profilePath home n))))
           names.
Proof.
  induction names as [|n names IH]; intros Hall; [repeat split|].
  destruct IH as (Hr & Hd & He); [intros m Hm; apply Hall; now right|].
  destruct (Hall n (or_introl eq_refl)) as [content Hn].
  unfold result_of, disk_of, events_of in *.
  rewrite list_each_step. cbn [initial disk trace app]. rewrite Hn.
  rewrite (append_only_list_each home names
             (mkWorld [EvConsole (profile_line n content)] d)).
  cbn [trace disk initial fst snd map default].
  rewrite Hr, Hd, He, Hn. repeat split.
Qed.

(** X19: [config list] prints one line per profile.  When the [.env]
    files of the profiles directory are [<name>.env] for names that do not
    themselves contain [.env], and each can be read, the command ends
    normally, leaves the disk as it is and prints, between the heading and
    the directory, the line of every profile in the order of the listing;
    a directory without [.env] files prints the hint instead. *)
Theorem config_list_prints_every_profile
        (home : string) (files names : list string) (d : gmap string string) :
  List.filter (endsWith ".env") files = map (fun n => n ++ ".env") names ->
  Forall (fun n => includes ".env" n = false) names ->
  (forall n, In n names -> is_Some (d !! profilePath home n)) ->
  result_of (config_list home (Some files)) d = inl tt
  /\ disk_of (config_list home (Some files)) d = d
  /\ events_of (config_list home (Some files)) d
     = match names with
       | [] => [EvConsole "No profiles found."; EvConsole RUN_INIT]
       | _ =>
           (EvConsole ("Available profiles:" ++ String LF "")
            :: map (fun n => EvConsole
                               (profile_line n (default "" (d !! profilePath home n))))
                   names
            ++ [EvConsole (String LF ("Profiles directory: " ++ getProfilesDir home))])%list
       end.
Proof.
  intros Hfiles Hnames Hread.
  assert (Hlist : listProfiles (Some files) = names).
  { unfold listProfiles. rewrite Hfiles, List.map_map.
    clear Hfiles Hread. induction Hnames as [|n names Hn _ IH]; [reflexivity|].
    cbn [map]. now rewrite replace_extension, IH. }
  unfold config_list. rewrite Hlist.
  destruct names as [|n names]; [repeat split|].
  destruct (list_each_reads home d (n :: names) Hread) as (Hr & Hd & He).
  rewrite !result_of_bind, !disk_of_bind, !events_of_bind
    by (intros; auto using append_only_list_each with effects; append_only;
        apply append_only_list_each).
  cbn [result_of disk_of events_of log emit initial fst snd trace disk] in *.
  rewrite Hr, Hd, He. repeat split.
Qed.

Lemma config_list_prints_every_profile_witness :
  let d : gmap string string :=
    {[ "/home/u/.config/pm-cli/profiles/default.env" := SAMPLE_PROFILE;
       "/home/u/.config/pm-cli/profiles/betanet.env"
         := "ANTHROPIC_API_KEY=sk-ant-1" ++ String LF "" ]} in
  events_of (config_list "/home/u" (Some ["betanet.env"; "default.env"; "notes.txt"])) d
  = [ EvConsole ("Available profiles:" ++ String LF "");
      EvConsole "  betanet  [review]";
      EvConsole "  default  [unconfigured]";
      EvConsole (String LF "Profiles directory: /home/u/.config/pm-cli/profiles") ].
Proof.
  intros d.
  assert (Hread : forall n, In n ["betanet"; "default"] ->
                            is_Some (d !! profilePath "/home/u" n)).
  { intros n [<-|[<-|[]]]; vm_compute; eauto. }
  destruct (config_list_prints_every_profile "/home/u"
              ["betanet.env"; "default.env"; "notes.txt"] ["betanet"; "default"] d
              eq_refl ltac:(repeat constructor) Hread) as (_ & _ & He).
  rewrite He. vm_compute. reflexivity.
Defined.

End ConfigFacts.

Module LinearFacts.
Import Json Anthropic Js Text Linear.
Import JsonFacts.
#[local] Arguments String.append !s1 s2 : simpl nomatch.

(** *** One exchange *)

(** X20: [linearQuery] returns data only from a clean answer.  It returns
    a value exactly when the response has an ok status, its body is JSON
    without a truthy [errors] member, and the value is the truthy [data]
    member of the body; so a body that carries both [data] and [errors] (a
    partial GraphQL result) is a failure, never data. *)
Theorem linearQuery_returns_clean_data (response : Response) (data : json) :
  linearQuery_response response = Returned data
  <-> exists (status : Z) (statusText : string) (result : json),
        response = Http true status statusText (Ok result)
        /\ truthy_value (member "errors" result) = false
        /\ member "data" result = Some data
        /\ truthy_value (Some data) = true.
Proof.
  split.
  - destruct response as [msg|[] status statusText [result|msg]];
      cbn [linearQuery_response]; try discriminate.
    intros H. exists status, statusText, result.
    destruct result as [ |b|m e|s|vs|kvs]; try discriminate H;
      unfold member in *; try discriminate H.
    destruct (truthy_value (obj_get "errors" kvs)) eqn:He.
    + destruct (obj_get "errors" kvs) as [[ | | | |errors| ]|]; try discriminate H.
      destruct (messages errors); discriminate H.
    + destruct (obj_get "data" kvs) as [d|]; [|discriminate H].
      destruct (truthy_value (Some d)) eqn:Hd; [|discriminate H].
      injection H as <-. auto.
  - intros (status & statusText & result & -> & He & Hd & Ht).
    cbn [linearQuery_response].
    destruct result as [ |b|m e|s|vs|kvs]; try discriminate Hd.
    rewrite He, Hd, Ht. reflexivity.
Qed.

(** *** Identifiers *)

Lemma letter_not_dash (c : ascii) : is_letter c = true -> Ascii.eqb c "-" = false.
Proof.
  intros H. destruct (Ascii.eqb_spec c "-") as [->|]; [discriminate H|reflexivity].
Qed.

Lemma letters_then_key (teamKey digits : string) :
  teamKey <> "" -> all_letters teamKey = true ->
  letters_then (teamKey ++ String "-" digits) = Some digits.
Proof.
  induction teamKey as [|c r IH]; [congruence|]. intros _ H.
  cbn [all_letters] in H. apply andb_true_iff in H. destruct H as [Hc Hr].
  cbn [String.append letters_then]. rewrite Hc.
  destruct r as [|d r].
  - cbn [String.append]. change (Ascii.eqb "-" "-") with true. reflexivity.
  - cbn [String.append].
    assert (Hd : is_letter d = true)
      by (cbn [all_letters] in Hr; apply andb_true_iff in Hr; tauto).
    rewrite (letter_not_dash d Hd).
    apply IH; [discriminate|exact Hr].
Qed.

Lemma all_digits_uint (u : Decimal.uint) :
  all_digits (NilEmpty.string_of_uint u) = true.
Proof. induction u; cbn; trivial. Qed.

Lemma digit_not_dash (s : string) : all_digits s = true -> without "-" s = true.
Proof.
  induction s as [|c s IH]; [reflexivity|]. cbn [all_digits without].
  destruct (digit c) eqn:Hc; [|discriminate]. intros H.
  rewrite (IH H), andb_true_r.
  destruct (Ascii.eqb_spec c "-") as [->|]; [discriminate Hc|reflexivity].
Qed.

Lemma letters_not_dash (s : string) : all_letters s = true -> without "-" s = true.
Proof.
  induction s as [|c s IH]; [reflexivity|]. cbn [all_letters without].
  intros H. apply andb_true_iff in H. destruct H as [Hc Hs].
  now rewrite (letter_not_dash c Hc), (IH Hs).
Qed.

Lemma split_whole (sep : ascii) (s : string) :
  without sep s = true -> split sep s = [s].
Proof.
  induction s as [|c s IH]; [reflexivity|]. cbn [without split].
  intros H. apply andb_true_iff in H. destruct H as [Hc Hs].
  destruct (Ascii.eqb c sep); [discriminate Hc|]. now rewrite (IH Hs).
Qed.

Lemma split_first (sep : ascii) (a b : string) :
  without sep a = true -> split sep (a ++ String sep b) = a :: split sep b.
Proof.
  induction a as [|c a IH]; cbn [String.append without split].
  - intros _. now rewrite Ascii.eqb_refl.
  - intros H. apply andb_true_iff in H. destruct H as [Hc Ha].
    destruct (Ascii.eqb c sep); [discriminate Hc|]. now rewrite (IH Ha).
Qed.

Lemma read_digits_all (u : Decimal.uint) :
  read_digits (NilEmpty.string_of_uint u) = (u, "").
Proof.
  pose proof (ResolveFacts.read_digits_printed u "" eq_refl) as H.
  now rewrite append_nil_r in H.
Qed.

(** X21: an issue is looked up by what its identifier says.  For a key of
    letters and a number in the safe range, [readIssue] on [<key>-<number>]
    sends one request, the filtered [issues] query with the key in upper
    case and the number as variables; it returns the first node of the
    answer and throws [Issue "<id>" not found.] when there is none.  Any
    other text is taken for the id of the issue and sent as it is with the
    [issue] query. *)
Theorem readIssue_by_identifier
        (server : Server) (key teamKey : string) (n : N) (log : list Request) :
  teamKey <> "" ->
  all_letters teamKey = true ->
  Json.safe_integer (Z.of_N n) = true ->
  let issueId := teamKey ++ "-" ++ N_to_string n in
  let request :=
    mkRequest key ISSUE_BY_NUMBER
      (Some (JObj [ ("teamKey", JStr (toUpperCase teamKey));
                    ("issueNumber", JNum (Z.of_N n) 0) ])) in
  isIdentifier issueId = true
  /\ readIssue server key issueId log
     = (match issues server log request with
        | Returned [] => Threw (Error (not_found "Issue" issueId))
        | Returned (first :: _) => Returned first
        | Threw e => Threw e
        end, (log ++ [request])%list)
  /\ (forall other : string,
         isIdentifier other = false ->
         readIssue server key other log
         = (issue server log
              (mkRequest key ISSUE_BY_ID (Some (JObj [ ("id", JStr other) ]))),
            (log ++ [mkRequest key ISSUE_BY_ID (Some (JObj [ ("id", JStr other) ]))])%list)).
Proof.
  intros Hne Hletters _ issueId request.
  assert (Hid : isIdentifier issueId = true).
  { unfold isIdentifier, issueId.
    change ("-" ++ N_to_string n) with (String "-" (N_to_string n)).
    rewrite letters_then_key by assumption.
    unfold N_to_string. rewrite all_digits_uint.
    destruct (N_to_string_head n "") as (c & s & Hs & _).
    unfold N_to_string in Hs. rewrite append_nil_r in Hs. now rewrite Hs. }
  split; [exact Hid|]. split.
  - unfold readIssue. rewrite Hid. unfold issueId.
    change ("-" ++ N_to_string n) with (String "-" (N_to_string n)).
    rewrite split_first by now apply letters_not_dash.
    rewrite split_whole
      by (apply digit_not_dash; unfold N_to_string; apply all_digits_uint).
    unfold N_to_string at 1. rewrite read_digits_all. cbn [fst].
    rewrite ResolveFacts.parseInt_to_uint.
    unfold and_then, linearQuery, object. cbn [omap list_omap fst snd].
    fold request.
    destruct (issues server log request) as [[|first rest]|e]; reflexivity.
  - intros other Hother. unfold readIssue. rewrite Hother. reflexivity.
Qed.

Lemma readIssue_by_identifier_witness :
  let server :=
    mkServer (fun _ _ => Returned []) (fun _ _ => Threw (Error "down"))
             (fun _ _ => Threw (Error "down")) (fun _ _ => Returned [])
             (fun _ _ => Returned tt) (fun _ _ => Returned []) in
  readIssue server "lin_key" "eng-123" []
  = (Threw (Error (not_found "Issue" "eng-123")),
     [mkRequest "lin_key" ISSUE_BY_NUMBER
        (Some (JObj [ ("teamKey", JStr "ENG"); ("issueNumber", JNum 123 0) ]))]).
Proof.
  cbv zeta.
  assert (Hne : "eng" <> "") by discriminate.
  exact (proj1 (proj2 (readIssue_by_identifier
                         (mkServer (fun _ _ => Returned [])
                                   (fun _ _ => Threw (Error "down"))
                                   (fun _ _ => Threw (Error "down"))
                                   (fun _ _ => Returned [])
                                   (fun _ _ => Returned tt)
                                   (fun _ _ => Returned []))
                         "lin_key" "eng" 123 [] Hne eq_refl eq_refl))).
Defined.

End LinearFacts.

Module UpdateFacts.
Import Json Anthropic Js Text Linear.
Import JsonFacts LinearFacts.
#[local] Arguments String.append !s1 s2 : simpl nomatch.

(** *** Which requests change something *)

Lemma mutation_by_number key vars :
  is_mutation (mkRequest key ISSUE_BY_NUMBER vars) = false.
Proof. vm_compute. reflexivity. Qed.

Lemma mutation_by_id key vars :
  is_mutation (mkRequest key ISSUE_BY_ID vars) = false.
Proof. vm_compute. reflexivity. Qed.

Lemma mutation_states key vars :
  is_mutation (mkRequest key WORKFLOW_STATES vars) = false.
Proof. vm_compute. reflexivity. Qed.

Lemma mutation_update_state key vars :
  is_mutation (mkRequest key UPDATE_STATE vars) = true.
Proof. vm_compute. reflexivity. Qed.

Lemma mutation_update_fields key vars :
  is_mutation (mkRequest key UPDATE_FIELDS vars) = true.
Proof. vm_compute. reflexivity. Qed.

Lemma mutation_comment key vars :
  is_mutation (mkRequest key COMMENT_CREATE vars) = true.
Proof. vm_compute. reflexivity. Qed.

Lemma mutations_snoc (log : list Request) (r : Request) :
  mutations (log ++ [r]) = (mutations log ++ if is_mutation r then [r] else [])%list.
Proof.
  unfold mutations. rewrite List.filter_app. cbn [List.filter].
  now destruct (is_mutation r).
Qed.

Lemma and_then_run {A B} (m : L A) (k : A -> L B) (log : list Request) :
  and_then m k log
  = match m log with
    | (Returned a, after) => k a after
    | (Threw e, after) => (Threw e, after)
    end.
Proof. unfold and_then. now destruct (m log) as [[a|e] after]. Qed.

(** Reading an issue changes nothing. *)
Lemma readIssue_reads (server : Server) (key issueId : string) (log : list Request) :
  mutations (snd (readIssue server key issueId log)) = mutations log.
Proof.
  unfold readIssue. destruct (isIdentifier issueId).
  - destruct (split "-" issueId) as [|teamKey [|numberStr rest]];
      try (cbn [throw snd]; reflexivity).
    unfold and_then, linearQuery.
    destruct (issues server log _) as [[|first more]|e]; cbn [throw pure snd];
      now rewrite mutations_snoc, mutation_by_number, List.app_nil_r.
  - unfold linearQuery. cbn [snd].
    now rewrite mutations_snoc, mutation_by_id, List.app_nil_r.
Qed.

(** The id the updates are addressed to. *)
Lemma resolved_id (server : Server) (key issueId : string) (log : list Request) :
  let m := if isIdentifier issueId
           then and_then (readIssue server key issueId)
                         (fun found => pure (Issue.id found))
           else pure issueId in
  mutations (snd (m log)) = mutations log
  /\ (isIdentifier issueId = false -> m log = (Returned issueId, log)).
Proof.
  cbv zeta. destruct (isIdentifier issueId) eqn:Hid.
  - split; [|discriminate]. unfold and_then.
    pose proof (readIssue_reads server key issueId log) as H.
    destruct (readIssue server key issueId log) as [[found|e] log1];
      cbn [pure snd] in *; exact H.
  - split; [reflexivity|]. reflexivity.
Qed.

(** X22: an unknown status stops the update before anything is changed.
    When the server knows no workflow state of the name asked for,
    [updateIssue] throws, and no mutation has been sent: neither the state
    change nor the title, description or comment that came with it.  For an
    issue given by its id the error is
    [Workflow state "<status>" not found.]. *)
Theorem unknown_status_changes_nothing
        (server : Server) (key teamId issueId status : string)
        (updates : Updates) (log : list Request) :
  Review.truthy (u_status updates) = Some status ->
  (forall before : list Request,
      workflowStates server before
        (mkRequest key WORKFLOW_STATES
           (Some (JObj [("name", JStr status); ("teamId", JStr teamId)])))
      = Returned []) ->
  (exists e : Thrown, fst (updateIssue server key teamId issueId updates log) = Threw e)
  /\ mutations (snd (updateIssue server key teamId issueId updates log))
     = mutations log
  /\ (isIdentifier issueId = false ->
      fst (updateIssue server key teamId issueId updates log)
      = Threw (Error (not_found "Workflow state" status))).
Proof.
  intros Hstatus Hnone.
  destruct (resolved_id server key issueId log) as [Hmut Hplain].
  cbv zeta in Hmut, Hplain.
  unfold updateIssue.
  set (first := if isIdentifier issueId
                then and_then (readIssue server key issueId)
                              (fun found => pure (Issue.id found))
                else pure issueId) in *.
  rewrite and_then_run.
  destruct (first log) as [[resolvedId|e] log1] eqn:Hres; cbn [snd] in Hmut.
  2:{ cbn [fst snd]. split; [now exists e|split; [exact Hmut|]].
      intros Hid. specialize (Hplain Hid). discriminate Hplain. }
  rewrite Hstatus. rewrite !and_then_run. unfold linearQuery.
  cbn [object omap snd fst]. rewrite Hnone. cbn [throw fst snd].
  assert (Hlog : mutations (log1 ++ [mkRequest key WORKFLOW_STATES
                   (Some (JObj [("name", JStr status); ("teamId", JStr teamId)]))])
                 = mutations log)
    by now rewrite mutations_snoc, mutation_states, List.app_nil_r.
  split; [now eexists|split; [exact Hlog|intros _; reflexivity]].
Qed.

Lemma unknown_status_changes_nothing_witness :
  let updates :=
    mkUpdates (Some "Shipped") (Some "Done in #12") (Some (JStr "New title")) None in
  fst (updateIssue LinearSamples.stateless "lin_key" "team" "0b1f" updates [])
  = Threw (Error (not_found "Workflow state" "Shipped"))
  /\ mutations (snd (updateIssue LinearSamples.stateless "lin_key" "team" "0b1f" updates []))
     = [].
Proof.
  cbv zeta.
  destruct (unknown_status_changes_nothing
              LinearSamples.stateless "lin_key" "team" "0b1f" "Shipped"
              (mkUpdates (Some "Shipped") (Some "Done in #12")
                         (Some (JStr "New title")) None)
              [] eq_refl (fun _ => eq_refl)) as (_ & Hm & He).
  split; [exact (He eq_refl)|exact Hm].
Defined.

(** *** The mutations of a successful update *)

Lemma fields_then_comment
      (server : Server) (key resolvedId : string) (updates : Updates)
      (log after : list Request) (found : Issue.t) :
  and_then
    (when (truthy_value (u_title updates) || is_some (u_description updates))
       (linearQuery (performed server) key UPDATE_FIELDS
          (Some (object
                   [ ("issueId", Some (JStr resolvedId));
                     ("input",
                      Some (object [ ("title", title_given updates);
                                     ("description", u_description updates) ])) ]))))
    (fun _ =>
  and_then
    (match Review.truthy (u_comment updates) with
     | Some comment =>
         linearQuery (performed server) key COMMENT_CREATE
           (Some (object [ ("issueId", Some (JStr resolvedId));
                           ("body", Some (JStr comment)) ]))
     | None => pure tt
     end)
    (fun _ => readIssue server key resolvedId)) log = (Returned found, after) ->
  mutations after
  = (mutations log
     ++ (if truthy_value (u_title updates)
            || is_some (u_description updates)
         then [mkRequest key UPDATE_FIELDS
                 (Some (JObj [("issueId", JStr resolvedId);
                              ("input",
                               object [("title", title_given updates);
                                       ("description", u_description updates)])]))]
         else [])
     ++ match Review.truthy (u_comment updates) with
        | Some comment =>
            [mkRequest key COMMENT_CREATE
               (Some (JObj [("issueId", JStr resolvedId); ("body", JStr comment)]))]
        | None => []
        end)%list.
Proof.
  intros Hrun. rewrite and_then_run in Hrun.
  set (input := object [("title", title_given updates);
                        ("description", u_description updates)]) in *.
  assert (Hfields :
            exists log2,
              and_then
                (match Review.truthy (u_comment updates) with
                 | Some comment =>
                     linearQuery (performed server) key COMMENT_CREATE
                       (Some (object [ ("issueId", Some (JStr resolvedId));
                                       ("body", Some (JStr comment)) ]))
                 | None => pure tt
                 end)
                (fun _ => readIssue server key resolvedId) log2 = (Returned found, after)
              /\ mutations log2
                 = (mutations log
                    ++ (if truthy_value (u_title updates)
                           || is_some (u_description updates)
                        then [mkRequest key UPDATE_FIELDS
                                (Some (JObj [("issueId", JStr resolvedId);
                                             ("input", input)]))]
                        else []))%list).
  { destruct (truthy_value (u_title updates)
              || is_some (u_description updates)).
    - unfold when in Hrun. rewrite and_then_run in Hrun.
      unfold linearQuery at 1 in Hrun. cbn [object omap snd fst] in Hrun.
      destruct (performed server log _) as [[]|e]; [|discriminate Hrun].
      cbn [pure] in Hrun. eexists. split; [exact Hrun|].
      now rewrite mutations_snoc, mutation_update_fields.
    - cbn [when pure] in Hrun. exists log. split; [exact Hrun|].
      now rewrite List.app_nil_r. }
  clear Hrun. destruct Hfields as (log2 & Hrun & Hlog2).
  rewrite List.app_assoc, <- Hlog2. clear Hlog2.
  rewrite and_then_run in Hrun.
  destruct (Review.truthy (u_comment updates)) as [comment|].
  - unfold linearQuery at 1 in Hrun. cbn [object omap snd fst] in Hrun.
    destruct (performed server log2 _) as [[]|e]; [|discriminate Hrun].
    match type of Hrun with
    | readIssue _ _ _ ?l = _ =>
        pose proof (readIssue_reads server key resolvedId l) as Hread
    end.
    rewrite Hrun in Hread. cbn [snd] in Hread. rewrite Hread.
    rewrite mutations_snoc, mutation_comment. reflexivity.
  - cbn [pure] in Hrun.
    pose proof (readIssue_reads server key resolvedId log2) as Hread.
    rewrite Hrun in Hread. cbn [snd] in Hread. rewrite Hread.
    now rewrite List.app_nil_r.
Qed.

Lemma updateIssue_mutations
      (server : Server) (key teamId issueId : string) (updates : Updates)
      (log after : list Request) (found : Issue.t) :
  updateIssue server key teamId issueId updates log = (Returned found, after) ->
  exists resolvedId : string,
    (isIdentifier issueId = false -> resolvedId = issueId)
    /\ exists stateId : string,
      mutations after
      = (mutations log
         ++ match Review.truthy (u_status updates) with
            | Some _ =>
                [mkRequest key UPDATE_STATE
                   (Some (JObj [("issueId", JStr resolvedId);
                                ("stateId", JStr stateId)]))]
            | None => []
            end
         ++ (if truthy_value (u_title updates)
                || is_some (u_description updates)
             then [mkRequest key UPDATE_FIELDS
                     (Some (JObj [("issueId", JStr resolvedId);
                                  ("input",
                                   object [("title", title_given updates);
                                           ("description", u_description updates)])]))]
             else [])
         ++ match Review.truthy (u_comment updates) with
            | Some comment =>
                [mkRequest key COMMENT_CREATE
                   (Some (JObj [("issueId", JStr resolvedId);
                                ("body", JStr comment)]))]
            | None => []
            end)%list.
Proof.
  intros Hrun.
  destruct (resolved_id server key issueId log) as [Hmut Hplain].
  cbv zeta in Hmut, Hplain.
  unfold updateIssue in Hrun.
  set (first := if isIdentifier issueId
                then and_then (readIssue server key issueId)
                              (fun found => pure (Issue.id found))
                else pure issueId) in *.
  rewrite and_then_run in Hrun.
  destruct (first log) as [[resolvedId|e] log1] eqn:Hres; [|discriminate Hrun].
  cbn [snd] in Hmut. exists resolvedId. split.
  { intros Hid. specialize (Hplain Hid). now inversion Hplain. }
  rewrite <- Hmut. clear Hmut Hplain Hres first.
  rewrite and_then_run in Hrun.
  destruct (Review.truthy (u_status updates)) as [status|] eqn:Hstatus.
  - rewrite and_then_run in Hrun. unfold linearQuery at 1 in Hrun.
    cbn [object omap snd fst] in Hrun.
    destruct (workflowStates server log1 _) as [[|state others]|e];
      [discriminate Hrun| |discriminate Hrun].
    exists (ws_id state).
    unfold linearQuery at 1 in Hrun. cbn [object omap snd fst] in Hrun.
    destruct (performed server _ _) as [[]|e]; [|discriminate Hrun].
    apply fields_then_comment in Hrun. rewrite Hrun.
    rewrite !mutations_snoc, mutation_states, mutation_update_state, List.app_nil_r.
    now rewrite <- !List.app_assoc.
  - exists "". cbn [pure] in Hrun.
    apply fields_then_comment in Hrun. rewrite Hrun. reflexivity.
Qed.

(** X23: what a successful update has changed.  When [updateIssue] returns
    an issue, the mutations it has sent are, in this order: the state change
    if a status was asked for, one change of title and description if a
    title or a description was given, and the comment if one was given;
    nothing else.  All of them are addressed to the same issue id, which is
    the given id unless that is an identifier such as [ENG-123]. *)
Theorem updateIssue_sends_each_change_once
        (server : Server) (key teamId issueId : string) (updates : Updates)
        (log after : list Request) (found : Issue.t) :
  updateIssue server key teamId issueId updates log = (Returned found, after) ->
  exists resolvedId stateId : string,
    (isIdentifier issueId = false -> resolvedId = issueId)
    /\ mutations after
       = (mutations log
          ++ match Review.truthy (u_status updates) with
             | Some _ =>
                 [mkRequest key UPDATE_STATE
                    (Some (JObj [("issueId", JStr resolvedId);
                                 ("stateId", JStr stateId)]))]
             | None => []
             end
          ++ (if truthy_value (u_title updates)
                 || is_some (u_description updates)
              then [mkRequest key UPDATE_FIELDS
                      (Some (JObj [("issueId", JStr resolvedId);
                                   ("input",
                                    object [("title", title_given updates);
                                            ("description", u_description updates)])]))]
              else [])
          ++ match Review.truthy (u_comment updates) with
             | Some comment =>
                 [mkRequest key COMMENT_CREATE
                    (Some (JObj [("issueId", JStr resolvedId);
                                 ("body", JStr comment)]))]
             | None => []
             end)%list.
Proof.
  intros Hrun.
  destruct (updateIssue_mutations _ _ _ _ _ _ _ _ Hrun)
    as (resolvedId & Hid & stateId & Hsent).
  now exists resolvedId, stateId.
Qed.

Lemma updateIssue_sends_each_change_once_witness :
  let updates :=
    mkUpdates (Some "Done") (Some "Shipped in #12") None (Some (JStr "")) in
  exists resolvedId stateId : string,
    (isIdentifier "ENG-7" = false -> resolvedId = "ENG-7")
    /\ mutations (snd (updateIssue LinearSamples.willing "lin_key" "team" "ENG-7"
                                   updates []))
       = [ mkRequest "lin_key" UPDATE_STATE
             (Some (JObj [("issueId", JStr resolvedId); ("stateId", JStr stateId)]));
           mkRequest "lin_key" UPDATE_FIELDS
             (Some (JObj [("issueId", JStr resolvedId);
                          ("input", JObj [("description", JStr "")])]));
           mkRequest "lin_key" COMMENT_CREATE
             (Some (JObj [("issueId", JStr resolvedId);
                          ("body", JStr "Shipped in #12")])) ].
Proof.
  cbv zeta.
  exact (updateIssue_sends_each_change_once
           LinearSamples.willing "lin_key" "team" "ENG-7"
           (mkUpdates (Some "Done") (Some "Shipped in #12") None (Some (JStr "")))
           [] _ LinearSamples.login_issue
           ltac:(vm_compute; reflexivity)).
Defined.

(** X24: linking a pull request adds one comment and changes nothing else.
    When [linkPR] succeeds, the only mutation it has sent is one comment on
    the issue, whose body is the link mark followed by [ Linked PR: ] and
    the pull request's URL; the issue's state, title and description are
    not touched. *)
Theorem linkPR_adds_one_comment
        (server : Server) (key teamId issueId prUrl : string)
        (log after : list Request) :
  linkPR server key teamId issueId prUrl log = (Returned tt, after) ->
  exists resolvedId : string,
    (isIdentifier issueId = false -> resolvedId = issueId)
    /\ mutations after
       = (mutations log
          ++ [mkRequest key COMMENT_CREATE
                (Some (JObj [("issueId", JStr resolvedId);
                             ("body", JStr (LINK_MARK ++ " Linked PR: " ++ prUrl))]))])%list.
Proof.
  unfold linkPR. rewrite and_then_run.
  destruct (updateIssue server key teamId issueId _ log) as [[found|e] log1] eqn:Hrun;
    [|discriminate].
  cbn [pure]. intros Hdone. inversion Hdone; subst log1.
  destruct (updateIssue_mutations _ _ _ _ _ _ _ _ Hrun)
    as (resolvedId & Hid & stateId & Hsent).
  exists resolvedId. split; [exact Hid|].
  rewrite Hsent. reflexivity.
Qed.

Lemma linkPR_adds_one_comment_witness :
  exists resolvedId : string,
    (isIdentifier "ENG-7" = false -> resolvedId = "ENG-7")
    /\ mutations (snd (linkPR LinearSamples.willing "lin_key" "team" "ENG-7"
                              "https://github.com/acme/app/pull/12" []))
       = [ mkRequest "lin_key" COMMENT_CREATE
             (Some (JObj [("issueId", JStr resolvedId);
                          ("body",
                           JStr (LINK_MARK
                                 ++ " Linked PR: https://github.com/acme/app/pull/12"))])) ].
Proof.
  exact (linkPR_adds_one_comment
           LinearSamples.willing "lin_key" "team" "ENG-7"
           "https://github.com/acme/app/pull/12" [] _
           ltac:(vm_compute; reflexivity)).
Defined.

(** X25: reading never changes anything.  [readIssue], [listIssues],
    [getActiveIssues] and [listTeams] send queries only: whatever the
    server answers, and whether they return or throw, the mutations sent so
    far are the ones sent before the call. *)
Theorem reads_send_no_mutation
        (server : Server) (key issueId : string) (status teamId : option string)
        (log : list Request) :
  mutations (snd (readIssue server key issueId log)) = mutations log
  /\ mutations (snd (listIssues server key status teamId log)) = mutations log
  /\ mutations (snd (getActiveIssues server key teamId log)) = mutations log
  /\ mutations (snd (listTeams server key log)) = mutations log.
Proof.
  split; [apply readIssue_reads|].
  unfold listIssues, getActiveIssues, listTeams, linearQuery. cbn [snd].
  rewrite !mutations_snoc.
  repeat split; match goal with
                | |- (_ ++ (if ?b then _ else _))%list = _ =>
                    replace b with false by (vm_compute; reflexivity)
                end; apply List.app_nil_r.
Qed.

End UpdateFacts.

Module LinearCommandFacts.
Import Json Anthropic Js Text Tickets Config Linear LinearCommand.
Import JsonFacts LinearFacts UpdateFacts.
#[local] Arguments String.append !s1 s2 : simpl nomatch.

(** Case analysis on what the action inspects, innermost first. *)
Ltac branches :=
  repeat match goal with
         | |- context [match ?x with _ => _ end] =>
             lazymatch x with
             | context [match _ with _ => _ end] => fail
             | _ => let E := fresh "E" in
                    destruct x eqn:E; cbn beta iota;
                    cbn [fst snd console requests]
             end
         end.

Lemma snoc_not_nil {A} (l : list A) (a : A) : (l ++ [a])%list <> [].
Proof. now destruct l. Qed.

(** X26: [create] that gives up has not contacted Linear.  Whenever the
    action ends by [process.exit], the exit code is 1, a line explaining why
    has been printed, and no request has been sent: the key, the team id,
    the style, the key of the assistant, its reply and the title are all
    checked before the issue is created. *)
Theorem create_exit_sends_nothing
        (server : Server) (assistant : Assistant) (config : PmConfig)
        (title : option string) (opts : CreateOptions) (code : Z) :
  fst (create server assistant config title opts start) = inr (Exit code) ->
  code = 1
  /\ requests (snd (create server assistant config title opts start)) = []
  /\ console (snd (create server assistant config title opts start)) <> [].
Proof.
  unfold create, requireLinearKey, then_, bind, print, exit, ret, await, start,
    createIssue, linearQuery.
  cbn [console requests].
  branches; cbn [fst snd console requests]; intros H; inversion H; subst;
    repeat split; try reflexivity; try apply snoc_not_nil; try discriminate.
Qed.

Lemma create_exit_sends_nothing_witness :
  let opts := mkCreateOptions None (Some "Users cannot log in") None in
  fst (create LinearSamples.willing CommandSamples.unreachable
              CommandSamples.configured (Some "Fix login") opts start)
  = inr (Exit 1)
  /\ requests (snd (create LinearSamples.willing CommandSamples.unreachable
                           CommandSamples.configured (Some "Fix login") opts start)) = []
  /\ console (snd (create LinearSamples.willing CommandSamples.unreachable
                          CommandSamples.configured (Some "Fix login") opts start)) <> [].
Proof.
  cbv zeta. split; [reflexivity|].
  exact (proj2 (create_exit_sends_nothing
                  LinearSamples.willing CommandSamples.unreachable
                  CommandSamples.configured (Some "Fix login")
                  (mkCreateOptions None (Some "Users cannot log in") None)
                  1 eq_refl)).
Defined.

(** A ticket that passed the check has both fields. *)
Lemma checked_fields (ticket accepted : json) :
  checked ticket = Returned accepted ->
  accepted = ticket
  /\ exists t d : json,
      property "title" ticket = Some t /\ truthy_value (Some t) = true
      /\ property "description" ticket = Some d /\ truthy_value (Some d) = true.
Proof.
  unfold checked. intros H.
  assert (Hfields :
            (if negb (truthy_value (property "title" ticket))
                || negb (truthy_value (property "description" ticket))
             then Threw (Error MISSING_FIELDS)
             else Returned ticket) = Returned accepted).
  { destruct ticket; try exact H. discriminate H. }
  clear H.
  destruct (property "title" ticket) as [t|] eqn:Ht;
    [|cbn in Hfields; discriminate Hfields].
  destruct (property "description" ticket) as [d|] eqn:Hd;
    [|cbn [truthy_value negb] in Hfields; rewrite orb_true_r in Hfields;
      discriminate Hfields].
  destruct (truthy_value (Some t)) eqn:Tt; [|discriminate Hfields].
  destruct (truthy_value (Some d)) eqn:Td; [|discriminate Hfields].
  cbn [negb orb] in Hfields. inversion Hfields. split; [reflexivity|].
  now exists t, d.
Qed.

Lemma ticketWithAI_fields (response : result (list ContentBlock)) (ticket : json) :
  ticketWithAI response = Returned ticket ->
  exists t d : json,
    property "title" ticket = Some t /\ truthy_value (Some t) = true
    /\ property "description" ticket = Some d /\ truthy_value (Some d) = true.
Proof.
  unfold ticketWithAI, ticket_of_text. intros H.
  destruct response as [content|msg]; [|discriminate H].
  destruct (find_text content) as [text|]; [|discriminate H].
  destruct (JSON_parse _) as [parsed|]; [|discriminate H].
  destruct (checked_fields _ _ H) as [-> Hf]. exact Hf.
Qed.

(** X27: with [--ai], the issue created is the assistant's ticket.
    Whenever [create] with a prompt for the assistant contacts Linear, it
    sends one request, the creation of an issue whose title and description
    are the two fields of the reply the assistant gave for that prompt, the
    chosen style and the title of the command line as context; the title
    and the description given on the command line are not sent. *)
Theorem create_with_ai_sends_generated_ticket
        (server : Server) (assistant : Assistant) (config : PmConfig)
        (title : option string) (opts : CreateOptions) (prompt : string) :
  Review.truthy (c_ai opts) = Some prompt ->
  requests (snd (create server assistant config title opts start)) <> [] ->
  exists (apiKey teamId aiKey : string) (ticket t d : json),
    Review.truthy (linearApiKey config) = Some apiKey
    /\ Review.truthy (linearTeamId config) = Some teamId
    /\ Review.truthy (anthropicApiKey config) = Some aiKey
    /\ ticketWithAI (generated assistant aiKey prompt (ticketStyle (c_style opts)) title)
       = Returned ticket
    /\ property "title" ticket = Some t
    /\ property "description" ticket = Some d
    /\ requests (snd (create server assistant config title opts start))
       = [ mkRequest apiKey ISSUE_CREATE
             (Some (JObj [("input",
                           JObj [("title", t); ("description", d);
                                 ("teamId", JStr teamId)])])) ].
Proof.
  intros Hai.
  unfold create, requireLinearKey, then_, bind, print, exit, ret, await, start,
    createIssue, linearQuery.
  rewrite Hai. cbn [console requests].
  destruct (Review.truthy (linearApiKey config)) as [apiKey|];
    cbn [fst snd console requests]; [|intros H; now contradiction H].
  destruct (Review.truthy (linearTeamId config)) as [teamId|];
    cbn [fst snd console requests]; [|intros H; now contradiction H].
  destruct (negb (includes validStyles (ticketStyle (c_style opts))));
    cbn [fst snd console requests]; [intros H; now contradiction H|].
  destruct (Review.truthy (anthropicApiKey config)) as [aiKey|];
    cbn [fst snd console requests]; [|intros H; now contradiction H].
  destruct (ticketWithAI _) as [ticket|e] eqn:Hticket;
    cbn [fst snd console requests]; [|intros H; now contradiction H].
  destruct (ticketWithAI_fields _ _ Hticket) as (t & d & Ht & Tt & Hd & Td).
  rewrite Ht, Hd, Tt. cbn [fst snd console requests].
  intros _. exists apiKey, teamId, aiKey, ticket, t, d.
  repeat split; try assumption.
  destruct (issueCreate server _ _); reflexivity.
Qed.

Lemma create_with_ai_sends_generated_ticket_witness :
  let opts := mkCreateOptions (Some "typed by hand") (Some "Users cannot log in")
                              (Some "TLDR") in
  exists (apiKey teamId aiKey : string) (ticket t d : json),
    Review.truthy (linearApiKey CommandSamples.configured) = Some apiKey
    /\ Review.truthy (linearTeamId CommandSamples.configured) = Some teamId
    /\ Review.truthy (anthropicApiKey CommandSamples.configured) = Some aiKey
    /\ ticketWithAI (generated CommandSamples.helpful aiKey "Users cannot log in"
                               "tldr" (Some "Fix login"))
       = Returned ticket
    /\ property "title" ticket = Some t
    /\ property "description" ticket = Some d
    /\ requests (snd (create LinearSamples.willing CommandSamples.helpful
                             CommandSamples.configured (Some "Fix login") opts start))
       = [ mkRequest apiKey ISSUE_CREATE
             (Some (JObj [("input",
                           JObj [("title", t); ("description", d);
                                 ("teamId", JStr teamId)])])) ].
Proof.
  cbv zeta.
  exact (create_with_ai_sends_generated_ticket
           LinearSamples.willing CommandSamples.helpful CommandSamples.configured
           (Some "Fix login")
           (mkCreateOptions (Some "typed by hand") (Some "Users cannot log in")
                            (Some "TLDR"))
           "Users cannot log in" eq_refl
           ltac:(vm_compute; intros H; discriminate H)).
Defined.

(** *** [update] *)



(** X29: with [--ai], [update] rewrites the ticket from its current text.
    When [update] with a prompt for the assistant succeeds, the assistant
    was given the title the issue has now and its description (the empty
    string when it has none), and the mutations sent are: the state change
    if [--status] was given, then one change that sets both the title and
    the description to the fields of the assistant's reply, then the
    comment if [--comment] was given. *)
Theorem update_with_ai_rewrites_ticket
        (server : Server) (assistant : Assistant) (config : PmConfig)
        (issueId : string) (opts : UpdateOptions) (prompt : string) :
  Review.truthy (o_ai opts) = Some prompt ->
  fst (update server assistant config issueId opts start) = inl tt ->
  exists (apiKey aiKey resolvedId stateId : string) (current : Issue.t)
         (improved t d : json),
    Review.truthy (linearApiKey config) = Some apiKey
    /\ Review.truthy (anthropicApiKey config) = Some aiKey
    /\ fst (readIssue server apiKey issueId []) = Returned current
    /\ ticketWithAI (edited assistant aiKey (Issue.title current)
                            (or_empty (Issue.description current))
                            prompt (ticketStyle (o_style opts)))
       = Returned improved
    /\ property "title" improved = Some t
    /\ property "description" improved = Some d
    /\ mutations (requests (snd (update server assistant config issueId opts start)))
       = (match Review.truthy (o_status opts) with
          | Some _ =>
              [mkRequest apiKey UPDATE_STATE
                 (Some (JObj [("issueId", JStr resolvedId);
                              ("stateId", JStr stateId)]))]
          | None => []
          end
          ++ [mkRequest apiKey UPDATE_FIELDS
                (Some (JObj [("issueId", JStr resolvedId);
                             ("input", JObj [("title", t); ("description", d)])]))]
          ++ match Review.truthy (o_comment opts) with
             | Some comment =>
                 [mkRequest apiKey COMMENT_CREATE
                    (Some (JObj [("issueId", JStr resolvedId);
                                 ("body", JStr comment)]))]
             | None => []
             end)%list.
Proof.
  intros Hai.
  unfold update, requireLinearKey, then_, bind, print, exit, ret, await, start.
  rewrite Hai. cbn [console requests is_some negb andb].
  rewrite andb_false_r.
  destruct (Review.truthy (linearApiKey config)) as [apiKey|];
    cbn [fst snd console requests]; [|discriminate].
  destruct (Review.truthy (linearTeamId config)) as [teamId|];
    cbn [fst snd console requests]; [|discriminate].
  destruct (is_some (Review.truthy (o_style opts))
            && negb (includes validStyles (ticketStyle (o_style opts))));
    cbn [fst snd console requests]; [discriminate|].
  destruct (Review.truthy (anthropicApiKey config)) as [aiKey|];
    cbn [fst snd console requests]; [|discriminate].
  pose proof (readIssue_reads server apiKey issueId []) as Hread.
  destruct (readIssue server apiKey issueId []) as [[current|e] log1] eqn:Hcurrent;
    cbn [fst snd console requests] in *; [|discriminate].
  destruct (ticketWithAI _) as [improved|e] eqn:Hticket;
    cbn [fst snd console requests]; [|discriminate].
  destruct (ticketWithAI_fields _ _ Hticket) as (t & d & Ht & Tt & Hd & Td).
  rewrite Ht, Hd.
  destruct (updateIssue server apiKey teamId issueId _ log1)
    as [[found|e] log2] eqn:Hrun; cbn [fst snd console requests]; [|discriminate].
  intros _.
  destruct (updateIssue_mutations _ _ _ _ _ _ _ _ Hrun)
    as (resolvedId & _ & stateId & Hsent).
  exists apiKey, aiKey, resolvedId, stateId, current, improved, t, d.
  repeat split; try assumption; [now rewrite Hcurrent|].
  cbn [fst snd requests].
  rewrite Hsent, Hread. unfold title_given.
  cbn [u_status u_comment u_title u_description mutations List.filter List.app].
  rewrite Tt. cbn [orb is_some]. reflexivity.
Qed.

Lemma update_with_ai_rewrites_ticket_witness :
  let opts := mkUpdateOptions (Some "Done") (Some "Rewritten") (Some "make it shorter")
                              None in
  exists (apiKey aiKey resolvedId stateId : string) (current : Issue.t)
         (improved t d : json),
    Review.truthy (linearApiKey CommandSamples.configured) = Some apiKey
    /\ Review.truthy (anthropicApiKey CommandSamples.configured) = Some aiKey
    /\ fst (readIssue LinearSamples.willing apiKey "ENG-7" []) = Returned current
    /\ ticketWithAI (edited CommandSamples.helpful aiKey (Issue.title current)
                            (or_empty (Issue.description current))
                            "make it shorter" "descriptive")
       = Returned improved
    /\ property "title" improved = Some t
    /\ property "description" improved = Some d
    /\ mutations (requests (snd (update LinearSamples.willing CommandSamples.helpful
                                        CommandSamples.configured "ENG-7" opts start)))
       = [ mkRequest apiKey UPDATE_STATE
             (Some (JObj [("issueId", JStr resolvedId); ("stateId", JStr stateId)]));
           mkRequest apiKey UPDATE_FIELDS
             (Some (JObj [("issueId", JStr resolvedId);
                          ("input", JObj [("title", t); ("description", d)])]));
           mkRequest apiKey COMMENT_CREATE
             (Some (JObj [("issueId", JStr resolvedId);
                          ("body", JStr "Rewritten")])) ].
Proof.
  cbv zeta.
  exact (update_with_ai_rewrites_ticket
           LinearSamples.willing CommandSamples.helpful CommandSamples.configured
           "ENG-7"
           (mkUpdateOptions (Some "Done") (Some "Rewritten") (Some "make it shorter")
                            None)
           "make it shorter" eq_refl ltac:(vm_compute; reflexivity)).
Defined.

End LinearCommandFacts.

Module McpFacts.
Import Json Js Text Config Linear Mcp.
Import LinearFacts UpdateFacts.
#[local] Arguments String.append !s1 s2 : simpl nomatch.




End McpFacts.
